(** * The Sanitizer module of editor.js (src/components/modules/sanitizer.ts)

    A shallow embedding of the two halves of the module:

    - the _tree sanitizer_ ([deepSanitize], [cleanArray], [cleanObject],
      [cleanOneItem], [isRule], [clean]), a recursive walk over JSON-like
      block data that hands every string leaf to the HTML cleaner;
    - the _rule composer_ ([composeToolConfig], [getInlineToolsConfig],
      [getAllInlineToolsConfig]) and [sanitizeBlocks], which read the tool
      registry, build rule-set objects and memoize them in two caches.

    JavaScript objects are finite lists of own enumerable properties, kept in
    the order in which they were created, which is the order of enumeration
    for names that are not array indices.  Property names are ordinary
    names: the properties an object inherits from [Object.prototype] are
    outside the model. *)

From stdpp Require Import base strings pretty list gmap.

Local Open Scope string_scope.
Local Open Scope list_scope.
Set Warnings "-register-all".

(** ** JavaScript values *)

(** Numbers only flow through the module untouched (their truthiness is the
    single thing ever asked of them), so they are kept as integers.
    Functions are opaque and told apart by a tag. *)
Inductive value : Type :=
| VUndefined
| VNull
| VBool (b : bool)
| VNumber (n : Z)
| VString (s : string)
| VFunction (tag : nat)
| VArray (items : list value)
| VObject (props : list (string * value)).

Abbreviation props := (list (string * value)).

Inductive jstype := TUndefined | TObject | TBoolean | TNumber | TString | TFunction.

(** [typeof v]; note [typeof null === 'object']. *)
Definition typeof (v : value) : jstype :=
  match v with
  | VUndefined => TUndefined
  | VNull => TObject
  | VBool _ => TBoolean
  | VNumber _ => TNumber
  | VString _ => TString
  | VFunction _ => TFunction
  | VArray _ => TObject
  | VObject _ => TObject
  end.

Definition jstype_eqb (a b : jstype) : bool :=
  match a, b with
  | TUndefined, TUndefined | TObject, TObject | TBoolean, TBoolean
  | TNumber, TNumber | TString, TString | TFunction, TFunction => true
  | _, _ => false
  end.

Definition isArray (v : value) : bool :=
  match v with VArray _ => true | _ => false end.

(** ToBoolean. *)
Definition truthy (v : value) : bool :=
  match v with
  | VUndefined | VNull => false
  | VBool b => b
  | VNumber n => negb (Z.eqb n 0)
  | VString s => negb (String.eqb s "")
  | VFunction _ | VArray _ | VObject _ => true
  end.

(** *** Property lists *)

Fixpoint lookupProp (k : string) (o : props) : option value :=
  match o with
  | [] => None
  | (k', v) :: o' => if String.eqb k k' then Some v else lookupProp k o'
  end.

(** [o[k] = v]: overwrite in place when [k] is already a property, append
    otherwise. *)
Fixpoint setProp (o : props) (k : string) (v : value) : props :=
  match o with
  | [] => [(k, v)]
  | (k', v') :: o' =>
      if String.eqb k k' then (k', v) :: o' else (k', v') :: setProp o' k v
  end.

Definition keys (o : props) : list string := map fst o.

(** The elements of a sequence as properties named by their indices,
    starting at [i]. *)
Fixpoint indexed {A} (f : A -> value) (i : nat) (l : list A) : props :=
  match l with
  | [] => []
  | x :: l' => (pretty i, f x) :: indexed f (S i) l'
  end.

Fixpoint chars (s : string) : list string :=
  match s with
  | EmptyString => []
  | String c s' => String c EmptyString :: chars s'
  end.

(** The own enumerable properties of a value, as [for ... in] with the
    [hasOwnProperty] filter and [Object.assign] see them. *)
Definition ownEntries (v : value) : props :=
  match v with
  | VObject o => o
  | VArray items => indexed id 0 items
  | VString s => indexed VString 0 (chars s)
  | _ => []
  end.

(** [v[k]].  Reading a property of [undefined] or [null] throws a
    [TypeError], rendered as [None].  Own properties only: the names that
    [v] inherits from its prototype are outside the model. *)
Definition getProp (v : value) (k : string) : option value :=
  match v with
  | VUndefined | VNull => None
  | VArray items =>
      if String.eqb k "length" then Some (VNumber (Z.of_nat (length items)))
      else Some (default VUndefined (lookupProp k (ownEntries v)))
  | VString s =>
      if String.eqb k "length" then Some (VNumber (Z.of_nat (String.length s)))
      else Some (default VUndefined (lookupProp k (ownEntries v)))
  | _ => Some (default VUndefined (lookupProp k (ownEntries v)))
  end.

(** [Object.assign(target, source)]. *)
Definition assign (target : props) (source : value) : props :=
  foldl (fun t kv => setProp t kv.1 kv.2) target (ownEntries source).

(** ** Helpers imported from ../utils *)

(** Modelled from the spec: [_.isFunction] of ../utils, which is not under
    src/.  A value is a function when it is "a callable predicate". *)
Definition isFunction (v : value) : bool :=
  jstype_eqb (typeof v) TFunction.

(** Modelled from the spec: [_.isEmpty] of ../utils, which is not under
    src/.  A rule set is "empty" when it is absent or a mapping without
    entries. *)
Definition isEmpty (v : value) : bool :=
  match v with
  | VUndefined | VNull => true
  | VObject [] => true
  | _ => false
  end.

(** ** Computations *)

Class Monad (F : Type -> Type) : Type := {
  ret : forall {A}, A -> F A;
  bind : forall {A B}, F A -> (A -> F B) -> F B
}.

Notation "'do' x <- m ; k" := (bind m (fun x => k))
  (at level 10, x name, m at level 100, k at level 200).

(** ** The tree sanitizer *)

(** One invocation of the HTML cleaner: the tainted string and the
    configuration it was given. *)
Definition call : Type := string * value.

(** Computations of the tree sanitizer either throw ([None]) or return a
    result together with the invocations of the cleaner they made, in
    order. *)
Definition M (A : Type) : Type := option (A * list call).

Definition retM {A} (a : A) : M A := Some (a, []).

Definition bindM {A B} (m : M A) (f : A -> M B) : M B :=
  match m with
  | None => None
  | Some (a, c1) =>
      match f a with
      | None => None
      | Some (b, c2) => Some (b, c1 ++ c2)
      end
  end.

#[export] Instance M_monad : Monad M := {| ret := @retM; bind := @bindM |}.

Definition liftM {A} (o : option A) : M A :=
  match o with Some a => retM a | None => None end.

Section TreeSanitizer.

(** The [sanitize-html] package: the opaque markup-stripping primitive. *)
Variable sanitizeHTML : string -> value -> string.

(** [clean(taintString, customConfig = {})]. *)
Definition clean (taintString : string) (customConfig : value) : M string :=
  let customConfig :=
    match customConfig with VUndefined => VObject [] | c => c end in
  Some (sanitizeHTML taintString customConfig, [(taintString, customConfig)]).

Definition cleanOneItem (taintString : string) (rule : value) : M string :=
  if jstype_eqb (typeof rule) TObject then clean taintString rule
  else
    match rule with
    | VBool false => clean taintString (VObject [])
    | _ => ret taintString
    end.

Definition isRule (config : value) : bool :=
  jstype_eqb (typeof config) TObject
  || jstype_eqb (typeof config) TBoolean
  || isFunction config.

(** [array.map((arrayItem) => this.deepSanitize(arrayItem, ruleForItem))];
    [deepSanitize] is passed in for the recursion. *)
Definition cleanArray (deepSanitize : value -> value -> M value)
    (ruleForItem : value) : list value -> M (list value) :=
  fix go (array : list value) : M (list value) :=
    match array with
    | [] => ret []
    | arrayItem :: rest =>
        do item' <- deepSanitize arrayItem ruleForItem;
        do rest' <- go rest;
        ret (item' :: rest')
    end.

(** The loop of [cleanObject] over the own properties of [object];
    [cleanData] is the object under construction.  The assignment to
    [cleanData[fieldName]] creates an own property, which is what it does
    for every name but [__proto__]. *)
Definition cleanFields (deepSanitize : value -> value -> M value)
    (rules : value) : props -> props -> M props :=
  fix go (object cleanData : props) : M props :=
    match object with
    | [] => ret cleanData
    | (fieldName, currentIterationItem) :: rest =>
        do rule <- liftM (getProp rules fieldName);
        let ruleForItem := if isRule rule then rule else rules in
        do item' <- deepSanitize currentIterationItem ruleForItem;
        go rest (setProp cleanData fieldName item')
    end.

Definition cleanObject (deepSanitize : value -> value -> M value)
    (object : props) (rules : value) : M value :=
  do cleanData <- cleanFields deepSanitize rules object [];
  ret (VObject cleanData).

(** The three-way dispatch of [deepSanitize] is written as a match on the
    data so that the recursion is structural; [deepSanitize_dispatch]
    below shows that it is the [Array.isArray] / [typeof] cascade of the
    source.  [for ... in null] runs no iteration. *)
Fixpoint deepSanitize (dataToSanitize : value) (rules : value) {struct dataToSanitize}
    : M value :=
  match dataToSanitize with
  | VArray array =>
      do array' <- cleanArray deepSanitize rules array;
      ret (VArray array')
  | VObject object => cleanObject deepSanitize object rules
  | VNull => cleanObject deepSanitize [] rules
  | VString s =>
      do s' <- cleanOneItem s rules;
      ret (VString s')
  | _ => ret dataToSanitize
  end.

End TreeSanitizer.


(** ** The tool registry *)

(** [this.Editor.Tools], the registry the module reads and never writes.  It
    is not part of the module and is taken as a parameter.  A tool class is a
    value whose properties are the static members of the class. *)
Record ToolsRegistry : Type := {
  (** [Tools.INTERNAL_SETTINGS.SANITIZE_CONFIG] *)
  SANITIZE_CONFIG : string;
  (** [Tools.available]: block tool classes by name *)
  available : props;
  (** [Tools.inline]: inline tool classes by name *)
  inline : props;
  (** [Tools.getToolSettings(name)]; [None] when the registry throws *)
  getToolSettings : string -> option value
}.

(** The questions put to the registry, recorded as they are asked. *)
Inductive query : Type :=
| QAvailable (toolName : string)
| QToolSettings (toolName : string)
| QInline (inlineToolName : string)
| QInlineEntries.

Global Instance query_eq_dec : EqDecision query.
Proof. solve_decision. Defined.

(** ** The state of a Sanitizer instance *)

(** Addresses. *)
Abbreviation loc := nat.

(** An entry of a batch, [Pick<SavedData, 'data' | 'tool'>]. *)
Record Block : Type := { tool : string; data : value }.

(** The rule-set objects that the module creates and the blocks of a batch
    are written in place and shared, so they live in stores and are passed
    around by address.  What a rule-set object holds (the rules of the
    tags, the rules of the fields) is never written after it has been put
    there and is kept as a plain value.  [queries] records the questions put
    to the registry; it is not part of the module's own state. *)
Record state : Type := mkState {
  configCache : gmap string loc;
  inlineToolsConfigCache : option loc;
  heap : list props;
  blocks : list Block;
  queries : list query
}.

Definition ST (A : Type) : Type := state -> option (A * state).

Definition retS {A} (a : A) : ST A := fun st => Some (a, st).

Definition bindS {A B} (m : ST A) (f : A -> ST B) : ST B :=
  fun st => match m st with
            | None => None
            | Some (a, st') => f a st'
            end.

#[export] Instance ST_monad : Monad ST := {| ret := @retS; bind := @bindS |}.

Definition throw {A} : ST A := fun _ => None.

Definition liftS {A} (o : option A) : ST A :=
  fun st => match o with Some a => Some (a, st) | None => None end.

Definition gets {A} (f : state -> A) : ST A := fun st => Some (f st, st).

Definition modify (f : state -> state) : ST unit := fun st => Some (tt, f st).

Definition set_configCache (c : gmap string loc) (st : state) : state :=
  mkState c (inlineToolsConfigCache st) (heap st) (blocks st) (queries st).

Definition set_inlineToolsConfigCache (c : option loc) (st : state) : state :=
  mkState (configCache st) c (heap st) (blocks st) (queries st).

Definition set_heap (h : list props) (st : state) : state :=
  mkState (configCache st) (inlineToolsConfigCache st) h (blocks st) (queries st).

Definition set_blocks (b : list Block) (st : state) : state :=
  mkState (configCache st) (inlineToolsConfigCache st) (heap st) b (queries st).

Definition set_queries (q : list query) (st : state) : state :=
  mkState (configCache st) (inlineToolsConfigCache st) (heap st) (blocks st) q.

(** [{}] and friends: a new object at a fresh address. *)
Definition alloc (o : props) : ST loc :=
  fun st => Some (length (heap st), set_heap (heap st ++ [o]) st).

Definition readObj (l : loc) : ST props :=
  fun st => match heap st !! l with
            | Some o => Some (o, st)
            | None => None
            end.

(** In-place update of the object at [l]. *)
Definition updObj (l : loc) (f : props -> props) : ST unit :=
  fun st => match heap st !! l with
            | Some o => Some (tt, set_heap (<[l := f o]> (heap st)) st)
            | None => None
            end.

Definition readBlock (l : loc) : ST Block :=
  fun st => match blocks st !! l with
            | Some b => Some (b, st)
            | None => None
            end.

Definition writeData (l : loc) (d : value) : ST unit :=
  fun st => match blocks st !! l with
            | Some b => Some (tt, set_blocks (<[l := {| tool := tool b; data := d |}]> (blocks st)) st)
            | None => None
            end.

Definition ask (q : query) : ST unit :=
  modify (fun st => set_queries (queries st ++ [q]) st).

Fixpoint forEach {A} (f : A -> ST unit) (l : list A) : ST unit :=
  match l with
  | [] => ret tt
  | x :: l' => do _ <- f x; forEach f l'
  end.

Fixpoint mapS {A B} (f : A -> ST B) (l : list A) : ST (list B) :=
  match l with
  | [] => ret []
  | x :: l' => do y <- f x; do ys <- mapS f l'; ret (y :: ys)
  end.

(** The session starts with both caches empty. *)
Definition init (bs : list Block) : state := mkState ∅ None [] bs [].

(** ** The rule composer and the batch entry point *)

Section Sanitizer.

Variable sanitizeHTML : string -> value -> string.
Variable Tools : ToolsRegistry.

(** [Object.assign(config, inlineTool[Tools.INTERNAL_SETTINGS.SANITIZE_CONFIG])]
    on a plain property list. *)
Definition mergeInline (config : props) (inlineTool : value) : option props :=
  src ← getProp inlineTool (SANITIZE_CONFIG Tools);
  Some (assign config src).

(** What [getAllInlineToolsConfig] computes on a cache miss: every inline
    tool's rules merged in the order of [Object.entries(Tools.inline)]. *)
Definition allInline : option props :=
  foldl (fun config inlineTool => c ← config; mergeInline c inlineTool.2)
        (Some []) (inline Tools).

(** [if (this.inlineToolsConfigCache) return this.inlineToolsConfigCache;]
    then the loop over [Object.entries(Tools.inline)] and the assignment to
    the cache. *)
Definition getAllInlineToolsConfig : ST loc :=
  do cached <- gets inlineToolsConfigCache;
  match cached with
  | Some l => ret l
  | None =>
      do _ <- ask QInlineEntries;
      do config <- liftS allInline;
      do l <- alloc config;
      do _ <- modify (set_inlineToolsConfigCache (Some l));
      ret l
  end.

(** The callback of [enableInlineTools.map] in [getInlineToolsConfig]. *)
Definition enableInline (config : loc) (inlineToolName : value) : ST unit :=
  match inlineToolName with
  | VString n =>
      do _ <- ask (QInline n);
      do inlineTool <- liftS (getProp (VObject (inline Tools)) n);
      do src <- liftS (getProp inlineTool (SANITIZE_CONFIG Tools));
      updObj config (fun c => assign c src)
  | _ => throw  (* [inlineToolbar] is typed [boolean | string[]] *)
  end.

(** [enableInlineTools] is [toolsConfig.inlineToolbar || []]; [let config =
    {}] is the first allocation; the branch on [true] replaces [config] by
    the cached aggregate, the other branch fills [config] in place; the two
    assignments at the end write to whichever object [config] is. *)
Definition getInlineToolsConfig (name : string) : ST loc :=
  do _ <- ask (QToolSettings name);
  do toolsConfig <- liftS (getToolSettings Tools name);
  do inlineToolbar <- liftS (getProp toolsConfig "inlineToolbar");
  let enableInlineTools :=
    if truthy inlineToolbar then inlineToolbar else VArray [] in
  do config <- alloc [];
  do config <-
    (if jstype_eqb (typeof enableInlineTools) TBoolean && truthy enableInlineTools
     then getAllInlineToolsConfig
     else
       match enableInlineTools with
       | VArray names =>
           do _ <- forEach (enableInline config) names;
           ret config
       | _ => throw  (* [.map] is not a function *)
       end);
  do _ <- updObj config (fun c => setProp c "br" (VBool true));
  do _ <- updObj config (fun c => setProp c "wbr" (VBool true));
  ret config.

(** One iteration of the loop over the tool's declared rules. *)
Definition composeField (baseConfig : props) (toolConfig : props)
    (field : string * value) : props :=
  let (fieldName, rule) := field in
  if jstype_eqb (typeof rule) TObject
  then setProp toolConfig fieldName
         (VObject (assign (assign [] (VObject baseConfig)) rule))
  else setProp toolConfig fieldName rule.

(** The loop itself: the object [toolConfig] that the loop fills. *)
Definition composeRules (baseConfig : props) (toolRules : value) : props :=
  foldl (composeField baseConfig) [] (ownEntries toolRules).

(** [this.configCache[toolName]] holds an object or nothing (tool names
    are not names that the cache object inherits); the early return hands
    out [baseConfig] itself and stores nothing. *)
Definition composeToolConfig (toolName : string) : ST loc :=
  do cache <- gets configCache;
  match cache !! toolName with
  | Some cached => ret cached
  | None =>
      let sanitizeGetter := SANITIZE_CONFIG Tools in
      do _ <- ask (QAvailable toolName);
      do toolClass <- liftS (getProp (VObject (available Tools)) toolName);
      do baseConfig <- getInlineToolsConfig toolName;
      do sanitize <- liftS (getProp toolClass "sanitize");
      do declared <- liftS (getProp toolClass sanitizeGetter);
      if negb (truthy sanitize) || (truthy declared && isEmpty declared)
      then ret baseConfig
      else
        let toolRules := sanitize in
        do base <- readObj baseConfig;
        do toolConfig <- alloc (composeRules base toolRules);
        do _ <- modify (fun st =>
                  set_configCache (<[toolName := toolConfig]> (configCache st)) st);
        ret toolConfig
  end.

(** The callback of [blocksData.map] in [sanitizeBlocks]; it writes
    [block.data] in place and returns the block it was given.  The calls of
    the cleaner are not recorded here. *)
Definition sanitizeBlock (block : loc) : ST loc :=
  do b <- readBlock block;
  do toolConfig <- composeToolConfig (tool b);
  do rules <- readObj toolConfig;
  if isEmpty (VObject rules) then ret block
  else
    do b <- readBlock block;
    do cleaned <- liftS (fst <$> deepSanitize sanitizeHTML (data b) (VObject rules));
    do _ <- writeData block cleaned;
    ret block.

Definition sanitizeBlocks (blocksData : list loc) : ST (list loc) :=
  mapS sanitizeBlock blocksData.

End Sanitizer.

(** ** Shapes of block data *)

(** A leaf that is neither a string nor an object: [undefined], a boolean, a
    number or a function. *)
Definition otherPrimitive (v : value) : bool :=
  negb (jstype_eqb (typeof v) TObject) && negb (jstype_eqb (typeof v) TString).

(** Two values have the same shape when they agree everywhere except,
    possibly, on the contents of their string leaves. *)
Inductive sameShape : value -> value -> Prop :=
| shape_string s s' : sameShape (VString s) (VString s')
| shape_leaf v : otherPrimitive v = true -> sameShape v v
| shape_array l l' :
    Forall2 sameShape l l' -> sameShape (VArray l) (VArray l')
| shape_object o o' :
    Forall2 (fun kv kv' => kv.1 = kv'.1 /\ sameShape kv.2 kv'.2) o o' ->
    sameShape (VObject o) (VObject o').

(** Data as JSON delivers it, less [null]: property names are unique
    within an object and no leaf is [null]. *)
Fixpoint nullFree (v : value) : bool :=
  match v with
  | VNull => false
  | VArray items => forallb nullFree items
  | VObject o =>
      bool_decide (NoDup (keys o)) && forallb (fun kv => nullFree kv.2) o
  | _ => true
  end.

(** Induction on values that reaches into arrays and objects. *)
Section value_rect.
Variable P : value -> Prop.
Hypothesis Hundefined : P VUndefined.
Hypothesis Hnull : P VNull.
Hypothesis Hbool : forall b, P (VBool b).
Hypothesis Hnumber : forall n, P (VNumber n).
Hypothesis Hstring : forall s, P (VString s).
Hypothesis Hfunction : forall t, P (VFunction t).
Hypothesis Harray : forall items, Forall P items -> P (VArray items).
Hypothesis Hobject : forall o, Forall (fun kv => P kv.2) o -> P (VObject o).

Fixpoint value_deep_ind (v : value) : P v :=
  match v with
  | VUndefined => Hundefined
  | VNull => Hnull
  | VBool b => Hbool b
  | VNumber n => Hnumber n
  | VString s => Hstring s
  | VFunction t => Hfunction t
  | VArray items =>
      Harray items
        ((fix go (l : list value) : Forall P l :=
            match l with
            | [] => List.Forall_nil P
            | x :: l' => @List.Forall_cons _ P x l' (value_deep_ind x) (go l')
            end) items)
  | VObject o =>
      Hobject o
        ((fix go (l : props) : Forall (fun kv => P kv.2) l :=
            match l with
            | [] => List.Forall_nil _
            | kv :: l' =>
                @List.Forall_cons _ (fun kv => P kv.2) kv l' (value_deep_ind kv.2) (go l')
            end) o)
  end.
End value_rect.

(** ** Vocabulary of the statements about the rule composer *)

(** The two assignments that end [getInlineToolsConfig]. *)
Definition forceLineBreaks (config : props) : props :=
  setProp (setProp config "br" (VBool true)) "wbr" (VBool true).

(** Both line-break tags are present and allowed. *)
Definition allowsLineBreaks (config : props) : Prop :=
  lookupProp "br" config = Some (VBool true)
  /\ lookupProp "wbr" config = Some (VBool true).

Section Vocabulary.

Variable sanitizeHTML : string -> value -> string.
Variable Tools : ToolsRegistry.

(** The rules of the inline tools named in [names], merged onto [config]
    in the order of the list. *)
Fixpoint namedInline (config : props) (names : list value) : option props :=
  match names with
  | [] => Some config
  | VString n :: names' =>
      inlineTool ← getProp (VObject (inline Tools)) n;
      config' ← mergeInline Tools config inlineTool;
      namedInline config' names'
  | _ => None
  end.

(** The registry lookups that go with it. *)
Definition inlineQueries (names : list value) : list query :=
  omap (fun name => match name with VString n => Some (QInline n) | _ => None end) names.

(** The tool declares rules of its own: the early return of
    [composeToolConfig] is not taken. *)
Definition declaresRules (toolClass : value) : bool :=
  match getProp toolClass "sanitize", getProp toolClass (SANITIZE_CONFIG Tools) with
  | Some sanitize, Some declared =>
      negb (negb (truthy sanitize) || (truthy declared && isEmpty declared))
  | _, _ => false
  end.

(** The aggregate cache, when filled, holds the merged rules of all inline
    tools, with or without the forced line breaks. *)
Definition cacheInv (st : state) : Prop :=
  forall l, inlineToolsConfigCache st = Some l ->
    exists U p, allInline Tools = Some U /\ heap st !! l = Some p
                /\ forceLineBreaks p = forceLineBreaks U.

(** What any operation of the module may do to the rule-set objects and to
    the aggregate cache: an existing object is left alone, unless it is the
    cached aggregate, which may get the line breaks forced in; the cache,
    once filled, keeps its object; a cache filled on the way holds the
    merged rules of all inline tools. *)
Definition evolves (st st' : state) : Prop :=
  (forall l p, heap st !! l = Some p ->
     heap st' !! l = Some p
     \/ (inlineToolsConfigCache st' = Some l /\ heap st' !! l = Some (forceLineBreaks p)))
  /\ (forall l, inlineToolsConfigCache st = Some l -> inlineToolsConfigCache st' = Some l)
  /\ (inlineToolsConfigCache st = None ->
      forall l, inlineToolsConfigCache st' = Some l ->
        exists U, allInline Tools = Some U
                  /\ (heap st' !! l = Some U \/ heap st' !! l = Some (forceLineBreaks U))).

(** The public operations that touch the state of the module. *)
Inductive operation : Type :=
| OComposeToolConfig (toolName : string)
| OGetInlineToolsConfig (name : string)
| OGetAllInlineToolsConfig
| OSanitizeBlocks (blocksData : list loc).

Definition perform (o : operation) (st : state) : option state :=
  match o with
  | OComposeToolConfig toolName => snd <$> composeToolConfig Tools toolName st
  | OGetInlineToolsConfig name => snd <$> getInlineToolsConfig Tools name st
  | OGetAllInlineToolsConfig => snd <$> getAllInlineToolsConfig Tools st
  | OSanitizeBlocks blocksData => snd <$> sanitizeBlocks sanitizeHTML Tools blocksData st
  end.

Fixpoint performAll (os : list operation) (st : state) : option state :=
  match os with
  | [] => Some st
  | o :: os' => st' ← perform o st; performAll os' st'
  end.

End Vocabulary.

(** The union of rule sets taken in the order of the list: [k] has the
    entry that the last rule set with an entry of that name gives it, so
    that a later rule set overrides the ones before it where they
    conflict. *)
Fixpoint unionInOrder (ruleSets : list value) (k : string) : option value :=
  match ruleSets with
  | [] => None
  | ruleSet :: later =>
      match unionInOrder later k with
      | Some v => Some v
      | None => lookupProp k (ownEntries ruleSet)
      end
  end.

(** The rule sets of the registered inline tools have distinct property
    names, as every JavaScript object has. *)
Definition inlineRulesDistinct (Tools : ToolsRegistry) : bool :=
  forallb (fun tool : string * value =>
             match getProp tool.2 (SANITIZE_CONFIG Tools) with
             | Some ruleSet => bool_decide (NoDup (keys (ownEntries ruleSet)))
             | None => true
             end)
          (inline Tools).

(** The rule set that the registry has for an inline tool given by name. *)
Definition ruleSetOf (Tools : ToolsRegistry) (name ruleSet : value) : Prop :=
  exists (n : string) (inlineTool : value),
    name = VString n
    /\ lookupProp n (inline Tools) = Some inlineTool
    /\ getProp inlineTool (SANITIZE_CONFIG Tools) = Some ruleSet.

(** What the loop of [composeToolConfig] stores for a declared rule. *)
Definition mergeRule (baseConfig : props) (rule : value) : value :=
  if jstype_eqb (typeof rule) TObject
  then VObject (assign (assign [] (VObject baseConfig)) rule)
  else rule.

(** Every rule-set object has distinct property names. *)
Definition objectsWf (st : state) : Prop :=
  Forall (fun o : props => NoDup (keys o)) (heap st).

(** ** Vocabulary of the further statements about the tree sanitizer *)

(** Property names are distinct within every object of the value, as they
    are in any JavaScript value. *)
Fixpoint distinctNames (v : value) : bool :=
  match v with
  | VArray items => forallb distinctNames items
  | VObject o =>
      bool_decide (NoDup (keys o)) && forallb (fun kv => distinctNames kv.2) o
  | _ => true
  end.

(** The string leaves of a value, in the order of enumeration. *)
Fixpoint strings (v : value) : list string :=
  match v with
  | VString s => [s]
  | VArray items => concat (map strings items)
  | VObject o => concat (map (fun kv => strings kv.2) o)
  | _ => []
  end.

(** The value with [f] applied to every string leaf and every [null]
    replaced by an empty object. *)
Fixpoint mapLeaves (f : string -> string) (v : value) : value :=
  match v with
  | VString s => VString (f s)
  | VNull => VObject []
  | VArray items => VArray (map (mapLeaves f) items)
  | VObject o => VObject (map (fun kv => (kv.1, mapLeaves f kv.2)) o)
  | _ => v
  end.

(** The names of all fields of all objects inside a value. *)
Fixpoint fieldNames (v : value) : list string :=
  match v with
  | VArray items => concat (map fieldNames items)
  | VObject o => concat (map (fun kv => kv.1 :: fieldNames kv.2) o)
  | _ => []
  end.

(** What [cleanOneItem] makes of a string under a rule, and the calls of
    the cleaner it takes. *)
Definition cleanedBy (sanitizeHTML : string -> value -> string)
    (rule : value) (s : string) : string :=
  match cleanOneItem sanitizeHTML s rule with
  | Some (s', _) => s'
  | None => s
  end.

Definition callsFor (sanitizeHTML : string -> value -> string)
    (rule : value) (s : string) : list call :=
  match cleanOneItem sanitizeHTML s rule with
  | Some (_, c) => c
  | None => []
  end.

(** The names that every plain object, and every boolean, inherits from
    [Object.prototype].  The embedding reads and writes own properties
    only; away from these names, that is what [o[name]] and
    [o[name] = v] do on a plain object. *)
Definition objectPrototypeNames : list string :=
  ["constructor"; "__proto__"; "hasOwnProperty"; "isPrototypeOf";
   "propertyIsEnumerable"; "toLocaleString"; "toString"; "valueOf";
   "__defineGetter__"; "__defineSetter__"; "__lookupGetter__"; "__lookupSetter__"].

Definition ordinaryName (k : string) : bool :=
  bool_decide (k ∉ objectPrototypeNames).

(** No field of the data bears an inherited name. *)
Definition ordinaryNames (d : value) : bool :=
  forallb ordinaryName (fieldNames d).

(** Rules made of plain objects: no array and no function anywhere in
    them.  Numbers and strings may be entries; [isRule] never picks them as
    the rule of a field. *)
Fixpoint plainRules (rules : value) : bool :=
  match rules with
  | VArray _ | VFunction _ => false
  | VObject o => forallb (fun kv => plainRules kv.2) o
  | _ => true
  end.

(** The two caches point to objects that exist, and no composed
    configuration in [configCache] is the cached aggregate. *)
Definition cachesSound (st : state) : Prop :=
  (forall n l, configCache st !! n = Some l ->
     l < length (heap st) /\ inlineToolsConfigCache st <> Some l)
  /\ (forall c, inlineToolsConfigCache st = Some c -> c < length (heap st)).

(** ** Concrete collaborators used in the examples *)

(** A stand-in for the HTML cleaner that makes its calls visible. *)
Definition markCleaned (s : string) (config : value) : string :=
  String.append "cleaned:" s.

(** A small registry: two inline tools and four block tools.
    - [paragraph] declares rules for its field [text] and enables every
      inline tool;
    - [header] declares that [text] may not contain line breaks and enables
      the inline tool [bold] only;
    - [raw] declares nothing and enables no inline tool;
    - [code] declares [true], which has no fields. *)
Definition exampleTools : ToolsRegistry := {|
  SANITIZE_CONFIG := "sanitize";
  available :=
    [("paragraph", VObject [("sanitize", VObject [("text", VObject [("a", VBool true)])])]);
     ("header", VObject [("sanitize", VObject [("text", VObject [("br", VBool false)])])]);
     ("raw", VObject []);
     ("code", VObject [("sanitize", VBool true)])];
  inline :=
    [("link", VObject [("sanitize", VObject [("a", VObject [("href", VBool true)])])]);
     ("bold", VObject [("sanitize", VObject [("b", VBool true)])])];
  getToolSettings := fun name =>
    if String.eqb name "paragraph" then Some (VObject [("inlineToolbar", VBool true)])
    else if String.eqb name "header"
         then Some (VObject [("inlineToolbar", VArray [VString "bold"])])
         else Some (VObject [])
|}.

Definition exampleBlocks : list Block :=
  [ {| tool := "paragraph"; data := VObject [("text", VString "<i>Hello</i>")] |};
    {| tool := "code"; data := VObject [("code", VString "<b>x</b>")] |} ].

(** Runs of the module on the example registry, evaluated once. *)
Definition paragraphComposed : option (loc * state) :=
  Eval vm_compute in composeToolConfig exampleTools "paragraph" (init []).


Definition rawComposed : option (loc * state) :=
  Eval vm_compute in composeToolConfig exampleTools "raw" (init []).

Definition rawComposedAgain : option (loc * state) :=
  Eval vm_compute in
    (r ← composeToolConfig exampleTools "raw" (init []);
     composeToolConfig exampleTools "raw" r.2).

Definition paragraphComposedAgain : option (loc * state) :=
  Eval vm_compute in
    (r ← composeToolConfig exampleTools "paragraph" (init []);
     composeToolConfig exampleTools "paragraph" r.2).

Definition paragraphInline : option (loc * state) :=
  Eval vm_compute in getInlineToolsConfig exampleTools "paragraph" (init []).

Definition headerInline : option (loc * state) :=
  Eval vm_compute in getInlineToolsConfig exampleTools "header" (init []).

Definition exampleBatch : option (list loc * state) :=
  Eval vm_compute in
    sanitizeBlocks markCleaned exampleTools [0; 1] (init exampleBlocks).

Definition rawInline : option (loc * state) :=
  Eval vm_compute in getInlineToolsConfig exampleTools "raw" (init []).

Definition paragraphLater : option state :=
  Eval vm_compute in
    (r ← getInlineToolsConfig exampleTools "paragraph" (init []);
     performAll markCleaned exampleTools
       [OComposeToolConfig "header"; OGetInlineToolsConfig "paragraph"] r.2).

Definition paragraphComposedInBatch : option (loc * state) :=
  Eval vm_compute in composeToolConfig exampleTools "paragraph" (init exampleBlocks).

Definition codeComposedInBatch : option (loc * state) :=
  Eval vm_compute in composeToolConfig exampleTools "code" (init exampleBlocks).

(** A cleaner that is idempotent: it drops the angle brackets. *)
Fixpoint dropBrackets (s : string) : string :=
  match s with
  | EmptyString => EmptyString
  | String c s' =>
      if String.eqb (String c EmptyString) "<" || String.eqb (String c EmptyString) ">"
      then dropBrackets s'
      else String c (dropBrackets s')
  end.

Definition dropMarkup (s : string) (config : value) : string := dropBrackets s.

(** A paragraph with a nested list, a number and a flag. *)
Definition exampleData : value :=
  VObject [("text", VString "<i>Hello</i>");
           ("items", VArray [VString "<b>one</b>"; VString "two"]);
           ("level", VNumber 2);
           ("checked", VBool true)].

(** A second registry, with plain field rules, two inline tools that both
    have a word on [b], and settings that make [getInlineToolsConfig]
    throw: [gallery] names an inline tool that is not registered, [list]
    gives a string where a list is expected, and a tool without settings
    gets [undefined].  [poem] names the two inline tools in the order
    opposite to that of the registry, [verse] enables them all. *)
Definition otherTools : ToolsRegistry := {|
  SANITIZE_CONFIG := "sanitize";
  available :=
    [("quote", VObject [("sanitize",
                         VObject [("text", VBool false); ("caption", VBool true)])]);
     ("gallery", VObject []);
     ("list", VObject [])];
  inline :=
    [("bold", VObject [("sanitize", VObject [("b", VBool true)])]);
     ("italic", VObject [("sanitize", VObject [("i", VBool true); ("b", VBool false)])])];
  getToolSettings := fun name =>
    if String.eqb name "quote" then Some (VObject [("inlineToolbar", VBool false)])
    else if String.eqb name "poem"
    then Some (VObject [("inlineToolbar", VArray [VString "italic"; VString "bold"])])
    else if String.eqb name "verse" then Some (VObject [("inlineToolbar", VBool true)])
    else if String.eqb name "gallery"
         then Some (VObject [("inlineToolbar", VArray [VString "bold"; VString "ghost"])])
         else if String.eqb name "list"
              then Some (VObject [("inlineToolbar", VString "bold")])
              else Some VUndefined
|}.

Definition quoteComposed : option (loc * state) :=
  Eval vm_compute in composeToolConfig otherTools "quote" (init []).

Definition aggregateComputed : option (loc * state) :=
  Eval vm_compute in getAllInlineToolsConfig exampleTools (init []).

Definition sessionStart : option state :=
  Eval vm_compute in
    performAll markCleaned exampleTools [OComposeToolConfig "paragraph"] (init []).

Definition sessionLater : option state :=
  Eval vm_compute in
    (st ← performAll markCleaned exampleTools [OComposeToolConfig "paragraph"] (init []);
     performAll markCleaned exampleTools
       [OGetInlineToolsConfig "paragraph"; OComposeToolConfig "header"] st).

Definition rawBlocks : list Block :=
  [ {| tool := "raw"; data := exampleData |};
    {| tool := "ghost"; data := VString "x" |} ].

Definition firstOfBatch : option (list loc * state) :=
  Eval vm_compute in sanitizeBlocks markCleaned exampleTools [0] (init exampleBlocks).

Definition poemInline : option (loc * state) :=
  Eval vm_compute in getInlineToolsConfig otherTools "poem" (init []).

Definition verseInline : option (loc * state) :=
  Eval vm_compute in getInlineToolsConfig otherTools "verse" (init []).

(** * Facts about property lists *)

Lemma setProp_fresh (o : props) (k : string) (v : value) :
  k ∉ keys o -> setProp o k v = o ++ [(k, v)].
Proof.
  induction o as [|[k' v'] o IH]; simpl; [done|].
  intros Hk. apply not_elem_of_cons in Hk as [Hne Hk].
  destruct (String.eqb_spec k k') as [->|_]; [done|].
  by rewrite IH.
Qed.

Lemma lookupProp_setProp_eq (o : props) (k : string) (v : value) :
  lookupProp k (setProp o k v) = Some v.
Proof.
  induction o as [|[k' v'] o IH]; simpl.
  - by rewrite String.eqb_refl.
  - destruct (String.eqb_spec k k') as [->|Hne]; simpl.
    + by rewrite String.eqb_refl.
    + by destruct (String.eqb_spec k k').
Qed.

Lemma lookupProp_setProp_ne (o : props) (k k' : string) (v : value) :
  k <> k' -> lookupProp k' (setProp o k v) = lookupProp k' o.
Proof.
  intros Hne. induction o as [|[k0 v0] o IH]; simpl.
  - by destruct (String.eqb_spec k' k) as [->|_].
  - destruct (String.eqb_spec k k0) as [->|Hk]; simpl.
    + by destruct (String.eqb_spec k' k0) as [->|_].
    + by rewrite IH.
Qed.

Lemma keys_setProp_in (o : props) (k : string) (v : value) :
  k ∈ keys o -> keys (setProp o k v) = keys o.
Proof.
  induction o as [|[k' v'] o IH]; simpl; intros Hk.
  - by apply elem_of_nil in Hk.
  - destruct (String.eqb_spec k k') as [->|Hne]; simpl; [done|].
    apply elem_of_cons in Hk as [?|Hk]; [done|]. by rewrite IH.
Qed.

Lemma lookupProp_elem_of (o : props) (k : string) (v : value) :
  NoDup (keys o) -> (k, v) ∈ o -> lookupProp k o = Some v.
Proof.
  induction o as [|[k' v'] o IH]; simpl; intros Hnd Hin.
  - by apply elem_of_nil in Hin.
  - apply NoDup_cons in Hnd as [Hk' Hnd].
    apply elem_of_cons in Hin as [[= -> ->]|Hin].
    + by rewrite String.eqb_refl.
    + destruct (String.eqb_spec k k') as [->|_]; [|by apply IH].
      exfalso. apply Hk'. apply list_elem_of_fmap. by exists (k', v).
Qed.

Lemma lookupProp_Some_elem_of (o : props) (k : string) (v : value) :
  lookupProp k o = Some v -> (k, v) ∈ o.
Proof.
  induction o as [|[k' v'] o IH]; simpl; [done|].
  destruct (String.eqb_spec k k') as [->|_].
  - intros [= ->]. apply elem_of_cons; by left.
  - intros H. apply elem_of_cons; right; by apply IH.
Qed.

Lemma lookupProp_None (o : props) (k : string) :
  lookupProp k o = None <-> k ∉ keys o.
Proof.
  induction o as [|[k' v'] o IH]; simpl.
  - split; [intros _; apply not_elem_of_nil|done].
  - destruct (String.eqb_spec k k') as [->|Hne].
    + split; [done|]. intros H; exfalso; apply H, elem_of_cons; by left.
    + rewrite IH, not_elem_of_cons. tauto.
Qed.

(** Writing properties with distinct new names one after the other appends
    them in order. *)
Lemma setProp_all_fresh (acc l : props) :
  NoDup (keys l) ->
  (forall k, k ∈ keys acc -> k ∉ keys l) ->
  foldl (fun o kv => setProp o kv.1 kv.2) acc l = acc ++ l.
Proof.
  revert acc. induction l as [|[k v] l IH]; intros acc Hnd Hdisj; simpl.
  - by rewrite app_nil_r.
  - apply NoDup_cons in Hnd as [Hk Hnd].
    rewrite setProp_fresh.
    + rewrite IH; [by rewrite <- app_assoc|done|].
      intros k0 Hk0. unfold keys in Hk0. rewrite fmap_app in Hk0.
      apply elem_of_app in Hk0 as [Hk0|Hk0].
      * specialize (Hdisj k0 Hk0). simpl in Hdisj.
        by apply not_elem_of_cons in Hdisj as [_ ?].
      * simpl in Hk0. apply list_elem_of_singleton in Hk0 as ->. done.
    + intros Hin. apply (Hdisj k Hin). simpl. apply elem_of_cons; by left.
Qed.

(** * The tree sanitizer *)

Lemma bindM_inv {A B} (m : M A) (f : A -> M B) (b : B) (c : list call) :
  bind m f = Some (b, c) ->
  exists a c1 c2, m = Some (a, c1) /\ f a = Some (b, c2) /\ c = c1 ++ c2.
Proof.
  simpl. unfold bindM. destruct m as [[a c1]|]; [|done].
  destruct (f a) as [[b' c2]|] eqn:Hf; [|done].
  intros [= <- <-]. by exists a, c1, c2.
Qed.

Lemma liftM_inv {A} (o : option A) (a : A) (c : list call) :
  liftM o = Some (a, c) -> o = Some a /\ c = [].
Proof. destruct o; simpl; [|done]. by intros [= -> <-]. Qed.

Section TreeSanitizerFacts.

Variable sanitizeHTML : string -> value -> string.

(** The match in [deepSanitize] is the cascade of the source:
    [Array.isArray], then [typeof === 'object'], then
    [typeof === 'string']. *)
Lemma deepSanitize_dispatch (dataToSanitize rules : value) :
  deepSanitize sanitizeHTML dataToSanitize rules =
    if isArray dataToSanitize then
      match dataToSanitize with
      | VArray array => do a <- cleanArray (deepSanitize sanitizeHTML) rules array; ret (VArray a)
      | _ => None
      end
    else if jstype_eqb (typeof dataToSanitize) TObject then
      cleanObject (deepSanitize sanitizeHTML) (ownEntries dataToSanitize) rules
    else if jstype_eqb (typeof dataToSanitize) TString then
      match dataToSanitize with
      | VString s => do s' <- cleanOneItem sanitizeHTML s rules; ret (VString s')
      | _ => None
      end
    else ret dataToSanitize.
Proof. by destruct dataToSanitize. Qed.

(** Everything that is neither a string nor an object comes back as it
    is, and the cleaner is not called. *)
Lemma deepSanitize_otherPrimitive (v rules : value) :
  otherPrimitive v = true -> deepSanitize sanitizeHTML v rules = Some (v, []).
Proof. by destruct v. Qed.

End TreeSanitizerFacts.

(** The two loops, for any function in the place of the recursive call. *)
Section Loops.

Variable DS : value -> value -> M value.

Lemma cleanArray_inv (rule : value) (array out : list value) (c : list call) :
  cleanArray DS rule array = Some (out, c) ->
  Forall2 (fun x x' => exists cx, DS x rule = Some (x', cx) /\ cx ⊆ c)
          array out.
Proof.
  revert out c. induction array as [|x array IH]; intros out c; simpl.
  - intros [= <- <-]. constructor.
  - intros H. apply bindM_inv in H as (x' & c1 & c2 & Hx & H & ->).
    apply bindM_inv in H as (rest' & c3 & c4 & Hrest & H & ->).
    injection H as <- <-.
    constructor.
    + exists c1. split; [done|]. set_solver.
    + eapply Forall2_impl; [by apply IH|].
      intros y y' (cy & Hy & Hsub). exists cy. split; [done|]. set_solver.
Qed.

(** What the loop of [cleanObject] does with each field: it looks the
    field name up in [rules], sanitizes the field with that entry when
    the entry is rule-shaped and with [rules] itself otherwise, and
    writes the result under the same name. *)
Lemma cleanFields_inv (rules : value) (object cleanData out : props) (c : list call) :
  cleanFields DS rules object cleanData = Some (out, c) ->
  exists cleaned,
    Forall2 (fun kv kv' =>
               kv.1 = kv'.1 /\
               exists r cx,
                 getProp rules kv.1 = Some r /\
                 DS kv.2 (if isRule r then r else rules) = Some (kv'.2, cx) /\
                 cx ⊆ c)
            object cleaned
    /\ out = foldl (fun o kv => setProp o kv.1 kv.2) cleanData cleaned.
Proof.
  revert cleanData out c.
  induction object as [|[k v] object IH]; intros cleanData out c; simpl.
  - intros [= <- <-]. exists []. split; [constructor|done].
  - intros H. apply bindM_inv in H as (r & c1 & c2 & Hr & H & ->).
    apply liftM_inv in Hr as [Hr ->].
    apply bindM_inv in H as (v' & c3 & c4 & Hv & H & ->).
    apply IH in H as (cleaned & Hall & ->).
    exists ((k, v') :: cleaned). split; [|done].
    constructor.
    + split; [done|]. exists r, c3. split; [done|]. split; [done|]. set_solver.
    + eapply Forall2_impl; [exact Hall|].
      intros kv kv' (Hk & r' & cx & ? & ? & ?).
      split; [done|]. exists r', cx. split; [done|]. split; [done|]. set_solver.
Qed.

(** An object with distinct property names is cleaned field by field,
    names and order kept. *)
Lemma cleanObject_inv (rules : value) (object : props) (out : value) (c : list call) :
  NoDup (keys object) ->
  cleanObject DS object rules = Some (out, c) ->
  exists cleaned,
    out = VObject cleaned /\
    Forall2 (fun kv kv' =>
               kv.1 = kv'.1 /\
               exists r cx,
                 getProp rules kv.1 = Some r /\
                 DS kv.2 (if isRule r then r else rules) = Some (kv'.2, cx) /\
                 cx ⊆ c)
            object cleaned.
Proof.
  intros Hnd H. unfold cleanObject in H.
  apply bindM_inv in H as (cleanData & c1 & c2 & H & Hret & ->).
  injection Hret as <- <-. rewrite app_nil_r.
  apply cleanFields_inv in H as (cleaned & Hall & ->).
  exists cleaned. split; [|done].
  rewrite setProp_all_fresh; [done| |intros k Hk; by apply elem_of_nil in Hk].
  assert (keys object = keys cleaned) as <-; [|done].
  clear -Hall. induction Hall as [|[??] [??] ?? [Hk _]]; simpl in *; congruence.
Qed.

Lemma cleanObject_field (rules : value) (object : props) (out : value)
    (c : list call) (fieldName : string) (item : value) :
  NoDup (keys object) ->
  (fieldName, item) ∈ object ->
  cleanObject DS object rules = Some (out, c) ->
  exists r item' cx,
    getProp rules fieldName = Some r /\
    DS item (if isRule r then r else rules) = Some (item', cx) /\
    cx ⊆ c /\
    getProp out fieldName = Some item'.
Proof.
  intros Hnd Hin H.
  destruct (cleanObject_inv _ _ _ _ Hnd H) as (cleaned & -> & Hall).
  assert (NoDup (keys cleaned)) as Hnd'.
  { replace (keys cleaned) with (keys object); [done|].
    clear -Hall. induction Hall as [|[??] [??] ?? [Hk _]]; simpl in *; congruence. }
  assert (exists kv', kv' ∈ cleaned /\ fieldName = kv'.1 /\
            exists r cx, getProp rules fieldName = Some r /\
              DS item (if isRule r then r else rules) = Some (kv'.2, cx) /\
              cx ⊆ c) as ([k' item'] & Hin' & Hk & r & cx & Hr & Hds & Hsub).
  { clear -Hall Hin. induction Hall as [|kv kv' o o' Hhd Htl IH].
    - by apply elem_of_nil in Hin.
    - apply elem_of_cons in Hin as [<-|Hin].
      + exists kv'. split; [apply elem_of_cons; by left|]. simpl in Hhd. exact Hhd.
      + destruct (IH Hin) as (kv0 & ? & ?). exists kv0.
        split; [apply elem_of_cons; by right|done]. }
  simpl in Hk. subst k'.
  exists r, item', cx. repeat split; try done.
  simpl. by rewrite (lookupProp_elem_of _ _ _ Hnd' Hin').
Qed.

End Loops.

(** * Shape and totality of [deepSanitize] *)

Section Shape.

Variable sanitizeHTML : string -> value -> string.

Lemma cleanOneItem_total (s : string) (rule : value) :
  exists s' c, cleanOneItem sanitizeHTML s rule = Some (s', c).
Proof.
  unfold cleanOneItem. destruct (jstype_eqb (typeof rule) TObject).
  - unfold clean. eauto.
  - destruct rule as [| |[|]| | | | |]; unfold clean; simpl; eauto.
Qed.

(** On data without [null] leaves a successful run changes nothing but the
    contents of string leaves. *)
Lemma deepSanitize_sameShape (d : value) :
  forall rules out c,
    nullFree d = true ->
    deepSanitize sanitizeHTML d rules = Some (out, c) ->
    sameShape d out.
Proof.
  induction d as [| | | | | |items IH|o IH] using value_deep_ind;
    intros rules out c Hnf H.
  - injection H as <- <-. by apply shape_leaf.
  - done.
  - injection H as <- <-. by apply shape_leaf.
  - injection H as <- <-. by apply shape_leaf.
  - simpl in H. apply bindM_inv in H as (s' & c1 & c2 & _ & H & _).
    injection H as <- _. apply shape_string.
  - injection H as <- <-. by apply shape_leaf.
  - simpl in H. apply bindM_inv in H as (a & c1 & c2 & Ha & H & _).
    injection H as <- _. apply shape_array.
    apply cleanArray_inv in Ha. simpl in Hnf.
    rewrite forallb_forall in Hnf.
    revert IH Hnf. clear -Ha. induction Ha as [|x x' l l' (cx & Hx & _) _ IHl];
      intros IH Hnf; [constructor|].
    apply Forall_cons in IH as [IHx IH].
    constructor.
    + eapply IHx; [|exact Hx]. apply Hnf. by left.
    + apply IHl; [done|]. intros y Hy. apply Hnf. by right.
  - simpl in Hnf. apply andb_true_iff in Hnf as [Hnd Hnf].
    apply bool_decide_eq_true in Hnd.
    change (cleanObject (deepSanitize sanitizeHTML) o rules = Some (out, c)) in H.
    destruct (cleanObject_inv _ _ _ _ _ Hnd H) as (cleaned & -> & Hall).
    apply shape_object.
    rewrite forallb_forall in Hnf.
    revert IH Hnf. clear -Hall.
    induction Hall as [|kv kv' l l' (Hk & r & cx & _ & Hx & _) _ IHl];
      intros IH Hnf; [constructor|].
    apply Forall_cons in IH as [IHx IH].
    constructor.
    + split; [done|]. eapply IHx; [|exact Hx].
      apply (Hnf kv). by left.
    + apply IHl; [done|]. intros y Hy. apply Hnf. by right.
Qed.

End Shape.

(** ** When [deepSanitize] returns *)

Lemma lookupProp_indexed {A} (f : A -> value) (i : nat) (l : list A) (k : string) (r : value) :
  lookupProp k (indexed f i l) = Some r -> exists x, In x l /\ r = f x.
Proof.
  revert i. induction l as [|x l IH]; intros i; simpl; [done|].
  destruct (String.eqb k (pretty i)).
  - intros [= <-]. exists x. by split; [left|].
  - intros H. destruct (IH _ H) as (y & ? & ?). exists y. by split; [right|].
Qed.

Lemma getProp_defined (v : value) (k : string) :
  jstype_eqb (typeof v) TUndefined = false -> v <> VNull ->
  exists r, getProp v k = Some r.
Proof.
  destruct v; simpl; try done; intros _ _; eauto;
    destruct (String.eqb k "length"); eauto.
Qed.

(** A property of a value without [null] inside is again without [null]. *)
Lemma getProp_nullFree (v r : value) (k : string) :
  nullFree v = true -> getProp v k = Some r -> nullFree r = true.
Proof.
  intros Hnf. destruct v as [| | | |s| |items|o]; simpl; try done;
    try (by intros [= <-]).
  - destruct (String.eqb k "length"); [by intros [= <-]|].
    destruct (lookupProp k _) as [r'|] eqn:Hl; simpl; intros [= <-]; [|done].
    by apply lookupProp_indexed in Hl as (x & _ & ->).
  - destruct (String.eqb k "length"); [by intros [= <-]|].
    destruct (lookupProp k _) as [r'|] eqn:Hl; simpl; intros [= <-]; [|done].
    apply lookupProp_indexed in Hl as (x & Hx & ->).
    simpl in Hnf. rewrite forallb_forall in Hnf. by apply Hnf.
  - destruct (lookupProp k o) as [r'|] eqn:Hl; simpl; intros [= <-]; [|done].
    simpl in Hnf. apply andb_true_iff in Hnf as [_ Hnf].
    rewrite forallb_forall in Hnf.
    apply lookupProp_Some_elem_of, list_elem_of_In in Hl. by apply (Hnf _ Hl).
Qed.

Section Totality.

Variable sanitizeHTML : string -> value -> string.

(** [deepSanitize] throws only when it reads a field name off a rule that
    is [undefined] or [null].  With rules that are defined and hold no
    [null], it returns for every data value. *)
Lemma deepSanitize_total (d : value) :
  forall rules,
    nullFree rules = true ->
    jstype_eqb (typeof rules) TUndefined = false ->
    exists out c, deepSanitize sanitizeHTML d rules = Some (out, c).
Proof.
  induction d as [| | | | | |items IH|o IH] using value_deep_ind;
    intros rules Hnf Hdef; try (by eexists _, _).
  - simpl. destruct (cleanOneItem_total sanitizeHTML s rules) as (s' & c & ->).
    simpl. eauto.
  - assert (exists a c, cleanArray (deepSanitize sanitizeHTML) rules items = Some (a, c))
      as (a & c & Ha).
    { induction IH as [|x l Hx _ IHl]; simpl; [by eexists _, _|].
      destruct (Hx rules Hnf Hdef) as (x' & cx & ->).
      destruct IHl as (l' & cl & ->). simpl. eauto. }
    simpl. rewrite Ha. simpl. eauto.
  - assert (forall cleanData, exists out c,
               cleanFields (deepSanitize sanitizeHTML) rules o cleanData = Some (out, c))
      as Hloop.
    { induction IH as [|[k v] l Hx _ IHl]; intros cleanData; simpl;
        [by eexists _, _|].
      destruct (getProp_defined rules k Hdef) as (r & Hr); [by destruct rules|].
      rewrite Hr. simpl.
      assert (exists v' cv,
                 deepSanitize sanitizeHTML v (if isRule r then r else rules)
                 = Some (v', cv)) as (v' & cv & ->).
      { apply Hx; destruct (isRule r) eqn:Hrule; try done.
        - by apply (getProp_nullFree rules r k).
        - by destruct r. }
      simpl. destruct (IHl (setProp cleanData k v')) as (out & c & ->). eauto. }
    destruct (Hloop []) as (out & c & Hout).
    simpl. unfold cleanObject. rewrite Hout. simpl. eauto.
Qed.

End Totality.

(** * Claims about the tree sanitizer *)

Section TreeClaims.

Variable sanitizeHTML : string -> value -> string.

(** C1.  The specification has [deepSanitize] return a [null] input
    unchanged.  The code sends [null] down the object branch, because
    [typeof null === 'object'], and returns a fresh empty object, whatever
    the rules are.  (Numbers, booleans and [undefined] do come back
    unchanged without a call of the cleaner: [deepSanitize_otherPrimitive].) *)
Theorem deepSanitize_null_is_empty_object (rules : value) :
  deepSanitize sanitizeHTML VNull rules = Some (VObject [], [])
  /\ VObject [] <> VNull.
Proof. by split. Qed.

(** C5.  The specification has only string leaves differ between input
    and output.  A [null] element of a sequence comes back as an empty
    object, so the output has another shape than the input
    ([deepSanitize_sameShape] is the property on data without [null]). *)
Theorem deepSanitize_null_leaf_changes_shape (rules : value) :
  deepSanitize sanitizeHTML (VArray [VNull]) rules = Some (VArray [VObject []], [])
  /\ ~ sameShape (VArray [VNull]) (VArray [VObject []]).
Proof.
  split; [done|].
  intros H. inversion H as [| |l l' Hall|]; subst.
  apply Forall2_cons in Hall as [Hnull _]. inversion Hnull.
Qed.

(** C7.  A field whose entry in the rules is not rule-shaped (a number, a
    string, [undefined]) is sanitized with the rules of the enclosing
    object: the cleaned field is what [deepSanitize] returns for the field's
    value under the parent rules. *)
Theorem non_rule_entry_falls_back_to_parent
    (object : props) (rules : value) (fieldName : string) (item r out : value)
    (calls : list call) :
  NoDup (keys object) ->
  (fieldName, item) ∈ object ->
  getProp rules fieldName = Some r ->
  isRule r = false ->
  deepSanitize sanitizeHTML (VObject object) rules = Some (out, calls) ->
  exists item' c,
    deepSanitize sanitizeHTML item rules = Some (item', c)
    /\ c ⊆ calls
    /\ getProp out fieldName = Some item'.
Proof.
  intros Hnd Hin Hr Hrule H.
  change (cleanObject (deepSanitize sanitizeHTML) object rules = Some (out, calls)) in H.
  destruct (cleanObject_field _ _ _ _ _ _ _ Hnd Hin H)
    as (r' & item' & cx & Hr' & Hds & Hsub & Hout).
  rewrite Hr in Hr'. injection Hr' as <-. rewrite Hrule in Hds.
  by exists item', cx.
Qed.

(** C10.  [isRule] accepts [null].  A string field whose entry in the rules
    is [null] is therefore cleaned under that entry: the cleaner is called
    on the string with [null] as its configuration, and the parent rules
    are not used. *)
Theorem null_entry_is_used_as_rule :
  isRule VNull = true
  /\ (forall (fieldName s : string) (rules : value),
        getProp rules fieldName = Some VNull ->
        deepSanitize sanitizeHTML (VObject [(fieldName, VString s)]) rules
        = Some (VObject [(fieldName, VString (sanitizeHTML s VNull))], [(s, VNull)]))
  /\ (forall (object : props) (rules : value) (fieldName s : string) (out : value)
             (calls : list call),
        NoDup (keys object) ->
        (fieldName, VString s) ∈ object ->
        getProp rules fieldName = Some VNull ->
        deepSanitize sanitizeHTML (VObject object) rules = Some (out, calls) ->
        getProp out fieldName = Some (VString (sanitizeHTML s VNull))
        /\ (s, VNull) ∈ calls).
Proof.
  split; [done|]. split.
  - intros fieldName s rules Hr.
    change (deepSanitize sanitizeHTML (VObject [(fieldName, VString s)]) rules)
      with (cleanObject (deepSanitize sanitizeHTML) [(fieldName, VString s)] rules).
    unfold cleanObject, cleanFields. by rewrite Hr.
  - intros object rules fieldName s out calls Hnd Hin Hr H.
    change (cleanObject (deepSanitize sanitizeHTML) object rules = Some (out, calls)) in H.
    destruct (cleanObject_field _ _ _ _ _ _ _ Hnd Hin H)
      as (r' & item' & cx & Hr' & Hds & Hsub & Hout).
    rewrite Hr in Hr'. injection Hr' as <-. simpl in Hds.
    injection Hds as <- <-. split; [done|].
    apply Hsub, elem_of_cons. by left.
Qed.

End TreeClaims.

(** C7 at work: the entry for [level] is the number 1, so the field is
    cleaned under the whole rule set. *)
Lemma non_rule_entry_falls_back_to_parent_witness :
  exists item' c,
    deepSanitize markCleaned (VString "<b>x</b>")
      (VObject [("level", VNumber 1); ("b", VBool true)]) = Some (item', c)
    /\ c ⊆ [("<b>x</b>", VObject [("level", VNumber 1); ("b", VBool true)])]
    /\ getProp (VObject [("level", VString "cleaned:<b>x</b>")]) "level" = Some item'.
Proof.
  apply (non_rule_entry_falls_back_to_parent markCleaned
           [("level", VString "<b>x</b>")]
           (VObject [("level", VNumber 1); ("b", VBool true)])
           "level" (VString "<b>x</b>") (VNumber 1)).
  - apply NoDup_singleton.
  - apply list_elem_of_singleton. reflexivity.
  - reflexivity.
  - reflexivity.
  - reflexivity.
Defined.

(** C10 at work: the entry for [text] is [null]. *)
Lemma null_entry_is_used_as_rule_witness :
  getProp (VObject [("text", VString "cleaned:<i>x</i>")]) "text"
  = Some (VString (markCleaned "<i>x</i>" VNull))
  /\ ("<i>x</i>", VNull) ∈ [("<i>x</i>", VNull)].
Proof.
  apply (proj2 (proj2 (null_entry_is_used_as_rule markCleaned))
           [("text", VString "<i>x</i>")]
           (VObject [("text", VNull)]) "text" "<i>x</i>").
  - apply NoDup_singleton.
  - apply list_elem_of_singleton. reflexivity.
  - reflexivity.
  - reflexivity.
Defined.


(** * Merging rule sets *)

Lemma lookupProp_app (k : string) (o1 o2 : props) :
  lookupProp k (o1 ++ o2) =
    match lookupProp k o1 with Some v => Some v | None => lookupProp k o2 end.
Proof.
  induction o1 as [|[k' v'] o1 IH]; simpl; [done|].
  by destruct (String.eqb k k').
Qed.

(** A run of writes: the last write to a name decides its value, and names
    that are not written keep theirs. *)
Lemma lookupProp_writes (step : props -> string * value -> props) (g : value -> value)
    (l : props) (k : string) :
  (forall o kv, step o kv = setProp o kv.1 (g kv.2)) ->
  forall acc,
    lookupProp k (foldl step acc l) =
      match lookupProp k (reverse l) with
      | Some v => Some (g v)
      | None => lookupProp k acc
      end.
Proof.
  intros Hstep. induction l as [|[k0 v0] l IH]; intros acc; simpl; [done|].
  rewrite IH, Hstep, reverse_cons, lookupProp_app. simpl.
  destruct (lookupProp k (reverse l)); [done|].
  destruct (String.eqb_spec k k0) as [->|Hne].
  - apply lookupProp_setProp_eq.
  - by apply lookupProp_setProp_ne.
Qed.

Lemma keys_reverse (o : props) : keys (reverse o) = reverse (keys o).
Proof. unfold keys. by rewrite fmap_reverse. Qed.

Lemma lookupProp_reverse (o : props) (k : string) :
  NoDup (keys o) -> lookupProp k (reverse o) = lookupProp k o.
Proof.
  intros Hnd. destruct (lookupProp k o) as [v|] eqn:Hl.
  - apply lookupProp_elem_of.
    + by rewrite keys_reverse, reverse_Permutation.
    + apply lookupProp_Some_elem_of in Hl. by apply elem_of_reverse.
  - apply lookupProp_None. apply lookupProp_None in Hl.
    by rewrite keys_reverse, elem_of_reverse.
Qed.

Lemma lookupProp_reverse_None (o : props) (k : string) :
  lookupProp k (reverse o) = None <-> lookupProp k o = None.
Proof. by rewrite !lookupProp_None, keys_reverse, elem_of_reverse. Qed.

(** [Object.assign]: the entries of the source override those of the
    target, the other entries of the target stay. *)
Lemma lookupProp_assign (target : props) (source : value) (k : string) :
  lookupProp k (assign target source) =
    match lookupProp k (reverse (ownEntries source)) with
    | Some v => Some v
    | None => lookupProp k target
    end.
Proof.
  unfold assign. by rewrite (lookupProp_writes _ (fun v => v)).
Qed.

Lemma NoDup_setProp (o : props) (k : string) (v : value) :
  NoDup (keys o) -> NoDup (keys (setProp o k v)).
Proof.
  intros Hnd. destruct (decide (k ∈ keys o)) as [Hin|Hin].
  - by rewrite keys_setProp_in.
  - rewrite setProp_fresh by done. unfold keys. rewrite fmap_app. simpl.
    apply NoDup_app. split; [done|]. split; [|apply NoDup_singleton].
    intros x Hx Hx'. apply list_elem_of_singleton in Hx' as ->. done.
Qed.

Lemma NoDup_writes (step : props -> string * value -> props) (g : value -> value)
    (l : props) :
  (forall o kv, step o kv = setProp o kv.1 (g kv.2)) ->
  forall acc, NoDup (keys acc) -> NoDup (keys (foldl step acc l)).
Proof.
  intros Hstep. induction l as [|kv l IH]; intros acc Hnd; simpl; [done|].
  apply IH. rewrite Hstep. by apply NoDup_setProp.
Qed.

Lemma NoDup_assign (target : props) (source : value) :
  NoDup (keys target) -> NoDup (keys (assign target source)).
Proof. by apply (NoDup_writes _ (fun v => v)). Qed.

Lemma NoDup_forceLineBreaks (config : props) :
  NoDup (keys config) -> NoDup (keys (forceLineBreaks config)).
Proof. intros H. by do 2 apply NoDup_setProp. Qed.

(** Copying an object with distinct property names onto [{}] gives the
    object back. *)
Lemma assign_empty (o : props) :
  NoDup (keys o) -> assign [] (VObject o) = o.
Proof.
  intros Hnd. unfold assign. simpl.
  rewrite setProp_all_fresh; [done|done|].
  intros k Hk. by apply elem_of_nil in Hk.
Qed.

Lemma composeField_setProp (baseConfig toolConfig : props) (field : string * value) :
  composeField baseConfig toolConfig field
  = setProp toolConfig field.1 (mergeRule baseConfig field.2).
Proof.
  destruct field as [fieldName rule]. unfold composeField, mergeRule. simpl.
  by destruct (jstype_eqb (typeof rule) TObject).
Qed.

(** The composed object holds, for each declared field, the merged rule. *)
Lemma lookupProp_composeRules (baseConfig : props) (toolRules rule : value) (f : string) :
  NoDup (keys (ownEntries toolRules)) ->
  lookupProp f (ownEntries toolRules) = Some rule ->
  lookupProp f (composeRules baseConfig toolRules) = Some (mergeRule baseConfig rule).
Proof.
  intros Hnd Hf. unfold composeRules.
  rewrite (lookupProp_writes _ (mergeRule baseConfig))
    by (intros; apply composeField_setProp).
  by rewrite lookupProp_reverse, Hf.
Qed.

Lemma lookupProp_forceLineBreaks_other (config : props) (k : string) :
  k <> "br" -> k <> "wbr" ->
  lookupProp k (forceLineBreaks config) = lookupProp k config.
Proof.
  intros Hbr Hwbr. unfold forceLineBreaks.
  by rewrite !lookupProp_setProp_ne.
Qed.



(** * The rule composer, step by step *)

Section ComposerFacts.

Variable Tools : ToolsRegistry.

Lemma getAllInlineToolsConfig_eq (st : state) :
  getAllInlineToolsConfig Tools st =
    match inlineToolsConfigCache st with
    | Some l => Some (l, st)
    | None =>
        match allInline Tools with
        | Some U =>
            Some (length (heap st),
                  mkState (configCache st) (Some (length (heap st)))
                          (heap st ++ [U]) (blocks st) (queries st ++ [QInlineEntries]))
        | None => None
        end
    end.
Proof.
  unfold getAllInlineToolsConfig. simpl. unfold bindS, gets.
  destruct (inlineToolsConfigCache st); [done|].
  simpl. unfold liftS. destruct (allInline Tools); done.
Qed.

(** The loop over an explicit list of inline tool names fills the object
    [config] with [namedInline] and asks the registry for each name. *)
Lemma forEach_enableInline (config : loc) (names : list value) :
  forall (st : state) (p : props),
    heap st !! config = Some p ->
    forEach (enableInline Tools config) names st =
      match namedInline Tools p names with
      | Some p' =>
          Some (tt, mkState (configCache st) (inlineToolsConfigCache st)
                      (<[config := p']> (heap st)) (blocks st)
                      (queries st ++ inlineQueries names))
      | None => None
      end.
Proof.
  induction names as [|name names IH]; intros st p Hp.
  - cbn [namedInline]. rewrite (list_insert_id _ _ _ Hp).
    unfold inlineQueries; simpl. rewrite app_nil_r. by destruct st.
  - destruct name; try done. simpl.
    unfold bindS, ask, modify, liftS, mergeInline, updObj. simpl.
    destruct (getProp _ (SANITIZE_CONFIG Tools)) as [src|]; simpl; [|done].
    rewrite Hp.
    rewrite (IH _ (assign p src)); simpl.
    + destruct (namedInline Tools (assign p src) names); [|done].
      by rewrite list_insert_insert_eq, <- app_assoc.
    + apply list_lookup_insert_eq. by eapply lookup_lt_Some.
Qed.

Lemma forceLineBreaks_allows (config : props) :
  allowsLineBreaks (forceLineBreaks config).
Proof.
  unfold allowsLineBreaks, forceLineBreaks. split.
  - rewrite lookupProp_setProp_ne by done. apply lookupProp_setProp_eq.
  - apply lookupProp_setProp_eq.
Qed.

Lemma setProp_id (o : props) (k : string) (v : value) :
  lookupProp k o = Some v -> setProp o k v = o.
Proof.
  induction o as [|[k' v'] o IH]; simpl; [done|].
  destruct (String.eqb_spec k k') as [->|Hne].
  - by intros [= ->].
  - intros H. by rewrite IH.
Qed.

(** Forcing the line breaks in twice is forcing them in once. *)
Lemma forceLineBreaks_idem (config : props) :
  forceLineBreaks (forceLineBreaks config) = forceLineBreaks config.
Proof.
  destruct (forceLineBreaks_allows config) as [Hbr Hwbr].
  unfold forceLineBreaks at 1.
  by rewrite (setProp_id _ _ _ Hbr), (setProp_id _ _ _ Hwbr).
Qed.

Lemma bindS_inv {A B} (m : ST A) (f : A -> ST B) (st st' : state) (b : B) :
  bind m f st = Some (b, st') ->
  exists a st1, m st = Some (a, st1) /\ f a st1 = Some (b, st').
Proof.
  simpl. unfold bindS. destruct (m st) as [[a st1]|]; [|done]. eauto.
Qed.

Lemma liftS_inv {A} (o : option A) (st st' : state) (a : A) :
  liftS o st = Some (a, st') -> o = Some a /\ st' = st.
Proof. unfold liftS. destruct o; [|done]. by intros [= -> ->]. Qed.

Lemma updObj_inv (l : loc) (f : props -> props) (st st' : state) (u : unit) :
  updObj l f st = Some (u, st') ->
  exists p, heap st !! l = Some p /\ st' = set_heap (<[l := f p]> (heap st)) st.
Proof.
  unfold updObj. destruct (heap st !! l) as [p|]; [|done].
  intros [= _ <-]. eauto.
Qed.

Ltac inv_bind_fresh H :=
  let a := fresh "a" in
  let st1 := fresh "st" in
  let H1 := fresh "Hstep" in
  apply bindS_inv in H as (a & st1 & H1 & H).

Tactic Notation "inv_bind" hyp(H) := inv_bind_fresh H.

Tactic Notation "inv_bind" hyp(H) "as" ident(a) ident(st1) ident(H1) :=
  apply bindS_inv in H as (a & st1 & H1 & H).

Lemma insert_last {A} (l : list A) (x y : A) :
  <[length l := y]> (l ++ [x]) = l ++ [y].
Proof. induction l as [|z l IH]; simpl; [done|]. by rewrite IH. Qed.

Lemma force_in_place (h : list props) (c : loc) (p p' : props) :
  h !! c = Some p ->
  <[c := setProp p "br" (VBool true)]> h !! c = Some p' ->
  <[c := setProp p' "wbr" (VBool true)]> (<[c := setProp p "br" (VBool true)]> h)
  = <[c := forceLineBreaks p]> h.
Proof.
  intros Hp Hp'.
  rewrite list_lookup_insert_eq in Hp' by (by eapply lookup_lt_Some).
  injection Hp' as <-. by rewrite list_insert_insert_eq.
Qed.

(** [getInlineToolsConfig], case by case. *)
Lemma getInlineToolsConfig_inv (name : string) (st st' : state) (l : loc) :
  getInlineToolsConfig Tools name st = Some (l, st') ->
  exists settings inlineToolbar,
    getToolSettings Tools name = Some settings
    /\ getProp settings "inlineToolbar" = Some inlineToolbar
    /\ configCache st' = configCache st
    /\ blocks st' = blocks st
    /\ if jstype_eqb (typeof inlineToolbar) TBoolean && truthy inlineToolbar then
         match inlineToolsConfigCache st with
         | Some cached =>
             l = cached
             /\ inlineToolsConfigCache st' = Some cached
             /\ queries st' = queries st ++ [QToolSettings name]
             /\ exists p, (heap st ++ [[]]) !! cached = Some p
                  /\ heap st' = <[cached := forceLineBreaks p]> (heap st ++ [[]])
         | None =>
             exists U, allInline Tools = Some U
               /\ l = S (length (heap st))
               /\ inlineToolsConfigCache st' = Some l
               /\ queries st' = queries st ++ [QToolSettings name; QInlineEntries]
               /\ heap st' = heap st ++ [[]; forceLineBreaks U]
         end
       else
         exists names config,
           (if truthy inlineToolbar then inlineToolbar else VArray []) = VArray names
           /\ namedInline Tools [] names = Some config
           /\ l = length (heap st)
           /\ inlineToolsConfigCache st' = inlineToolsConfigCache st
           /\ queries st' = queries st ++ QToolSettings name :: inlineQueries names
           /\ heap st' = heap st ++ [forceLineBreaks config].
Proof.
  unfold getInlineToolsConfig. intros H.
  inv_bind H. injection Hstep as _ <-.
  inv_bind H. apply liftS_inv in Hstep as [Hsettings ->].
  inv_bind H. apply liftS_inv in Hstep as [Htoolbar ->].
  exists a0, a1. split; [done|]. split; [done|].
  inv_bind H. injection Hstep as <- <-.
  inv_bind H. inv_bind H. apply updObj_inv in Hstep0 as (p & Hp & ->).
  inv_bind H. apply updObj_inv in Hstep0 as (p' & Hp' & ->).
  injection H as <- <-. simpl in *.
  assert (jstype_eqb (typeof (if truthy a1 then a1 else VArray [])) TBoolean
          && truthy (if truthy a1 then a1 else VArray [])
          = jstype_eqb (typeof a1) TBoolean && truthy a1) as Hcond.
  { by destruct (truthy a1) eqn:E; rewrite ?E, ?andb_false_r. }
  rewrite Hcond in Hstep. clear Hcond.
  destruct (jstype_eqb (typeof a1) TBoolean && truthy a1).
  - rewrite getAllInlineToolsConfig_eq in Hstep. simpl in Hstep.
    destruct (inlineToolsConfigCache st) as [cached|] eqn:Hcache.
    + injection Hstep as <- <-. simpl in *.
      repeat split; try done.
      exists p. split; [done|]. by apply force_in_place.
    + destruct (allInline Tools) as [U|] eqn:HU; [|done].
      injection Hstep as <- <-. simpl in *.
      split; [done|]. split; [done|].
      exists U. split; [done|].
      split; [rewrite length_app; simpl; lia|]. split; [done|].
      split; [by rewrite <- app_assoc|].
      rewrite (force_in_place _ _ _ _ Hp Hp').
      rewrite list_lookup_middle in Hp by done. injection Hp as <-.
      by rewrite insert_last, <- app_assoc.
  - destruct (if truthy a1 then a1 else VArray []) as [| | | | | |names|] eqn:Henable;
      try done.
    inv_bind Hstep. injection Hstep as <- <-.
    rewrite (forEach_enableInline _ _ _ []) in Hstep0
      by (simpl; apply list_lookup_middle; lia).
    destruct (namedInline Tools [] names) as [config|] eqn:Hnamed; [|done].
    injection Hstep0 as _ <-. simpl in *.
    split; [done|]. split; [done|].
    exists names, config. repeat split; try done.
    + by rewrite <- app_assoc.
    + rewrite (force_in_place _ _ _ _ Hp Hp').
      rewrite list_lookup_insert_eq in Hp
        by (rewrite length_app; simpl; lia).
      injection Hp as <-.
      by rewrite list_insert_insert_eq, insert_last.
Qed.
Lemma composeToolConfig_hit (toolName : string) (st : state) (l : loc) :
  configCache st !! toolName = Some l ->
  composeToolConfig Tools toolName st = Some (l, st).
Proof.
  intros Hhit. unfold composeToolConfig. simpl. unfold bindS, gets.
  by rewrite Hhit.
Qed.

(** [composeToolConfig] on a cache miss. *)
Lemma composeToolConfig_miss (toolName : string) (st st' : state) (l : loc) :
  configCache st !! toolName = None ->
  composeToolConfig Tools toolName st = Some (l, st') ->
  exists toolClass sanitize declared baseConfig stb,
    getProp (VObject (available Tools)) toolName = Some toolClass
    /\ getProp toolClass "sanitize" = Some sanitize
    /\ getProp toolClass (SANITIZE_CONFIG Tools) = Some declared
    /\ getInlineToolsConfig Tools toolName
         (set_queries (queries st ++ [QAvailable toolName]) st)
       = Some (baseConfig, stb)
    /\ if negb (truthy sanitize) || (truthy declared && isEmpty declared) then
         l = baseConfig /\ st' = stb
       else
         exists base,
           heap stb !! baseConfig = Some base
           /\ l = length (heap stb)
           /\ st' = mkState (<[toolName := l]> (configCache stb))
                            (inlineToolsConfigCache stb)
                            (heap stb ++ [composeRules base sanitize])
                            (blocks stb) (queries stb).
Proof.
  intros Hmiss H. unfold composeToolConfig in H.
  inv_bind H. injection Hstep as <- <-. rewrite Hmiss in H.
  inv_bind H. injection Hstep as _ <-.
  inv_bind H as toolClass st1 Hclass. apply liftS_inv in Hclass as [Hclass ->].
  inv_bind H as baseConfig stb Hbase.
  inv_bind H as sanitize st2 Hsanitize. apply liftS_inv in Hsanitize as [Hsanitize ->].
  inv_bind H as declared st3 Hdeclared. apply liftS_inv in Hdeclared as [Hdeclared ->].
  exists toolClass, sanitize, declared, baseConfig, stb. repeat (split; [done|]).
  destruct (negb (truthy sanitize) || truthy declared && isEmpty declared).
  - by injection H as <- <-.
  - inv_bind H as base st4 Hread. unfold readObj in Hread.
    destruct (heap stb !! baseConfig) as [base'|] eqn:Hb; [|done].
    injection Hread as <- <-.
    inv_bind H. injection Hstep as <- <-.
    inv_bind H. injection Hstep as _ <-.
    injection H as <- <-. exists base'. by repeat split.
Qed.

Lemma composeToolConfig_blocks (toolName : string) (st st' : state) (l : loc) :
  composeToolConfig Tools toolName st = Some (l, st') -> blocks st' = blocks st.
Proof.
  intros H. destruct (configCache st !! toolName) as [c|] eqn:Hc.
  - rewrite (composeToolConfig_hit _ _ _ Hc) in H. by injection H as _ <-.
  - destruct (composeToolConfig_miss _ _ _ _ Hc H)
      as (toolClass & sanitize & declared & baseConfig & stb & _ & _ & _ & Hbase & Hres).
    apply getInlineToolsConfig_inv in Hbase as (? & ? & _ & _ & _ & Hblocks & _).
    destruct (negb (truthy sanitize) || truthy declared && isEmpty declared).
    + destruct Hres as [_ ->]. done.
    + destruct Hres as (base & _ & _ & ->). done.
Qed.

(** ** How the operations move the state *)

Lemma evolves_refl (st : state) : evolves Tools st st.
Proof.
  split; [by left|]. split; [done|]. intros Hnone l Hl. congruence.
Qed.

Lemma evolves_trans (st1 st2 st3 : state) :
  evolves Tools st1 st2 -> evolves Tools st2 st3 -> evolves Tools st1 st3.
Proof.
  intros (Hobj1 & Hkeep1 & Hfill1) (Hobj2 & Hkeep2 & Hfill2).
  split; [|split].
  - intros l p Hp. destruct (Hobj1 l p Hp) as [Hp2|[Hc2 Hp2]].
    + apply Hobj2, Hp2.
    + right. split; [by apply Hkeep2|].
      destruct (Hobj2 _ _ Hp2) as [Hp3|[_ Hp3]]; [done|].
      by rewrite forceLineBreaks_idem in Hp3.
  - intros l Hl. by apply Hkeep2, Hkeep1.
  - intros Hnone l Hl.
    destruct (inlineToolsConfigCache st2) as [l2|] eqn:Hc2.
    + assert (l = l2) as <-.
      { specialize (Hkeep2 l2 eq_refl). congruence. }
      destruct (Hfill1 Hnone l eq_refl) as (U & HU & Hcase). exists U. split; [done|].
      destruct Hcase as [Hp2|Hp2]; destruct (Hobj2 _ _ Hp2) as [Hp3|[_ Hp3]];
        rewrite ?forceLineBreaks_idem in Hp3; auto.
    + by apply Hfill2.
Qed.

(** Only the rule-set objects and the aggregate cache matter. *)
Lemma evolves_same (st1 st1' st2 st2' : state) :
  heap st1' = heap st1 -> inlineToolsConfigCache st1' = inlineToolsConfigCache st1 ->
  heap st2' = heap st2 -> inlineToolsConfigCache st2' = inlineToolsConfigCache st2 ->
  evolves Tools st1 st2 -> evolves Tools st1' st2'.
Proof. unfold evolves. by intros -> -> -> ->. Qed.

Lemma evolves_alloc (st st' : state) (new : list props) :
  heap st' = heap st ++ new ->
  inlineToolsConfigCache st' = inlineToolsConfigCache st ->
  evolves Tools st st'.
Proof.
  intros Hheap Hcache. split; [|split].
  - intros l p Hp. left. rewrite Hheap. by apply lookup_app_l_Some.
  - intros l Hl. congruence.
  - intros Hnone l Hl. congruence.
Qed.

Lemma getAllInlineToolsConfig_evolves (st st' : state) (l : loc) :
  getAllInlineToolsConfig Tools st = Some (l, st') -> evolves Tools st st'.
Proof.
  rewrite getAllInlineToolsConfig_eq.
  destruct (inlineToolsConfigCache st) as [c|] eqn:Hc.
  - intros [= _ <-]. apply evolves_refl.
  - destruct (allInline Tools) as [U|] eqn:HU; [|done].
    intros [= <- <-]. split; [|split]; simpl.
    + intros l p Hp. left. by apply lookup_app_l_Some.
    + intros l Hl. congruence.
    + intros _ l [= <-]. exists U. split; [done|]. left.
      by apply list_lookup_middle.
Qed.

Lemma getInlineToolsConfig_evolves (name : string) (st st' : state) (l : loc) :
  getInlineToolsConfig Tools name st = Some (l, st') -> evolves Tools st st'.
Proof.
  intros H. apply getInlineToolsConfig_inv in H
    as (settings & inlineToolbar & _ & _ & _ & _ & H).
  destruct (jstype_eqb (typeof inlineToolbar) TBoolean && truthy inlineToolbar).
  - destruct (inlineToolsConfigCache st) as [cached|] eqn:Hcache.
    + destruct H as (-> & Hc' & _ & p & Hp & Hheap).
      split; [|split].
      * intros l' q Hq. rewrite Hheap.
        destruct (decide (l' = cached)) as [->|Hne].
        -- right. split; [done|].
           rewrite (lookup_app_l_Some _ _ _ _ Hq) in Hp. injection Hp as <-.
           apply list_lookup_insert_eq. rewrite length_app.
           apply lookup_lt_Some in Hq. lia.
        -- left. rewrite list_lookup_insert_ne by done. by apply lookup_app_l_Some.
      * intros l' Hl'. congruence.
      * intros Hnone. congruence.
    + destruct H as (U & HU & -> & Hc' & _ & Hheap).
      split; [|split].
      * intros l' q Hq. left. rewrite Hheap. by apply lookup_app_l_Some.
      * intros l' Hl'. congruence.
      * intros _ l' Hl'. exists U. split; [done|]. right.
        rewrite Hc' in Hl'. injection Hl' as <-. rewrite Hheap.
        change [[]; forceLineBreaks U] with ([[]] ++ [forceLineBreaks U]).
        rewrite app_assoc. apply list_lookup_middle.
        rewrite length_app. simpl. lia.
  - destruct H as (names & config & _ & _ & _ & Hc' & _ & Hheap).
    by eapply evolves_alloc.
Qed.

Lemma composeToolConfig_evolves (toolName : string) (st st' : state) (l : loc) :
  composeToolConfig Tools toolName st = Some (l, st') -> evolves Tools st st'.
Proof.
  intros H. destruct (configCache st !! toolName) as [c|] eqn:Hc.
  - rewrite (composeToolConfig_hit _ _ _ Hc) in H. injection H as _ <-.
    apply evolves_refl.
  - destruct (composeToolConfig_miss _ _ _ _ Hc H)
      as (toolClass & sanitize & declared & baseConfig & stb & _ & _ & _ & Hbase & Hres).
    apply getInlineToolsConfig_evolves in Hbase.
    apply (evolves_same _ st _ stb) in Hbase; try done.
    destruct (negb (truthy sanitize) || truthy declared && isEmpty declared).
    + by destruct Hres as [_ ->].
    + destruct Hres as (base & _ & _ & ->).
      eapply evolves_trans; [exact Hbase|]. by eapply evolves_alloc.
Qed.

Lemma sanitizeBlock_inv (sanitizeHTML : string -> value -> string)
    (block out : loc) (st st' : state) :
  sanitizeBlock sanitizeHTML Tools block st = Some (out, st') ->
  out = block
  /\ exists b toolConfig st1 rules,
       blocks st !! block = Some b
       /\ composeToolConfig Tools (tool b) st = Some (toolConfig, st1)
       /\ heap st1 !! toolConfig = Some rules
       /\ if isEmpty (VObject rules) then st' = st1
          else exists cleaned calls,
                 deepSanitize sanitizeHTML (data b) (VObject rules) = Some (cleaned, calls)
                 /\ st' = set_blocks (<[block := {| tool := tool b; data := cleaned |}]>
                                        (blocks st1)) st1.
Proof.
  unfold sanitizeBlock. intros H.
  inv_bind H as b st0 Hb. unfold readBlock in Hb.
  destruct (blocks st !! block) as [b0|] eqn:Hblock; [|done].
  injection Hb as <- <-.
  inv_bind H as toolConfig st1 Hcompose.
  inv_bind H as rules st2 Hrules. unfold readObj in Hrules.
  destruct (heap st1 !! toolConfig) as [rules0|] eqn:Hheap; [|done].
  injection Hrules as <- <-.
  pose proof (composeToolConfig_blocks _ _ _ _ Hcompose) as Hsame.
  destruct (isEmpty (VObject rules0)) eqn:Hempty.
  - injection H as <- <-. split; [done|].
    exists b0, toolConfig, st1, rules0. rewrite Hempty. by repeat split.
  - inv_bind H as b1 st3 Hb1. unfold readBlock in Hb1.
    rewrite Hsame, Hblock in Hb1. injection Hb1 as <- <-.
    inv_bind H as cleaned st4 Hclean. apply liftS_inv in Hclean as [Hclean ->].
    destruct (deepSanitize sanitizeHTML (data b0) (VObject rules0))
      as [[cleaned' calls]|] eqn:Hds; [|done].
    injection Hclean as <-.
    inv_bind H as u st5 Hwrite. unfold writeData in Hwrite.
    rewrite Hsame, Hblock in Hwrite. injection Hwrite as _ <-.
    injection H as <- <-. split; [done|].
    exists b0, toolConfig, st1, rules0. rewrite Hempty.
    split; [done|]. split; [done|]. split; [done|].
    exists cleaned', calls. by rewrite Hsame.
Qed.

Lemma sanitizeBlock_evolves (sanitizeHTML : string -> value -> string)
    (block out : loc) (st st' : state) :
  sanitizeBlock sanitizeHTML Tools block st = Some (out, st') -> evolves Tools st st'.
Proof.
  intros H. apply sanitizeBlock_inv in H
    as (_ & b & toolConfig & st1 & rules & _ & Hcompose & _ & Hres).
  apply composeToolConfig_evolves in Hcompose.
  destruct (isEmpty (VObject rules)).
  - by subst.
  - destruct Hres as (cleaned & calls & _ & ->).
    by apply (evolves_same _ st _ st1) in Hcompose.
Qed.

Lemma mapS_inv {A B} (f : A -> ST B) (x : A) (l : list A) (out : list B)
    (st st' : state) :
  mapS f (x :: l) st = Some (out, st') ->
  exists y ys st1,
    f x st = Some (y, st1) /\ mapS f l st1 = Some (ys, st') /\ out = y :: ys.
Proof.
  simpl. intros H.
  inv_bind H as y st1 Hy. inv_bind H as ys st2 Hys. injection H as <- <-.
  by exists y, ys, st1.
Qed.

Lemma sanitizeBlocks_evolves (sanitizeHTML : string -> value -> string)
    (blocksData out : list loc) :
  forall st st',
    sanitizeBlocks sanitizeHTML Tools blocksData st = Some (out, st') ->
    evolves Tools st st'.
Proof.
  unfold sanitizeBlocks. revert out.
  induction blocksData as [|block rest IH]; intros out st st' H.
  - injection H as _ <-. apply evolves_refl.
  - apply mapS_inv in H as (y & ys & st1 & Hy & Hys & _).
    eapply evolves_trans; [by eapply sanitizeBlock_evolves|by eapply IH].
Qed.

Lemma perform_evolves (sanitizeHTML : string -> value -> string)
    (o : operation) (st st' : state) :
  perform sanitizeHTML Tools o st = Some st' -> evolves Tools st st'.
Proof.
  destruct o as [toolName|name| |blocksData]; simpl; intros H;
    apply fmap_Some in H as ([r st1] & H & ->); simpl.
  - by eapply composeToolConfig_evolves.
  - by eapply getInlineToolsConfig_evolves.
  - by eapply getAllInlineToolsConfig_evolves.
  - by eapply sanitizeBlocks_evolves.
Qed.

Lemma performAll_evolves (sanitizeHTML : string -> value -> string)
    (os : list operation) :
  forall st st',
    performAll sanitizeHTML Tools os st = Some st' -> evolves Tools st st'.
Proof.
  induction os as [|o os IH]; intros st st'; simpl.
  - intros [= <-]. apply evolves_refl.
  - intros H. apply bind_Some in H as (st1 & Ho & Hos).
    eapply evolves_trans; [by eapply perform_evolves|by eapply IH].
Qed.

(** ** Two invariants *)

(** The aggregate cache stays what [cacheInv] says it is. *)
Lemma evolves_cacheInv (st st' : state) :
  cacheInv Tools st -> evolves Tools st st' -> cacheInv Tools st'.
Proof.
  intros Hinv (Hobj & Hkeep & Hfill) l Hl.
  destruct (inlineToolsConfigCache st) as [l0|] eqn:Hc.
  - assert (l0 = l) as -> by (specialize (Hkeep l0 eq_refl); congruence).
    destruct (Hinv l Hc) as (U & p & HU & Hp & Heq).
    exists U. destruct (Hobj _ _ Hp) as [Hp'|[_ Hp']].
    + by exists p.
    + exists (forceLineBreaks p). by rewrite forceLineBreaks_idem.
  - destruct (Hfill eq_refl l Hl) as (U & HU & [Hp|Hp]); exists U.
    + by exists U.
    + exists (forceLineBreaks U). by rewrite forceLineBreaks_idem.
Qed.

Lemma cacheInv_init (bs : list Block) : cacheInv Tools (init bs).
Proof. intros l Hl. discriminate Hl. Qed.

(** Once the cached aggregate has the line breaks forced in, it keeps
    them, and the cache keeps that object. *)
Lemma evolves_forced (st st' : state) (l : loc) (U : props) :
  inlineToolsConfigCache st = Some l ->
  heap st !! l = Some (forceLineBreaks U) ->
  evolves Tools st st' ->
  inlineToolsConfigCache st' = Some l
  /\ heap st' !! l = Some (forceLineBreaks U).
Proof.
  intros Hc Hp (Hobj & Hkeep & _). split; [by apply Hkeep|].
  destruct (Hobj _ _ Hp) as [Hp'|[_ Hp']]; [done|].
  by rewrite forceLineBreaks_idem in Hp'.
Qed.

End ComposerFacts.

(** * Well-formed rule-set objects *)

Section Wf.

Variable Tools : ToolsRegistry.

Lemma mergeInline_NoDup (config config' : props) (inlineTool : value) :
  NoDup (keys config) -> mergeInline Tools config inlineTool = Some config' ->
  NoDup (keys config').
Proof.
  unfold mergeInline. intros Hnd H.
  apply bind_Some in H as (src & _ & [= <-]). by apply NoDup_assign.
Qed.

Lemma namedInline_NoDup (names : list value) :
  forall config config',
    NoDup (keys config) -> namedInline Tools config names = Some config' ->
    NoDup (keys config').
Proof.
  induction names as [|name names IH]; intros config config' Hnd; simpl.
  - by intros [= <-].
  - destruct name; try done. intros H.
    apply bind_Some in H as (c & Hc & H).
    eapply IH; [|exact H]. by eapply mergeInline_NoDup.
Qed.

Lemma allInline_NoDup (U : props) :
  allInline Tools = Some U -> NoDup (keys U).
Proof.
  unfold allInline.
  assert (forall (tools : props) (acc : option props) (U : props),
            (forall c, acc = Some c -> NoDup (keys c)) ->
            foldl (fun config (inlineTool : string * value) =>
                     c ← config; mergeInline Tools c inlineTool.2)
                  acc tools = Some U -> NoDup (keys U)) as Hgen.
  { induction tools as [|t tools IH]; intros acc U' Hacc; simpl.
    - intros ->. by apply Hacc.
    - apply IH. intros c Hc. apply bind_Some in Hc as (c0 & -> & Hm).
      eapply mergeInline_NoDup; [|exact Hm]. by apply Hacc. }
  apply Hgen. intros c [= <-]. apply NoDup_nil_2.
Qed.

Lemma getInlineToolsConfig_objectsWf (name : string) (st st' : state) (l : loc) :
  objectsWf st -> getInlineToolsConfig Tools name st = Some (l, st') -> objectsWf st'.
Proof.
  unfold objectsWf. intros Hwf H.
  apply getInlineToolsConfig_inv in H
    as (settings & inlineToolbar & _ & _ & _ & _ & H).
  destruct (jstype_eqb (typeof inlineToolbar) TBoolean && truthy inlineToolbar).
  - destruct (inlineToolsConfigCache st) as [cached|].
    + destruct H as (_ & _ & _ & p & Hp & ->).
      assert (Forall (fun o : props => NoDup (keys o)) (heap st ++ [[]])) as Hwf'.
      { apply Forall_app. split; [done|]. repeat constructor. }
      apply Forall_insert; [done|].
      apply NoDup_forceLineBreaks.
      by apply (Forall_lookup_1 _ _ _ _ Hwf' Hp).
    + destruct H as (U & HU & _ & _ & _ & ->).
      apply Forall_app. split; [done|].
      repeat constructor. by apply NoDup_forceLineBreaks, allInline_NoDup.
  - destruct H as (names & config & _ & Hnamed & _ & _ & _ & ->).
    apply Forall_app. split; [done|]. repeat constructor.
    apply NoDup_forceLineBreaks. eapply namedInline_NoDup; [|exact Hnamed].
    apply NoDup_nil_2.
Qed.

Lemma getInlineToolsConfig_result (name : string) (st st' : state) (l : loc) :
  getInlineToolsConfig Tools name st = Some (l, st') ->
  exists config, heap st' !! l = Some (forceLineBreaks config).
Proof.
  intros H. apply getInlineToolsConfig_inv in H
    as (settings & inlineToolbar & _ & _ & _ & _ & H).
  destruct (jstype_eqb (typeof inlineToolbar) TBoolean && truthy inlineToolbar).
  - destruct (inlineToolsConfigCache st) as [cached|].
    + destruct H as (-> & _ & _ & p & Hp & ->). exists p.
      apply list_lookup_insert_eq. by eapply lookup_lt_Some.
    + destruct H as (U & HU & -> & _ & _ & ->). exists U.
      change [[]; forceLineBreaks U] with ([[]] ++ [forceLineBreaks U]).
      rewrite app_assoc. apply list_lookup_middle.
      rewrite length_app. simpl. lia.
  - destruct H as (names & config & _ & _ & -> & _ & _ & ->). exists config.
    by apply list_lookup_middle.
Qed.

End Wf.


(** * When the rule composer returns *)

Lemma bindS_eq {A B} (m : ST A) (f : A -> ST B) (st st1 : state) (a : A) :
  m st = Some (a, st1) -> bind m f st = f a st1.
Proof. intros H. simpl. unfold bindS. by rewrite H. Qed.

Section Returns.

Variable Tools : ToolsRegistry.

(** [getInlineToolsConfig] returns when the registry knows the settings of
    the tool and the setting [inlineToolbar] is a list that names
    registered inline tools, or a falsy value, or [true] with every
    inline tool readable and the cache, if filled, pointing to an object. *)
Lemma getInlineToolsConfig_returns
    (name : string) (st : state) (settings inlineToolbar : value) :
  getToolSettings Tools name = Some settings ->
  getProp settings "inlineToolbar" = Some inlineToolbar ->
  (inlineToolbar = VBool true
   /\ is_Some (allInline Tools)
   /\ (forall c, inlineToolsConfigCache st = Some c -> c < length (heap st)))
  \/ (exists names,
        (if truthy inlineToolbar then inlineToolbar else VArray []) = VArray names
        /\ is_Some (namedInline Tools [] names)) ->
  exists l st', getInlineToolsConfig Tools name st = Some (l, st').
Proof.
  intros Hsettings Htoolbar Hcase. unfold getInlineToolsConfig.
  rewrite (bindS_eq _ _ _ _ tt eq_refl).
  rewrite (bindS_eq _ _ _ _ settings) by (unfold liftS; by rewrite Hsettings).
  rewrite (bindS_eq _ _ _ _ inlineToolbar) by (unfold liftS; by rewrite Htoolbar).
  rewrite (bindS_eq _ _ _ _ _ eq_refl).
  destruct Hcase as [(-> & [U HU] & Hcache)|(names & Hnames & [config Hnamed])].
  - simpl. unfold bindS at 1. rewrite getAllInlineToolsConfig_eq. simpl.
    destruct (inlineToolsConfigCache st) as [c|] eqn:Hc.
    + specialize (Hcache c eq_refl).
      destruct (lookup_lt_is_Some_2 (heap st) c Hcache) as [p Hp].
      unfold bindS, updObj. simpl.
      rewrite (lookup_app_l_Some _ _ _ _ Hp). simpl.
      rewrite list_lookup_insert_eq by (rewrite length_app; lia).
      eauto.
    + rewrite HU. unfold bindS, updObj. simpl.
      rewrite list_lookup_middle by done. simpl.
      rewrite list_lookup_insert_eq by (rewrite !length_app; simpl; lia).
      eauto.
  - rewrite Hnames.
    assert (jstype_eqb (typeof (VArray names)) TBoolean && truthy (VArray names) = false)
      as -> by done.
    simpl. unfold bindS.
    rewrite (forEach_enableInline _ _ _ _ [])
      by (simpl; by apply list_lookup_middle).
    rewrite Hnamed. unfold updObj. simpl.
    rewrite list_lookup_insert_eq by (rewrite length_app; simpl; lia). simpl.
    rewrite list_lookup_insert_eq by (rewrite length_insert, length_app; simpl; lia).
    eauto.
Qed.

(** [composeToolConfig] returns when the tool is registered and its base
    set can be had. *)
Lemma composeToolConfig_returns (toolName : string) (st : state) (toolClass : value) :
  getProp (VObject (available Tools)) toolName = Some toolClass ->
  jstype_eqb (typeof toolClass) TUndefined = false ->
  toolClass <> VNull ->
  (exists l st',
     getInlineToolsConfig Tools toolName
       (set_queries (queries st ++ [QAvailable toolName]) st) = Some (l, st')) ->
  exists l st', composeToolConfig Tools toolName st = Some (l, st').
Proof.
  intros Hclass Hdefined Hnull (baseConfig & stb & Hbase).
  destruct (configCache st !! toolName) as [c|] eqn:Hc.
  { exists c, st. by apply composeToolConfig_hit. }
  destruct (getProp_defined toolClass "sanitize" Hdefined Hnull) as (sanitize & Hsanitize).
  destruct (getProp_defined toolClass (SANITIZE_CONFIG Tools) Hdefined Hnull)
    as (declared & Hdeclared).
  destruct (getInlineToolsConfig_result _ _ _ _ _ Hbase) as (config & Hconfig).
  unfold composeToolConfig.
  rewrite (bindS_eq _ _ _ _ _ eq_refl). rewrite Hc.
  rewrite (bindS_eq _ _ _ _ tt eq_refl).
  rewrite (bindS_eq _ _ _ _ toolClass) by (unfold liftS; by rewrite Hclass).
  rewrite (bindS_eq _ _ _ _ _ Hbase).
  rewrite (bindS_eq _ _ _ _ sanitize) by (unfold liftS; by rewrite Hsanitize).
  rewrite (bindS_eq _ _ _ _ declared) by (unfold liftS; by rewrite Hdeclared).
  destruct (negb (truthy sanitize) || truthy declared && isEmpty declared).
  - by eexists _, _.
  - rewrite (bindS_eq _ _ _ _ (forceLineBreaks config))
      by (unfold readObj; by rewrite Hconfig).
    by eexists _, _.
Qed.

End Returns.

(** * Claims about the rule composer *)


Section WfOperations.

Variable Tools : ToolsRegistry.

Lemma objectsWf_init (bs : list Block) : objectsWf (init bs).
Proof. apply Forall_nil_2. Qed.

Lemma composeRules_NoDup (baseConfig : props) (toolRules : value) :
  NoDup (keys (composeRules baseConfig toolRules)).
Proof.
  unfold composeRules.
  apply (NoDup_writes _ (mergeRule baseConfig)).
  - intros. apply composeField_setProp.
  - apply NoDup_nil_2.
Qed.

Lemma composeToolConfig_objectsWf (toolName : string) (st st' : state) (l : loc) :
  objectsWf st -> composeToolConfig Tools toolName st = Some (l, st') -> objectsWf st'.
Proof.
  intros Hwf H. destruct (configCache st !! toolName) as [c|] eqn:Hc.
  - rewrite (composeToolConfig_hit _ _ _ _ Hc) in H. by injection H as _ <-.
  - destruct (composeToolConfig_miss _ _ _ _ _ Hc H)
      as (toolClass & sanitize & declared & baseConfig & stb & _ & _ & _ & Hbase & Hres).
    apply getInlineToolsConfig_objectsWf in Hbase; [|done].
    destruct (negb (truthy sanitize) || truthy declared && isEmpty declared).
    + by destruct Hres as [_ ->].
    + destruct Hres as (base & _ & _ & ->). unfold objectsWf. simpl.
      apply Forall_app. split; [done|]. repeat constructor.
      apply composeRules_NoDup.
Qed.

(** The declared rule of a field, merged over the base set: its entries
    win, the other entries of the base set are inherited. *)
Lemma lookupProp_mergeRule (baseConfig rule : props) (k : string) :
  NoDup (keys baseConfig) -> NoDup (keys rule) ->
  lookupProp k (assign (assign [] (VObject baseConfig)) (VObject rule)) =
    match lookupProp k rule with
    | Some v => Some v
    | None => lookupProp k baseConfig
    end.
Proof.
  intros Hbase Hrule. rewrite assign_empty by done.
  rewrite lookupProp_assign. simpl. by rewrite lookupProp_reverse.
Qed.

(** C2.  A tool declares the rule [rule] for its field [f].  In the
    composed configuration, field [f] holds [rule] merged over the base
    inline set: an entry of [rule] overrides the entry of the base set with
    the same name, and every entry of the base set that [rule] does not
    name is inherited.  In particular [{a: true}] over a base set with
    [a: {href: true}] and [b: true] yields [a: true] and [b: true]. *)
Theorem declared_rule_merges_over_base
    (toolName f : string) (st st' : state) (l : loc)
    (toolClass sanitize : value) (rule : props) :
  objectsWf st ->
  configCache st !! toolName = None ->
  getProp (VObject (available Tools)) toolName = Some toolClass ->
  getProp toolClass "sanitize" = Some sanitize ->
  declaresRules Tools toolClass = true ->
  NoDup (keys (ownEntries sanitize)) ->
  lookupProp f (ownEntries sanitize) = Some (VObject rule) ->
  NoDup (keys rule) ->
  composeToolConfig Tools toolName st = Some (l, st') ->
  exists (baseConfig : loc) (stb : state) (base toolConfig merged : props),
    getInlineToolsConfig Tools toolName
      (set_queries (queries st ++ [QAvailable toolName]) st) = Some (baseConfig, stb)
    /\ heap stb !! baseConfig = Some base
    /\ heap st' !! l = Some toolConfig
    /\ lookupProp f toolConfig = Some (VObject merged)
    /\ (forall k, lookupProp k merged =
                    match lookupProp k rule with
                    | Some v => Some v
                    | None => lookupProp k base
                    end)
    /\ (rule = [("a", VBool true)] ->
        lookupProp "a" base = Some (VObject [("href", VBool true)]) ->
        lookupProp "b" base = Some (VBool true) ->
        lookupProp "a" merged = Some (VBool true)
        /\ lookupProp "b" merged = Some (VBool true)).
Proof.
  intros Hwf Hmiss Hclass Hsanitize Hdeclares Hnd Hf Hrule H.
  destruct (composeToolConfig_miss _ _ _ _ _ Hmiss H)
    as (toolClass' & sanitize' & declared & baseConfig & stb
        & Hclass' & Hsanitize' & Hdeclared & Hbase & Hres).
  rewrite Hclass in Hclass'. injection Hclass' as <-.
  rewrite Hsanitize in Hsanitize'. injection Hsanitize' as <-.
  unfold declaresRules in Hdeclares. rewrite Hsanitize, Hdeclared in Hdeclares.
  apply negb_true_iff in Hdeclares. rewrite Hdeclares in Hres.
  destruct Hres as (base & Hb & -> & ->).
  assert (NoDup (keys base)) as Hbasend.
  { apply getInlineToolsConfig_objectsWf in Hbase; [|done].
    by apply (Forall_lookup_1 _ _ _ _ Hbase Hb). }
  assert (forall k,
            lookupProp k (assign (assign [] (VObject base)) (VObject rule)) =
              match lookupProp k rule with
              | Some v => Some v
              | None => lookupProp k base
              end) as Hmerged
    by (intros k; by apply lookupProp_mergeRule).
  exists baseConfig, stb, base, (composeRules base sanitize),
    (assign (assign [] (VObject base)) (VObject rule)).
  split; [done|]. split; [done|].
  split; [by apply list_lookup_middle|].
  split; [by rewrite (lookupProp_composeRules _ _ _ _ Hnd Hf)|].
  split; [done|].
  intros -> Ha Hb'. by rewrite !Hmerged.
Qed.

End WfOperations.

(** C2 on the example registry: [paragraph] declares [{a: true}] for
    [text]; the base set is the union of [link] and [bold]. *)
Lemma declared_rule_merges_over_base_witness :
  exists (l : loc) (st' : state),
    composeToolConfig exampleTools "paragraph" (init []) = Some (l, st')
    /\ exists (baseConfig : loc) (stb : state) (base toolConfig merged : props),
         getInlineToolsConfig exampleTools "paragraph"
           (set_queries (queries (init []) ++ [QAvailable "paragraph"]) (init []))
         = Some (baseConfig, stb)
         /\ heap stb !! baseConfig = Some base
         /\ heap st' !! l = Some toolConfig
         /\ lookupProp "text" toolConfig = Some (VObject merged)
         /\ (forall k, lookupProp k merged =
                         match lookupProp k [("a", VBool true)] with
                         | Some v => Some v
                         | None => lookupProp k base
                         end)
         /\ ([("a", VBool true)] = [("a", VBool true)] ->
             lookupProp "a" base = Some (VObject [("href", VBool true)]) ->
             lookupProp "b" base = Some (VBool true) ->
             lookupProp "a" merged = Some (VBool true)
             /\ lookupProp "b" merged = Some (VBool true)).
Proof.
  assert (composeToolConfig exampleTools "paragraph" (init []) = paragraphComposed)
    as Hrun by (vm_compute; reflexivity).
  eexists _, _. split; [rewrite Hrun; reflexivity|].
  eapply (declared_rule_merges_over_base exampleTools "paragraph" "text" (init [])).
  - apply objectsWf_init.
  - reflexivity.
  - reflexivity.
  - reflexivity.
  - reflexivity.
  - apply NoDup_singleton.
  - reflexivity.
  - apply NoDup_singleton.
  - rewrite Hrun. reflexivity.
Defined.



(** * States the module can reach *)

Section Reachable.

Variable sanitizeHTML : string -> value -> string.
Variable Tools : ToolsRegistry.

Lemma getAllInlineToolsConfig_objectsWf (st st' : state) (l : loc) :
  objectsWf st -> getAllInlineToolsConfig Tools st = Some (l, st') -> objectsWf st'.
Proof.
  intros Hwf. rewrite getAllInlineToolsConfig_eq.
  destruct (inlineToolsConfigCache st); [by intros [= _ <-]|].
  destruct (allInline Tools) as [U|] eqn:HU; [|done].
  intros [= _ <-]. unfold objectsWf. simpl.
  apply Forall_app. split; [done|]. repeat constructor. by eapply allInline_NoDup.
Qed.

Lemma sanitizeBlock_objectsWf (block out : loc) (st st' : state) :
  objectsWf st -> sanitizeBlock sanitizeHTML Tools block st = Some (out, st') ->
  objectsWf st'.
Proof.
  intros Hwf H. apply sanitizeBlock_inv in H
    as (_ & b & toolConfig & st1 & rules & _ & Hcompose & _ & Hres).
  apply composeToolConfig_objectsWf in Hcompose; [|done].
  destruct (isEmpty (VObject rules)); [by subst|].
  by destruct Hres as (cleaned & calls & _ & ->).
Qed.

Lemma sanitizeBlocks_objectsWf (blocksData out : list loc) :
  forall st st',
    objectsWf st -> sanitizeBlocks sanitizeHTML Tools blocksData st = Some (out, st') ->
    objectsWf st'.
Proof.
  unfold sanitizeBlocks. revert out.
  induction blocksData as [|block rest IH]; intros out st st' Hwf H.
  - by injection H as _ <-.
  - apply mapS_inv in H as (y & ys & st1 & Hy & Hys & _).
    eapply IH; [|exact Hys]. by eapply sanitizeBlock_objectsWf.
Qed.

Lemma perform_objectsWf (o : operation) (st st' : state) :
  objectsWf st -> perform sanitizeHTML Tools o st = Some st' -> objectsWf st'.
Proof.
  intros Hwf. destruct o as [toolName|name| |blocksData]; simpl; intros H;
    apply fmap_Some in H as ([r st1] & H & ->); simpl.
  - by eapply composeToolConfig_objectsWf.
  - by eapply getInlineToolsConfig_objectsWf.
  - by eapply getAllInlineToolsConfig_objectsWf.
  - by eapply sanitizeBlocks_objectsWf.
Qed.

(** Every state that the operations of the module reach from the initial
    one has well-formed rule-set objects and a sound aggregate cache: the
    assumptions [objectsWf] and [cacheInv] of the statements below hold
    throughout a session. *)
Lemma reachable_objectsWf (os : list operation) (bs : list Block) (st : state) :
  performAll sanitizeHTML Tools os (init bs) = Some st -> objectsWf st.
Proof.
  assert (forall os st0 st, objectsWf st0 ->
            performAll sanitizeHTML Tools os st0 = Some st -> objectsWf st) as Hgen.
  { clear. induction os as [|o os IH]; intros st0 st Hwf; simpl.
    - by intros [= <-].
    - intros H. apply bind_Some in H as (st1 & Ho & Hos).
      eapply IH; [|exact Hos]. by eapply perform_objectsWf. }
  apply Hgen, objectsWf_init.
Qed.

Lemma reachable_cacheInv (os : list operation) (bs : list Block) (st : state) :
  performAll sanitizeHTML Tools os (init bs) = Some st -> cacheInv Tools st.
Proof.
  intros H. apply performAll_evolves in H.
  eapply evolves_cacheInv; [apply cacheInv_init|exact H].
Qed.

End Reachable.


Section LineBreaks.

Variable Tools : ToolsRegistry.


End LineBreaks.




Section Memoization.

Variable Tools : ToolsRegistry.

(** Asking for the base set twice in a row gives equal rule sets, and the
    second call leaves the first result as it is. *)
Lemma getInlineToolsConfig_twice (name : string) (sa sb st1 st2 : state) (l1 l2 : loc) :
  getInlineToolsConfig Tools name sa = Some (l1, st1) ->
  heap sb = heap st1 ->
  inlineToolsConfigCache sb = inlineToolsConfigCache st1 ->
  getInlineToolsConfig Tools name sb = Some (l2, st2) ->
  heap st2 !! l2 = heap st1 !! l1 /\ heap st2 !! l1 = heap st1 !! l1.
Proof.
  intros H1 Hheap Hcache H2.
  apply getInlineToolsConfig_inv in H1
    as (settings & inlineToolbar & Hsettings & Htoolbar & _ & _ & H1).
  apply getInlineToolsConfig_inv in H2
    as (settings' & inlineToolbar' & Hsettings' & Htoolbar' & _ & _ & H2).
  rewrite Hsettings in Hsettings'. injection Hsettings' as <-.
  rewrite Htoolbar in Htoolbar'. injection Htoolbar' as <-.
  rewrite Hheap, Hcache in H2.
  destruct (jstype_eqb (typeof inlineToolbar) TBoolean && truthy inlineToolbar).
  - assert (exists p, inlineToolsConfigCache st1 = Some l1
                      /\ heap st1 !! l1 = Some (forceLineBreaks p)) as (p & Hc1 & Hp1).
    { destruct (inlineToolsConfigCache sa) as [cached|].
      - destruct H1 as (-> & Hc & _ & p & Hp & ->). exists p. split; [done|].
        apply list_lookup_insert_eq. by eapply lookup_lt_Some.
      - destruct H1 as (U & _ & -> & Hc & _ & ->). exists U. split; [done|].
        change [[]; forceLineBreaks U] with ([[]] ++ [forceLineBreaks U]).
        rewrite app_assoc. apply list_lookup_middle.
        rewrite length_app. simpl. lia. }
    rewrite Hc1 in H2. destruct H2 as (-> & _ & _ & p2 & Hp2 & ->).
    rewrite (lookup_app_l_Some _ _ _ _ Hp1) in Hp2. injection Hp2 as <-.
    rewrite forceLineBreaks_idem, Hp1.
    split; apply list_lookup_insert_eq; rewrite length_app;
      apply lookup_lt_Some in Hp1; lia.
  - destruct H1 as (names & config & Hnames & Hnamed & -> & _ & _ & Hh1).
    destruct H2 as (names' & config' & Hnames' & Hnamed' & -> & _ & _ & ->).
    rewrite Hnames in Hnames'. injection Hnames' as <-.
    rewrite Hnamed in Hnamed'. injection Hnamed' as <-.
    assert (heap st1 !! length (heap sa) = Some (forceLineBreaks config)) as Hl1
      by (rewrite Hh1; by apply list_lookup_middle).
    rewrite Hl1. split.
    + by apply list_lookup_middle.
    + by apply lookup_app_l_Some.
Qed.

Lemma count_occ_inlineQueries_available (names : list value) (toolName : string) :
  count_occ query_eq_dec (inlineQueries names) (QAvailable toolName) = 0.
Proof.
  induction names as [|name names IH]; [done|].
  unfold inlineQueries in *. simpl. by destruct name.
Qed.

Lemma count_occ_inlineQueries_settings (names : list value) (toolName : string) :
  count_occ query_eq_dec (inlineQueries names) (QToolSettings toolName) = 0.
Proof.
  induction names as [|name names IH]; [done|].
  unfold inlineQueries in *. simpl. by destruct name.
Qed.

(** What one call of [getInlineToolsConfig] asks the registry. *)
Lemma getInlineToolsConfig_queries (name : string) (st st' : state) (l : loc) :
  getInlineToolsConfig Tools name st = Some (l, st') ->
  exists asked,
    queries st' = queries st ++ QToolSettings name :: asked
    /\ (forall toolName, count_occ query_eq_dec asked (QAvailable toolName) = 0)
    /\ (forall toolName, count_occ query_eq_dec asked (QToolSettings toolName) = 0).
Proof.
  intros H. apply getInlineToolsConfig_inv in H
    as (settings & inlineToolbar & _ & _ & _ & _ & H).
  destruct (jstype_eqb (typeof inlineToolbar) TBoolean && truthy inlineToolbar).
  - destruct (inlineToolsConfigCache st) as [cached|].
    + destruct H as (_ & _ & -> & _). by exists [].
    + destruct H as (U & _ & _ & _ & -> & _). by exists [QInlineEntries].
  - destruct H as (names & config & _ & _ & _ & _ & -> & _).
    exists (inlineQueries names). split; [done|].
    split; intros toolName;
      [apply count_occ_inlineQueries_available|apply count_occ_inlineQueries_settings].
Qed.

(** C4, as the code has it.  Two calls of [composeToolConfig] in a row
    return equal rule sets (rule sets that exist, when the first call had to
    compute), and the second call leaves the first result as it is.  When the tool declares rules of its own, the second call
    returns the very object of the first and changes nothing: it asks the
    registry nothing and composes nothing, so that over both calls the
    registry is asked at most once for the tool and for its settings. *)
Theorem composeToolConfig_twice
    (toolName : string) (st st1 st2 : state) (l1 l2 : loc) :
  composeToolConfig Tools toolName st = Some (l1, st1) ->
  composeToolConfig Tools toolName st1 = Some (l2, st2) ->
  (heap st2 !! l2 = heap st1 !! l1 /\ heap st2 !! l1 = heap st1 !! l1)
  /\ (configCache st !! toolName = None -> is_Some (heap st1 !! l1))
  /\ (forall toolClass,
        getProp (VObject (available Tools)) toolName = Some toolClass ->
        declaresRules Tools toolClass = true ->
        l2 = l1 /\ st2 = st1
        /\ exists asked,
             queries st2 = queries st ++ asked
             /\ count_occ query_eq_dec asked (QAvailable toolName) <= 1
             /\ count_occ query_eq_dec asked (QToolSettings toolName) <= 1).
Proof.
  intros H1 H2.
  destruct (configCache st !! toolName) as [c|] eqn:Hc.
  { rewrite (composeToolConfig_hit _ _ _ _ Hc) in H1. injection H1 as <- <-.
    rewrite (composeToolConfig_hit _ _ _ _ Hc) in H2. injection H2 as <- <-.
    split; [done|]. split; [done|]. intros _ _ _. repeat split.
    exists []. rewrite app_nil_r. simpl. split; [done|]. lia. }
  destruct (composeToolConfig_miss _ _ _ _ _ Hc H1)
    as (toolClass & sanitize & declared & baseConfig & stb
        & Hclass & Hsanitize & Hdeclared & Hbase & Hres).
  assert (declaresRules Tools toolClass
          = negb (negb (truthy sanitize) || truthy declared && isEmpty declared))
    as Hdecl by (unfold declaresRules; by rewrite Hsanitize, Hdeclared).
  destruct (negb (truthy sanitize) || truthy declared && isEmpty declared) eqn:Hcond.
  - destruct Hres as [-> ->].
    assert (configCache stb !! toolName = None) as Hc'.
    { apply getInlineToolsConfig_inv in Hbase as (? & ? & _ & _  & -> & _). done. }
    destruct (composeToolConfig_miss _ _ _ _ _ Hc' H2)
      as (toolClass' & sanitize' & declared' & baseConfig' & stb'
          & Hclass' & Hsanitize' & Hdeclared' & Hbase' & Hres').
    rewrite Hclass in Hclass'. injection Hclass' as <-.
    rewrite Hsanitize in Hsanitize'. injection Hsanitize' as <-.
    rewrite Hdeclared in Hdeclared'. injection Hdeclared' as <-.
    rewrite Hcond in Hres'. destruct Hres' as [-> ->].
    split; [|split].
    + exact (getInlineToolsConfig_twice toolName _
               (set_queries (queries stb ++ [QAvailable toolName]) stb)
               _ _ _ _ Hbase eq_refl eq_refl Hbase').
    + intros _. destruct (getInlineToolsConfig_result _ _ _ _ _ Hbase) as (config & ->).
      by eexists.
    + intros toolClass' Hclass'. rewrite Hclass in Hclass'. injection Hclass' as <-.
      rewrite Hdecl. done.
  - destruct Hres as (base & Hb & -> & ->).
    rewrite composeToolConfig_hit with (l := length (heap stb)) in H2
      by (simpl; apply lookup_insert_eq).
    injection H2 as <- <-. split; [done|].
    split; [intros _; simpl; rewrite list_lookup_middle by done; by eexists|].
    intros _ _ _. repeat split.
    apply getInlineToolsConfig_queries in Hbase as (asked & Hq & Havail & Hset).
    simpl in *. exists (QAvailable toolName :: QToolSettings toolName :: asked).
    split; [by rewrite Hq, <- app_assoc|]. split.
    + rewrite count_occ_cons_eq by done. rewrite count_occ_cons_neq by done.
      rewrite Havail. lia.
    + rewrite count_occ_cons_neq by done. rewrite count_occ_cons_eq by done.
      rewrite Hset. lia.
Qed.

End Memoization.

(** C4 as stated fails on [raw], which declares no rules: the second call
    returns another object than the first, and each call asks the registry
    for the tool and for its settings. *)
Lemma tool_without_rules_is_not_memoized :
  exists (l1 l2 : loc) (st1 st2 : state),
    composeToolConfig exampleTools "raw" (init []) = Some (l1, st1)
    /\ composeToolConfig exampleTools "raw" st1 = Some (l2, st2)
    /\ l1 <> l2
    /\ configCache st1 !! "raw" = None
    /\ count_occ query_eq_dec (queries st2) (QAvailable "raw") = 2
    /\ count_occ query_eq_dec (queries st2) (QToolSettings "raw") = 2.
Proof.
  assert (composeToolConfig exampleTools "raw" (init []) = rawComposed)
    as Hrun by (vm_compute; reflexivity).
  eexists _, _, _, _. split; [rewrite Hrun; reflexivity|].
  split; [vm_compute; reflexivity|].
  split; [discriminate|]. split; [reflexivity|]. split; reflexivity.
Qed.

(** C4 at work on [paragraph], which declares rules. *)
Lemma composeToolConfig_twice_witness :
  exists (l1 l2 : loc) (st1 st2 : state),
    composeToolConfig exampleTools "paragraph" (init []) = Some (l1, st1)
    /\ composeToolConfig exampleTools "paragraph" st1 = Some (l2, st2)
    /\ (heap st2 !! l2 = heap st1 !! l1 /\ heap st2 !! l1 = heap st1 !! l1)
    /\ l2 = l1 /\ st2 = st1.
Proof.
  assert (composeToolConfig exampleTools "paragraph" (init []) = paragraphComposed)
    as Hrun by (vm_compute; reflexivity).
  assert (composeToolConfig exampleTools "paragraph"
            (match paragraphComposed with Some r => r.2 | None => init [] end)
          = paragraphComposedAgain)
    as Hrun2 by (vm_compute; reflexivity).
  eexists _, _, _, _. split; [rewrite Hrun; reflexivity|].
  split; [etrans; [exact Hrun2|reflexivity]|].
  destruct (composeToolConfig_twice exampleTools "paragraph" (init []) _ _ _ _ Hrun Hrun2)
    as (Hequal & _ & Hsame).
  split; [exact Hequal|].
  destruct (Hsame _ eq_refl eq_refl) as (Hl & Hst & _).
  by split.
Defined.

(** * The union of the inline tools' rules *)

Section Union.

Variable Tools : ToolsRegistry.

(** Merging rule sets one after the other with [Object.assign] gives their
    union in that order, over what the target held. *)
Lemma lookupProp_assign_all (ruleSets : list value) (k : string) :
  Forall (fun ruleSet => NoDup (keys (ownEntries ruleSet))) ruleSets ->
  forall config,
    lookupProp k (foldl assign config ruleSets) =
      match unionInOrder ruleSets k with
      | Some v => Some v
      | None => lookupProp k config
      end.
Proof.
  induction 1 as [|ruleSet later Hnd _ IH]; intros config; simpl; [done|].
  rewrite IH. destruct (unionInOrder later k); [done|].
  rewrite lookupProp_assign, lookupProp_reverse by done.
  by destruct (lookupProp k (ownEntries ruleSet)).
Qed.

Lemma inlineRulesDistinct_elem (n : string) (inlineTool ruleSet : value) :
  inlineRulesDistinct Tools = true ->
  (n, inlineTool) ∈ inline Tools ->
  getProp inlineTool (SANITIZE_CONFIG Tools) = Some ruleSet ->
  NoDup (keys (ownEntries ruleSet)).
Proof.
  intros Hwf Hin Hget. unfold inlineRulesDistinct in Hwf.
  rewrite forallb_forall in Hwf.
  specialize (Hwf (n, inlineTool)). simpl in Hwf. rewrite Hget in Hwf.
  eapply bool_decide_eq_true_1. apply Hwf. by apply list_elem_of_In.
Qed.

(** The loop of [getAllInlineToolsConfig], started on [config]. *)
Lemma allInline_from (tools : props) :
  forall (config U : props),
    foldl (fun config inlineTool => c ← config; mergeInline Tools c inlineTool.2)
          (Some config) tools = Some U ->
    exists ruleSets,
      Forall2 (fun tool ruleSet => getProp tool.2 (SANITIZE_CONFIG Tools) = Some ruleSet)
              tools ruleSets
      /\ U = foldl assign config ruleSets.
Proof.
  induction tools as [|[n t] tools IH]; intros config U; simpl.
  - intros [= <-]. exists []. by split.
  - unfold mergeInline at 2. simpl.
    destruct (getProp t (SANITIZE_CONFIG Tools)) as [src|] eqn:Hsrc; simpl.
    + intros H. destruct (IH _ _ H) as (ruleSets & Hall & ->).
      exists (src :: ruleSets). split; [|done]. by constructor.
    + intros H. exfalso. clear -H. induction tools as [|t' tools IH]; simpl in H; [done|].
      by apply IH.
Qed.

(** The loop of [getInlineToolsConfig] over the names, started on
    [config]. *)
Lemma namedInline_from (names : list value) :
  forall (config U : props),
    namedInline Tools config names = Some U ->
    exists ruleSets,
      Forall2 (ruleSetOf Tools) names ruleSets
      /\ U = foldl assign config ruleSets.
Proof.
  induction names as [|name names IH]; intros config U; simpl.
  - intros [= <-]. exists []. by split.
  - destruct name as [| | | |n| | |]; try done.
    destruct (lookupProp n (inline Tools)) as [t|] eqn:Ht; simpl; [|done].
    unfold mergeInline.
    destruct (getProp t (SANITIZE_CONFIG Tools)) as [src|] eqn:Hsrc; simpl; [|done].
    intros H. destruct (IH _ _ H) as (ruleSets & Hall & ->).
    exists (src :: ruleSets). split; [|done].
    constructor; [|done]. by exists n, t.
Qed.

Lemma allInline_union (U : props) :
  inlineRulesDistinct Tools = true ->
  allInline Tools = Some U ->
  exists ruleSets,
    Forall2 (fun tool ruleSet => getProp tool.2 (SANITIZE_CONFIG Tools) = Some ruleSet)
            (inline Tools) ruleSets
    /\ forall k, lookupProp k U = unionInOrder ruleSets k.
Proof.
  intros Hwf HU. destruct (allInline_from _ _ _ HU) as (ruleSets & Hall & ->).
  exists ruleSets. split; [done|]. intros k.
  rewrite lookupProp_assign_all; [by destruct (unionInOrder ruleSets k)|].
  apply Forall_forall. intros src Hsrc.
  apply list_elem_of_lookup in Hsrc as [i Hi].
  destruct (Forall2_lookup_r _ _ _ _ _ Hall Hi) as ([n t] & Ht & Hget).
  eapply inlineRulesDistinct_elem; [done| |exact Hget].
  by eapply list_elem_of_lookup_2.
Qed.

Lemma namedInline_union (names : list value) (U : props) :
  inlineRulesDistinct Tools = true ->
  namedInline Tools [] names = Some U ->
  exists ruleSets,
    Forall2 (ruleSetOf Tools) names ruleSets
    /\ forall k, lookupProp k U = unionInOrder ruleSets k.
Proof.
  intros Hwf HU. destruct (namedInline_from _ _ _ HU) as (ruleSets & Hall & ->).
  exists ruleSets. split; [done|]. intros k.
  rewrite lookupProp_assign_all; [by destruct (unionInOrder ruleSets k)|].
  apply Forall_forall. intros src Hsrc.
  apply list_elem_of_lookup in Hsrc as [i Hi].
  destruct (Forall2_lookup_r _ _ _ _ _ Hall Hi) as (name & _ & n & t & _ & Ht & Hget).
  eapply inlineRulesDistinct_elem; [done| |exact Hget].
  by apply lookupProp_Some_elem_of in Ht.
Qed.

End Union.



Section InlineSelection.

Variable sanitizeHTML : string -> value -> string.
Variable Tools : ToolsRegistry.

(** Merging in the order of the list: the tool named last is merged
    last, so its entries override those of the tools named before it. *)
Lemma namedInline_snoc (config : props) (names : list value) (n : string) :
  namedInline Tools config (names ++ [VString n]) =
    (merged ← namedInline Tools config names;
     inlineTool ← getProp (VObject (inline Tools)) n;
     src ← getProp inlineTool (SANITIZE_CONFIG Tools);
     Some (assign merged src)).
Proof.
  revert config. induction names as [|name names IH]; intros config; simpl.
  - unfold mergeInline. by destruct (getProp _ (SANITIZE_CONFIG Tools)).
  - destruct name; try done.
    destruct (mergeInline Tools config _) as [config'|]; simpl; [|done].
    apply IH.
Qed.

(** With the setting [true] the result is the aggregate cache, holding
    the merged rules of all inline tools with the line breaks forced in. *)
Lemma getInlineToolsConfig_all
    (name : string) (st st' : state) (l : loc) (settings : value) :
  cacheInv Tools st ->
  getToolSettings Tools name = Some settings ->
  getProp settings "inlineToolbar" = Some (VBool true) ->
  getInlineToolsConfig Tools name st = Some (l, st') ->
  exists U,
    allInline Tools = Some U
    /\ inlineToolsConfigCache st' = Some l
    /\ heap st' !! l = Some (forceLineBreaks U).
Proof.
  intros Hinv Hsettings Htoolbar H.
  apply getInlineToolsConfig_inv in H
    as (settings' & inlineToolbar' & Hsettings' & Htoolbar' & _ & _ & H).
  rewrite Hsettings in Hsettings'. injection Hsettings' as <-.
  rewrite Htoolbar in Htoolbar'. injection Htoolbar' as <-. simpl in H.
  destruct (inlineToolsConfigCache st) as [cached|] eqn:Hcache.
  - destruct H as (-> & Hc & _ & p & Hp & ->).
    destruct (Hinv _ Hcache) as (U & p' & HU & Hp' & Heq).
    rewrite (lookup_app_l_Some _ _ _ _ Hp') in Hp. injection Hp as <-.
    exists U. split; [done|]. split; [done|]. rewrite Heq.
    apply list_lookup_insert_eq. rewrite length_app.
    apply lookup_lt_Some in Hp'. lia.
  - destruct H as (U & HU & -> & Hc & _ & ->).
    exists U. split; [done|]. split; [done|].
    change [[]; forceLineBreaks U] with ([[]] ++ [forceLineBreaks U]).
    rewrite app_assoc. apply list_lookup_middle.
    rewrite length_app. simpl. lia.
Qed.

(** C6.  [getInlineToolsConfig] reads the setting [inlineToolbar] of the
    tool and returns a rule set that is [config] with the two line breaks
    forced in, where [config] is
    - the union of the rule sets of all inline tools, in the order in which
      the registry enumerates them, when the setting is [true], the
      returned object being the aggregate cache itself;
    - the union of the rule sets of the named inline tools, in the order of
      the list, when the setting is a list;
    - empty when the setting is [false], absent or otherwise falsy.
    In a union an entry of a later rule set overrides the entries of the
    same name before it. *)
Theorem getInlineToolsConfig_selects
    (name : string) (st st' : state) (l : loc) (settings inlineToolbar : value) :
  cacheInv Tools st ->
  inlineRulesDistinct Tools = true ->
  getToolSettings Tools name = Some settings ->
  getProp settings "inlineToolbar" = Some inlineToolbar ->
  getInlineToolsConfig Tools name st = Some (l, st') ->
  exists config,
    heap st' !! l = Some (forceLineBreaks config)
    /\ (inlineToolbar = VBool true ->
        allInline Tools = Some config
        /\ inlineToolsConfigCache st' = Some l
        /\ exists ruleSets,
             Forall2 (fun tool ruleSet =>
                        getProp tool.2 (SANITIZE_CONFIG Tools) = Some ruleSet)
                     (inline Tools) ruleSets
             /\ forall k, lookupProp k config = unionInOrder ruleSets k)
    /\ (forall names, inlineToolbar = VArray names ->
        namedInline Tools [] names = Some config
        /\ exists ruleSets,
             Forall2 (ruleSetOf Tools) names ruleSets
             /\ forall k, lookupProp k config = unionInOrder ruleSets k)
    /\ (truthy inlineToolbar = false -> config = []).
Proof.
  intros Hinv Hwf Hsettings Htoolbar H.
  destruct (jstype_eqb (typeof inlineToolbar) TBoolean && truthy inlineToolbar) eqn:Hall.
  - assert (inlineToolbar = VBool true) as ->
      by (destruct inlineToolbar as [| |[|]| | | | |]; done).
    destruct (getInlineToolsConfig_all _ _ _ _ _ Hinv Hsettings Htoolbar H)
      as (U & HU & Hc & Hl).
    exists U. split; [done|]. split; [|done].
    intros _. split; [done|]. split; [done|]. by apply allInline_union.
  - apply getInlineToolsConfig_inv in H
      as (settings' & inlineToolbar' & Hsettings' & Htoolbar' & _ & _ & H).
    rewrite Hsettings in Hsettings'. injection Hsettings' as <-.
    rewrite Htoolbar in Htoolbar'. injection Htoolbar' as <-.
    rewrite Hall in H.
    destruct H as (names & config & Hnames & Hnamed & -> & _ & _ & ->).
    exists config. split; [by apply list_lookup_middle|].
    split; [by intros ->|]. split.
    + intros names' ->. simpl in Hnames. injection Hnames as <-.
      split; [done|]. by apply namedInline_union.
    + intros Hfalsy. rewrite Hfalsy in Hnames. injection Hnames as <-.
      simpl in Hnamed. by injection Hnamed as <-.
Qed.

(** C9.  When the setting [inlineToolbar] is [true], the object that
    [getInlineToolsConfig] returns is the aggregate cache; the two
    assignments of line breaks have been made on it.  Whatever the module
    does afterwards, [getAllInlineToolsConfig] returns that object, and the
    object holds the merged rules of the inline tools with [br] and [wbr]
    allowed. *)
Theorem aggregate_cache_keeps_line_breaks
    (name : string) (st st' : state) (l : loc) (settings : value) :
  cacheInv Tools st ->
  getToolSettings Tools name = Some settings ->
  getProp settings "inlineToolbar" = Some (VBool true) ->
  getInlineToolsConfig Tools name st = Some (l, st') ->
  exists U,
    allInline Tools = Some U
    /\ inlineToolsConfigCache st' = Some l
    /\ heap st' !! l = Some (forceLineBreaks U)
    /\ allowsLineBreaks (forceLineBreaks U)
    /\ (forall k, k <> "br" -> k <> "wbr" ->
          lookupProp k (forceLineBreaks U) = lookupProp k U)
    /\ (forall (os : list operation) (st'' : state),
          performAll sanitizeHTML Tools os st' = Some st'' ->
          getAllInlineToolsConfig Tools st'' = Some (l, st'')
          /\ heap st'' !! l = Some (forceLineBreaks U)).
Proof.
  intros Hinv Hsettings Htoolbar H.
  destruct (getInlineToolsConfig_all _ _ _ _ _ Hinv Hsettings Htoolbar H)
    as (U & HU & Hc & Hl).
  exists U. repeat (split; [done|]).
  split; [apply forceLineBreaks_allows|].
  split; [intros k; apply lookupProp_forceLineBreaks_other|].
  intros os st'' Hos.
  apply performAll_evolves in Hos.
  destruct (evolves_forced _ _ _ _ _ Hc Hl Hos) as [Hc'' Hl''].
  split; [|done].
  by rewrite getAllInlineToolsConfig_eq, Hc''.
Qed.

End InlineSelection.

(** C6 on the example registries: [paragraph] enables all inline tools,
    [header] names [bold], [raw] has no setting; [poem] names [italic]
    and then [bold], so that on [b] the rule of [bold] wins, while for
    [verse], which enables all, [italic] is enumerated last and wins. *)
Lemma getInlineToolsConfig_selects_witness :
  (exists (l : loc) (st' : state) (config : props),
     getInlineToolsConfig exampleTools "paragraph" (init []) = Some (l, st')
     /\ heap st' !! l = Some (forceLineBreaks config)
     /\ allInline exampleTools = Some config
     /\ inlineToolsConfigCache st' = Some l)
  /\ (exists (l : loc) (st' : state) (config : props),
        getInlineToolsConfig exampleTools "header" (init []) = Some (l, st')
        /\ heap st' !! l = Some (forceLineBreaks config)
        /\ namedInline exampleTools [] [VString "bold"] = Some config)
  /\ (exists (l : loc) (st' : state),
        getInlineToolsConfig exampleTools "raw" (init []) = Some (l, st')
        /\ heap st' !! l = Some (forceLineBreaks []))
  /\ (exists (l : loc) (st' : state) (config : props) (ruleSets : list value),
        getInlineToolsConfig otherTools "poem" (init []) = Some (l, st')
        /\ heap st' !! l = Some (forceLineBreaks config)
        /\ Forall2 (ruleSetOf otherTools) [VString "italic"; VString "bold"] ruleSets
        /\ (forall k, lookupProp k config = unionInOrder ruleSets k)
        /\ lookupProp "b" config = Some (VBool true))
  /\ (exists (l : loc) (st' : state) (config : props) (ruleSets : list value),
        getInlineToolsConfig otherTools "verse" (init []) = Some (l, st')
        /\ heap st' !! l = Some (forceLineBreaks config)
        /\ (forall k, lookupProp k config = unionInOrder ruleSets k)
        /\ lookupProp "b" config = Some (VBool false)).
Proof.
  assert (getInlineToolsConfig exampleTools "paragraph" (init []) = paragraphInline)
    as Hparagraph by (vm_compute; reflexivity).
  assert (getInlineToolsConfig exampleTools "header" (init []) = headerInline)
    as Hheader by (vm_compute; reflexivity).
  assert (getInlineToolsConfig exampleTools "raw" (init []) = rawInline)
    as Hraw by (vm_compute; reflexivity).
  assert (getInlineToolsConfig otherTools "poem" (init []) = poemInline)
    as Hpoem by (vm_compute; reflexivity).
  assert (getInlineToolsConfig otherTools "verse" (init []) = verseInline)
    as Hverse by (vm_compute; reflexivity).
  split; [|split; [|split; [|split]]].
  - destruct (getInlineToolsConfig_selects exampleTools "paragraph" (init []) _ _ _ _
                (cacheInv_init exampleTools []) eq_refl eq_refl eq_refl Hparagraph)
      as (config & Hl & Hall & _).
    destruct (Hall eq_refl) as (HU & Hc & _).
    eexists _, _, config. by repeat split.
  - destruct (getInlineToolsConfig_selects exampleTools "header" (init []) _ _ _ _
                (cacheInv_init exampleTools []) eq_refl eq_refl eq_refl Hheader)
      as (config & Hl & _ & Hnamed & _).
    destruct (Hnamed _ eq_refl) as [Hconfig _].
    eexists _, _, config. by repeat split.
  - destruct (getInlineToolsConfig_selects exampleTools "raw" (init []) _ _ _ _
                (cacheInv_init exampleTools []) eq_refl eq_refl eq_refl Hraw)
      as (config & Hl & _ & _ & Hempty).
    rewrite (Hempty eq_refl) in Hl.
    eexists _, _. by split.
  - destruct (getInlineToolsConfig_selects otherTools "poem" (init []) _ _ _ _
                (cacheInv_init otherTools []) eq_refl eq_refl eq_refl Hpoem)
      as (config & Hl & _ & Hnamed & _).
    destruct (Hnamed _ eq_refl) as (Hconfig & ruleSets & Hsets & Hunion).
    exists 0, (match poemInline with Some r => r.2 | None => init [] end),
      config, ruleSets.
    split; [exact Hpoem|]. split; [exact Hl|]. split; [exact Hsets|].
    split; [exact Hunion|].
    vm_compute in Hconfig. injection Hconfig as <-. reflexivity.
  - destruct (getInlineToolsConfig_selects otherTools "verse" (init []) _ _ _ _
                (cacheInv_init otherTools []) eq_refl eq_refl eq_refl Hverse)
      as (config & Hl & Hall & _).
    destruct (Hall eq_refl) as (HU & _ & ruleSets & _ & Hunion).
    exists 1, (match verseInline with Some r => r.2 | None => init [] end),
      config, ruleSets.
    split; [exact Hverse|]. split; [exact Hl|]. split; [exact Hunion|].
    vm_compute in HU. injection HU as <-. reflexivity.
Defined.

(** C9 on the example registry: after the base set of [paragraph] has
    been asked for, composing [header] and asking for the base set of
    [paragraph] again leave the cached aggregate with its line breaks. *)
Lemma aggregate_cache_keeps_line_breaks_witness :
  exists (l : loc) (st' st'' : state) (U : props),
    getInlineToolsConfig exampleTools "paragraph" (init []) = Some (l, st')
    /\ allInline exampleTools = Some U
    /\ inlineToolsConfigCache st' = Some l
    /\ heap st' !! l = Some (forceLineBreaks U)
    /\ performAll markCleaned exampleTools
         [OComposeToolConfig "header"; OGetInlineToolsConfig "paragraph"] st'
       = Some st''
    /\ getAllInlineToolsConfig exampleTools st'' = Some (l, st'')
    /\ heap st'' !! l = Some (forceLineBreaks U).
Proof.
  assert (getInlineToolsConfig exampleTools "paragraph" (init []) = paragraphInline)
    as Hparagraph by (vm_compute; reflexivity).
  destruct (aggregate_cache_keeps_line_breaks markCleaned exampleTools
              "paragraph" (init []) _ _ _
              (cacheInv_init exampleTools []) eq_refl eq_refl Hparagraph)
    as (U & HU & Hc & Hl & _ & _ & Hlater).
  assert (performAll markCleaned exampleTools
            [OComposeToolConfig "header"; OGetInlineToolsConfig "paragraph"]
            (match paragraphInline with Some r => r.2 | None => init [] end)
          = paragraphLater) as Hops by (vm_compute; reflexivity).
  destruct (Hlater _ _ Hops) as [Hget Hl''].
  eexists _, _, _, U. by repeat split.
Defined.


(** * The batch entry point *)

Section Batch.

Variable sanitizeHTML : string -> value -> string.
Variable Tools : ToolsRegistry.

(** What [sanitizeBlock] does to one entry, given how the composition of
    its tool's rules goes. *)
Lemma sanitizeBlock_eq (block : loc) (st st1 : state) (b : Block)
    (toolConfig : loc) (rules : props) :
  blocks st !! block = Some b ->
  composeToolConfig Tools (tool b) st = Some (toolConfig, st1) ->
  heap st1 !! toolConfig = Some rules ->
  sanitizeBlock sanitizeHTML Tools block st =
    if isEmpty (VObject rules) then Some (block, st1)
    else
      match deepSanitize sanitizeHTML (data b) (VObject rules) with
      | Some (cleaned, _) =>
          Some (block,
                set_blocks (<[block := {| tool := tool b; data := cleaned |}]> (blocks st1))
                           st1)
      | None => None
      end.
Proof.
  intros Hb Hcompose Hrules.
  pose proof (composeToolConfig_blocks _ _ _ _ _ Hcompose) as Hsame.
  unfold sanitizeBlock. simpl. unfold bindS, readBlock, readObj.
  rewrite Hb, Hcompose, Hrules.
  destruct rules as [|entry rules]; [done|]. simpl.
  rewrite Hsame, Hb. unfold liftS, writeData.
  destruct (deepSanitize sanitizeHTML (data b) (VObject (entry :: rules)))
    as [[cleaned calls]|]; simpl; [|done].
  by rewrite Hsame, Hb.
Qed.

Lemma sanitizeBlock_blocks_length (block out : loc) (st st' : state) :
  sanitizeBlock sanitizeHTML Tools block st = Some (out, st') ->
  length (blocks st') = length (blocks st).
Proof.
  intros H. apply sanitizeBlock_inv in H
    as (_ & b & toolConfig & st1 & rules & _ & Hcompose & _ & Hres).
  apply composeToolConfig_blocks in Hcompose.
  destruct (isEmpty (VObject rules)).
  - subst. by rewrite Hcompose.
  - destruct Hres as (cleaned & calls & _ & ->). simpl.
    by rewrite length_insert, Hcompose.
Qed.

(** C8.  [sanitizeBlocks] visits the entries in order and returns the
    same entries in the same order.  For each entry it composes the rule
    set of the entry's tool; when that rule set is empty the entry is left
    as it is, and otherwise the entry's data is replaced by what
    [deepSanitize] returns for the data under the composed rules. *)
Theorem sanitizeBlocks_entry_by_entry :
  (forall (blocksData out : list loc) (st st' : state),
     sanitizeBlocks sanitizeHTML Tools blocksData st = Some (out, st') ->
     out = blocksData /\ length (blocks st') = length (blocks st))
  /\ (forall (block : loc) (rest : list loc) (st : state),
        sanitizeBlocks sanitizeHTML Tools (block :: rest) st =
          match sanitizeBlock sanitizeHTML Tools block st with
          | Some (block', st1) =>
              match sanitizeBlocks sanitizeHTML Tools rest st1 with
              | Some (rest', st2) => Some (block' :: rest', st2)
              | None => None
              end
          | None => None
          end)
  /\ (forall (block : loc) (st st1 : state) (b : Block) (toolConfig : loc)
             (rules : props),
        blocks st !! block = Some b ->
        composeToolConfig Tools (tool b) st = Some (toolConfig, st1) ->
        heap st1 !! toolConfig = Some rules ->
        (isEmpty (VObject rules) = true ->
         sanitizeBlock sanitizeHTML Tools block st = Some (block, st1)
         /\ blocks st1 !! block = Some b)
        /\ (isEmpty (VObject rules) = false ->
            forall cleaned calls,
              deepSanitize sanitizeHTML (data b) (VObject rules) = Some (cleaned, calls) ->
              exists st',
                sanitizeBlock sanitizeHTML Tools block st = Some (block, st')
                /\ blocks st' !! block = Some {| tool := tool b; data := cleaned |})).
Proof.
  split; [|split].
  - induction blocksData as [|block rest IH]; intros out st st' H.
    + by injection H as <- <-.
    + apply mapS_inv in H as (y & ys & st1 & Hy & Hys & ->).
      apply IH in Hys as [-> Hlen].
      pose proof (sanitizeBlock_blocks_length _ _ _ _ Hy) as Hlen1.
      apply sanitizeBlock_inv in Hy as [-> _].
      split; [done|]. by rewrite Hlen, Hlen1.
  - intros block rest st. unfold sanitizeBlocks. simpl. unfold bindS.
    destruct (sanitizeBlock sanitizeHTML Tools block st) as [[block' st1]|]; [|done].
    by destruct (mapS (sanitizeBlock sanitizeHTML Tools) rest st1) as [[rest' st2]|].
  - intros block st st1 b toolConfig rules Hb Hcompose Hrules.
    pose proof (composeToolConfig_blocks _ _ _ _ _ Hcompose) as Hsame.
    rewrite (sanitizeBlock_eq _ _ _ _ _ _ Hb Hcompose Hrules).
    split.
    + intros ->. split; [done|]. by rewrite Hsame.
    + intros -> cleaned calls ->. eexists. split; [done|]. simpl.
      apply list_lookup_insert_eq. rewrite Hsame. by eapply lookup_lt_Some.
Qed.

End Batch.

(** C8 on the example batch: the [paragraph] entry is cleaned under its
    composed rules, the [code] entry, whose composed rule set is empty, is
    left alone. *)
Lemma sanitizeBlocks_entry_by_entry_witness :
  (exists (out : list loc) (st' : state),
     sanitizeBlocks markCleaned exampleTools [0; 1] (init exampleBlocks) = Some (out, st')
     /\ out = [0; 1]
     /\ length (blocks st') = length exampleBlocks
     /\ blocks st' !! 0
        = Some {| tool := "paragraph";
                  data := VObject [("text", VString "cleaned:<i>Hello</i>")] |}
     /\ blocks st' !! 1 = exampleBlocks !! 1)
  /\ (exists st',
        sanitizeBlock markCleaned exampleTools 0 (init exampleBlocks) = Some (0, st')
        /\ blocks st' !! 0
           = Some {| tool := "paragraph";
                     data := VObject [("text", VString "cleaned:<i>Hello</i>")] |})
  /\ (exists st1,
        sanitizeBlock markCleaned exampleTools 1 (init exampleBlocks) = Some (1, st1)
        /\ blocks st1 !! 1 = exampleBlocks !! 1).
Proof.
  assert (sanitizeBlocks markCleaned exampleTools [0; 1] (init exampleBlocks)
          = exampleBatch) as Hrun by (vm_compute; reflexivity).
  assert (composeToolConfig exampleTools "paragraph" (init exampleBlocks)
          = paragraphComposedInBatch) as Hparagraph by (vm_compute; reflexivity).
  assert (composeToolConfig exampleTools "code" (init exampleBlocks)
          = codeComposedInBatch) as Hcode by (vm_compute; reflexivity).
  destruct (sanitizeBlocks_entry_by_entry markCleaned exampleTools)
    as (Hshape & _ & Hentry).
  split; [|split].
  - destruct (Hshape [0; 1] _ (init exampleBlocks) _ Hrun) as [Hout Hlen].
    eexists _, _. split; [exact Hrun|]. split; [exact Hout|]. split; [exact Hlen|].
    split; reflexivity.
  - destruct (Hentry 0 (init exampleBlocks) _ _ _ _ eq_refl Hparagraph eq_refl)
      as [_ Hclean].
    apply (Hclean eq_refl _ _ eq_refl).
  - destruct (Hentry 1 (init exampleBlocks) _ _ _ _ eq_refl Hcode eq_refl)
      as [Hleft _].
    eexists. apply (Hleft eq_refl).
Defined.


(** * Further properties of the tree sanitizer *)

Section LoopsForward.

Variable DS : value -> value -> M value.

(** The loop of [cleanArray], run forward. *)
Lemma cleanArray_intro (rule : value) (array : list value)
    (g : value -> value) (h : value -> list call) :
  (forall x, In x array -> DS x rule = Some (g x, h x)) ->
  cleanArray DS rule array = Some (map g array, concat (map h array)).
Proof.
  induction array as [|x array IH]; intros Hall; simpl; [done|].
  rewrite (Hall x) by (by left). simpl.
  rewrite IH by (intros y Hy; apply Hall; by right). simpl. by rewrite app_nil_r.
Qed.

(** The loop of [cleanObject], run forward. *)
Lemma cleanFields_intro (rules : value) (object : props)
    (g : string * value -> value) (h : string * value -> list call) :
  (forall kv, In kv object ->
     exists r, getProp rules kv.1 = Some r
               /\ DS kv.2 (if isRule r then r else rules) = Some (g kv, h kv)) ->
  forall cleanData,
    cleanFields DS rules object cleanData =
      Some (foldl (fun o kv => setProp o kv.1 kv.2) cleanData
                  (map (fun kv => (kv.1, g kv)) object),
            concat (map h object)).
Proof.
  induction object as [|[k v] object IH]; intros Hall cleanData; simpl; [done|].
  destruct (Hall (k, v)) as (r & Hr & Hv); [by left|]. simpl in Hr, Hv.
  rewrite Hr. simpl. rewrite Hv. simpl.
  by rewrite IH by (intros kv Hkv; apply Hall; by right).
Qed.

Lemma keys_map_snd (object : props) (g : string * value -> value) :
  keys (map (fun kv => (kv.1, g kv)) object) = keys object.
Proof. unfold keys. rewrite map_map. by apply map_ext. Qed.

Lemma cleanObject_intro (rules : value) (object : props)
    (g : string * value -> value) (h : string * value -> list call) :
  NoDup (keys object) ->
  (forall kv, In kv object ->
     exists r, getProp rules kv.1 = Some r
               /\ DS kv.2 (if isRule r then r else rules) = Some (g kv, h kv)) ->
  cleanObject DS object rules =
    Some (VObject (map (fun kv => (kv.1, g kv)) object), concat (map h object)).
Proof.
  intros Hnd Hall. unfold cleanObject.
  rewrite (cleanFields_intro _ _ g h Hall). simpl.
  rewrite setProp_all_fresh.
  - by rewrite app_nil_r.
  - by rewrite keys_map_snd.
  - intros k Hk. by apply elem_of_nil in Hk.
Qed.

End LoopsForward.

Section TreeMore.

Variable sanitizeHTML : string -> value -> string.

Lemma cleanOneItem_cleanedBy (s : string) (rule : value) :
  cleanOneItem sanitizeHTML s rule
  = Some (cleanedBy sanitizeHTML rule s, callsFor sanitizeHTML rule s).
Proof.
  unfold cleanedBy, callsFor.
  by destruct (cleanOneItem_total sanitizeHTML s rule) as (s' & c & ->).
Qed.

(** A rule works as a fallback for a whole tree: when no field name of the
    data has a rule-shaped entry in [rules], every string leaf is cleaned
    under [rules] itself, every [null] becomes an empty object, and
    everything else is kept. *)
Lemma deepSanitize_uniform (d : value) (rules : value) :
  distinctNames d = true ->
  (forall k, In k (fieldNames d) ->
     exists r, getProp rules k = Some r /\ isRule r = false) ->
  deepSanitize sanitizeHTML d rules
  = Some (mapLeaves (cleanedBy sanitizeHTML rules) d,
          concat (map (callsFor sanitizeHTML rules) (strings d))).
Proof.
  induction d as [| | | | | |items IH|o IH] using value_deep_ind;
    intros Hnames Hflat; try done.
  - simpl. rewrite cleanOneItem_cleanedBy. simpl. by rewrite !app_nil_r.
  - simpl in *. rewrite forallb_forall in Hnames.
    rewrite (cleanArray_intro _ _ _ (mapLeaves (cleanedBy sanitizeHTML rules))
               (fun x => concat (map (callsFor sanitizeHTML rules) (strings x)))).
    + simpl. rewrite app_nil_r. do 2 f_equal.
      clear. induction items as [|x items IHi]; simpl; [done|].
      by rewrite map_app, concat_app, IHi.
    + intros x Hx. rewrite Forall_forall in IH.
      apply IH; [by apply list_elem_of_In|by apply Hnames|].
      intros k Hk. apply Hflat. apply in_concat. exists (fieldNames x).
      split; [by apply in_map|done].
  - simpl in Hnames. apply andb_true_iff in Hnames as [Hnd Hnames].
    apply bool_decide_eq_true in Hnd. rewrite forallb_forall in Hnames.
    change (deepSanitize sanitizeHTML (VObject o) rules)
      with (cleanObject (deepSanitize sanitizeHTML) o rules).
    rewrite (cleanObject_intro _ _ _
               (fun kv => mapLeaves (cleanedBy sanitizeHTML rules) kv.2)
               (fun kv => concat (map (callsFor sanitizeHTML rules) (strings kv.2))) Hnd).
    + simpl. do 2 f_equal.
      clear. induction o as [|kv o IHo]; simpl; [done|].
      by rewrite map_app, concat_app, IHo.
    + intros kv Hkv.
      assert (In kv.1 (fieldNames (VObject o))) as Hk.
      { simpl. apply in_concat. exists (kv.1 :: fieldNames kv.2).
        split; [by apply (in_map (fun kv => kv.1 :: fieldNames kv.2))|by left]. }
      destruct (Hflat _ Hk) as (r & Hr & Hrule).
      exists r. split; [done|]. rewrite Hrule.
      rewrite Forall_forall in IH.
      apply IH; [by apply list_elem_of_In|by apply Hnames|].
      intros k Hk'. apply Hflat. simpl. apply in_concat.
      exists (kv.1 :: fieldNames kv.2).
      split; [by apply (in_map (fun kv => kv.1 :: fieldNames kv.2))|by right].
Qed.

Lemma nullFree_distinctNames (d : value) :
  nullFree d = true -> distinctNames d = true.
Proof.
  induction d as [| | | | | |items IH|o IH] using value_deep_ind; try done.
  - simpl. rewrite !forallb_forall.
    rewrite Forall_forall in IH.
    intros H x Hx. apply IH; [by apply list_elem_of_In|by apply H].
  - simpl. intros H. apply andb_true_iff in H as [Hnd H].
    rewrite Hnd. simpl. rewrite forallb_forall in *.
    rewrite Forall_forall in IH.
    intros kv Hkv. apply IH; [by apply list_elem_of_In|by apply H].
Qed.

Lemma mapLeaves_ext (f g : string -> string) (d : value) :
  (forall s, f s = g s) -> mapLeaves f d = mapLeaves g d.
Proof.
  intros Hfg.
  induction d as [| | | | | |items IH|o IH] using value_deep_ind; simpl; try done.
  - by rewrite Hfg.
  - f_equal. apply map_ext_in. intros x Hx. rewrite Forall_forall in IH.
    apply IH. by apply list_elem_of_In.
  - f_equal. apply map_ext_in. intros kv Hkv. rewrite Forall_forall in IH.
    f_equal. apply IH. by apply list_elem_of_In.
Qed.

Lemma mapLeaves_nullFree (d : value) :
  nullFree d = true -> mapLeaves (fun s => s) d = d.
Proof.
  induction d as [| | | | | |items IH|o IH] using value_deep_ind; simpl; try done.
  - rewrite forallb_forall. intros H. f_equal.
    rewrite <- (map_id items) at 2. apply map_ext_in. intros x Hx.
    rewrite Forall_forall in IH. apply IH; [by apply list_elem_of_In|by apply H].
  - intros H. apply andb_true_iff in H as [_ H]. rewrite forallb_forall in H.
    f_equal. rewrite <- (map_id o) at 2. apply map_ext_in. intros [k v] Hkv.
    rewrite Forall_forall in IH. simpl. f_equal.
    apply (IH (k, v)); [by apply list_elem_of_In|by apply (H (k, v))].
Qed.

Lemma concat_map_nil {A B} (l : list A) : concat (map (fun _ : A => @nil B) l) = [].
Proof. induction l; simpl; auto. Qed.

Lemma concat_map_singleton {A B} (f : A -> B) (l : list A) :
  concat (map (fun x => [f x]) l) = map f l.
Proof. induction l as [|x l IH]; simpl; [done|]. by rewrite IH. Qed.

(** X1.  A flat rule set works for a whole tree: when no field of the data
    is named like an entry of the rule set, every string leaf of the data,
    however deep, is handed to the cleaner with the rule set, in the order
    of the data, and replaced by what the cleaner returns; every [null]
    becomes an empty object and all else is kept. *)
Theorem deepSanitize_with_flat_rule_set (d : value) (tags : props) :
  distinctNames d = true ->
  (forall k, In k (fieldNames d) -> lookupProp k tags = None) ->
  deepSanitize sanitizeHTML d (VObject tags)
  = Some (mapLeaves (fun s => sanitizeHTML s (VObject tags)) d,
          map (fun s => (s, VObject tags)) (strings d)).
Proof.
  intros Hnames Habsent.
  rewrite deepSanitize_uniform; [|done|].
  - rewrite (mapLeaves_ext _ (fun s => sanitizeHTML s (VObject tags))) by done.
    rewrite (map_ext _ (fun s => [((s, VObject tags) : call)])) by done.
    by rewrite concat_map_singleton.
  - intros k Hk. exists VUndefined. simpl. by rewrite (Habsent k Hk).
Qed.

(** X2.  Under [true] as the rule nothing in the data is sanitized: data
    without [null] whose fields bear no inherited name comes back as it is
    and the cleaner is never called, however deep the strings are. *)
Theorem deepSanitize_pass_through (d : value) :
  nullFree d = true ->
  ordinaryNames d = true ->
  deepSanitize sanitizeHTML d (VBool true) = Some (d, []).
Proof.
  intros Hnf _.
  rewrite deepSanitize_uniform.
  - rewrite (mapLeaves_ext _ (fun s => s)), mapLeaves_nullFree by done.
    f_equal. f_equal.
    rewrite (map_ext _ (fun _ => [])) by done.
    apply concat_map_nil.
  - by apply nullFree_distinctNames.
  - intros k _. by exists VUndefined.
Qed.

(** X3.  Under [false], and under the empty rule set, every string leaf of
    data whose fields bear no inherited name is handed to the cleaner with
    the empty configuration, in the order of the data, and replaced by what
    the cleaner returns. *)
Theorem deepSanitize_strip_all (d rule : value) :
  distinctNames d = true ->
  ordinaryNames d = true ->
  rule = VBool false \/ rule = VObject [] ->
  deepSanitize sanitizeHTML d rule
  = Some (mapLeaves (fun s => sanitizeHTML s (VObject [])) d,
          map (fun s => (s, VObject [])) (strings d)).
Proof.
  intros Hnames _ Hrule.
  rewrite deepSanitize_uniform; [|done|].
  - rewrite (mapLeaves_ext _ (fun s => sanitizeHTML s (VObject [])))
      by (intros s; by destruct Hrule as [-> | ->]).
    rewrite (map_ext _ (fun s => [((s, VObject []) : call)]))
      by (intros s; by destruct Hrule as [-> | ->]).
    by rewrite concat_map_singleton.
  - intros k _. exists VUndefined. by destruct Hrule as [-> | ->].
Qed.

(** X9.  The cleaner is called on string leaves of the data only, each at most
    once and in the order of the data: the strings it is given are a
    subsequence of the string leaves. *)
Theorem deepSanitize_calls_are_leaves (d : value) :
  forall rules out calls,
    deepSanitize sanitizeHTML d rules = Some (out, calls) ->
    map fst calls `sublist_of` strings d.
Proof.
  induction d as [| | | | | |items IH|o IH] using value_deep_ind;
    intros rules out calls H; try (by injection H as <- <-).
  - simpl in H. apply bindM_inv in H as (s' & c1 & c2 & Hs & H & ->).
    injection H as _ <-. rewrite app_nil_r. simpl.
    unfold cleanOneItem, clean in Hs.
    destruct (jstype_eqb (typeof rules) TObject).
    + injection Hs as _ <-. done.
    + destruct rules as [| |[|]| | | | |]; injection Hs as _ <-; simpl;
        try done; by apply sublist_nil_l.
  - simpl in H. apply bindM_inv in H as (a & c1 & c2 & Ha & H & ->).
    injection H as _ <-. rewrite app_nil_r. simpl.
    revert a c1 Ha. induction IH as [|x l Hx _ IHl]; intros a c1 Ha; simpl in *.
    + by injection Ha as _ <-.
    + apply bindM_inv in Ha as (x' & cx & c3 & Hx' & Ha & ->).
      apply bindM_inv in Ha as (l' & cl & c4 & Hl & Ha & ->).
      injection Ha as _ <-. rewrite app_nil_r, map_app.
      apply sublist_app; [by eapply Hx|by eapply IHl].
  - change (cleanObject (deepSanitize sanitizeHTML) o rules = Some (out, calls)) in H.
    unfold cleanObject in H.
    apply bindM_inv in H as (cleanData & c1 & c2 & Hloop & H & ->).
    injection H as _ <-. rewrite app_nil_r. simpl.
    revert Hloop. generalize (@nil (string * value)) as acc.
    revert cleanData c1. induction IH as [|[k v] l Hx _ IHl];
      intros cleanData c1 acc Hloop; simpl in *.
    + by injection Hloop as _ <-.
    + apply bindM_inv in Hloop as (r & cr & c3 & Hr & Hloop & ->).
      apply liftM_inv in Hr as [_ ->].
      apply bindM_inv in Hloop as (v' & cv & c4 & Hv & Hloop & ->).
      simpl. rewrite map_app.
      apply sublist_app; [by eapply Hx|by eapply IHl].
Qed.

(** X4.  On data without [null] and without a field named [__proto__], a
    run that returns changes nothing but the contents of string leaves:
    arrays keep their length, objects their field names in their order,
    and the other leaves stay as they are. *)
Theorem deepSanitize_keeps_shape (d rules out : value) (c : list call) :
  nullFree d = true ->
  ~ In "__proto__" (fieldNames d) ->
  deepSanitize sanitizeHTML d rules = Some (out, c) ->
  sameShape d out.
Proof.
  intros Hnf _ H. by eapply deepSanitize_sameShape.
Qed.

(** X6.  [deepSanitize] returns for all data whose fields bear no inherited
    name, when the rules are a boolean or a plain object, made of plain
    objects and holding no [null]. *)
Theorem deepSanitize_returns_under_plain_rules (d rules : value) :
  ordinaryNames d = true ->
  isRule rules = true ->
  plainRules rules = true ->
  nullFree rules = true ->
  exists out c, deepSanitize sanitizeHTML d rules = Some (out, c).
Proof.
  intros _ Hrule _ Hnf. apply deepSanitize_total; [done|].
  by destruct rules.
Qed.

(** X5.  The shape of the result, [null] included: for data without a
    field named [__proto__] it is the shape of the data in which every
    [null] has become an empty object. *)
Theorem deepSanitize_shape (d : value) :
  ~ In "__proto__" (fieldNames d) ->
  forall rules out c,
    distinctNames d = true ->
    deepSanitize sanitizeHTML d rules = Some (out, c) ->
    sameShape (mapLeaves (fun s => s) d) out.
Proof.
  intros _.
  induction d as [| | | | | |items IH|o IH] using value_deep_ind;
    intros rules out c Hnames H.
  - injection H as <- <-. by apply shape_leaf.
  - injection H as <- <-. apply shape_object. constructor.
  - injection H as <- <-. by apply shape_leaf.
  - injection H as <- <-. by apply shape_leaf.
  - simpl in H. apply bindM_inv in H as (s' & c1 & c2 & _ & H & _).
    injection H as <- _. apply shape_string.
  - injection H as <- <-. by apply shape_leaf.
  - simpl in H. apply bindM_inv in H as (a & c1 & c2 & Ha & H & _).
    injection H as <- _. simpl. apply shape_array.
    apply cleanArray_inv in Ha. simpl in Hnames.
    rewrite forallb_forall in Hnames.
    revert IH Hnames. clear -Ha.
    induction Ha as [|x x' l l' (cx & Hx & _) _ IHl]; intros IH Hnames;
      [constructor|].
    apply Forall_cons in IH as [IHx IH]. simpl. constructor.
    + eapply IHx; [|exact Hx]. apply Hnames. by left.
    + apply IHl; [done|]. intros y Hy. apply Hnames. by right.
  - simpl in Hnames. apply andb_true_iff in Hnames as [Hnd Hnames].
    apply bool_decide_eq_true in Hnd.
    change (cleanObject (deepSanitize sanitizeHTML) o rules = Some (out, c)) in H.
    destruct (cleanObject_inv _ _ _ _ _ Hnd H) as (cleaned & -> & Hall).
    simpl. apply shape_object.
    rewrite forallb_forall in Hnames.
    revert IH Hnames. clear -Hall.
    induction Hall as [|kv kv' l l' (Hk & r & cx & _ & Hx & _) _ IHl];
      intros IH Hnames; [constructor|].
    apply Forall_cons in IH as [IHx IH]. simpl. constructor.
    + split; [done|]. eapply IHx; [|exact Hx]. apply (Hnames kv). by left.
    + apply IHl; [done|]. intros y Hy. apply Hnames. by right.
Qed.

(** ** Sanitizing twice *)

Section Idempotent.

Hypothesis sanitizeHTML_idempotent :
  forall s config, sanitizeHTML (sanitizeHTML s config) config = sanitizeHTML s config.

Lemma cleanOneItem_idempotent (s s' : string) (rule : value) (c : list call) :
  cleanOneItem sanitizeHTML s rule = Some (s', c) ->
  exists c', cleanOneItem sanitizeHTML s' rule = Some (s', c').
Proof.
  unfold cleanOneItem, clean.
  destruct (jstype_eqb (typeof rule) TObject).
  - intros [= <- _]. rewrite sanitizeHTML_idempotent. eauto.
  - destruct rule as [| |[|]| | | | |]; intros [= <- _];
      rewrite ?sanitizeHTML_idempotent; eauto.
Qed.

Lemma cleanArray_fixed (rule : value) (array : list value) :
  Forall (fun x => exists c, deepSanitize sanitizeHTML x rule = Some (x, c)) array ->
  exists c, cleanArray (deepSanitize sanitizeHTML) rule array = Some (array, c).
Proof.
  induction 1 as [|x l (cx & Hx) _ (cl & Hl)]; simpl; [by eexists|].
  rewrite Hx. simpl. rewrite Hl. simpl. eauto.
Qed.

Lemma cleanFields_fixed (rules : value) (object : props) :
  Forall (fun kv => exists r c,
            getProp rules kv.1 = Some r
            /\ deepSanitize sanitizeHTML kv.2 (if isRule r then r else rules)
               = Some (kv.2, c)) object ->
  forall cleanData, exists c,
    cleanFields (deepSanitize sanitizeHTML) rules object cleanData
    = Some (foldl (fun o kv => setProp o kv.1 kv.2) cleanData object, c).
Proof.
  induction 1 as [|[k v] l (r & cx & Hr & Hx) _ IHl]; intros cleanData; simpl;
    [by eexists|].
  simpl in Hr, Hx. rewrite Hr. simpl. rewrite Hx. simpl.
  destruct (IHl (setProp cleanData k v)) as (c & ->). eauto.
Qed.

(** X10.  With a cleaner that is idempotent for each configuration,
    [deepSanitize] is idempotent: sanitizing its result again under the
    same rules gives that result back. *)
Theorem deepSanitize_idempotent (d : value) :
  forall rules out c,
    distinctNames d = true ->
    deepSanitize sanitizeHTML d rules = Some (out, c) ->
    exists c', deepSanitize sanitizeHTML out rules = Some (out, c').
Proof.
  induction d as [| | | | | |items IH|o IH] using value_deep_ind;
    intros rules out c Hnames H;
    try (injection H as <- <-; by eexists).
  - simpl in H. apply bindM_inv in H as (s' & c1 & c2 & Hs & H & _).
    injection H as <- _.
    destruct (cleanOneItem_idempotent _ _ _ _ Hs) as (c' & Hs').
    simpl. rewrite Hs'. simpl. eauto.
  - simpl in H. apply bindM_inv in H as (a & c1 & c2 & Ha & H & _).
    injection H as <- _.
    apply cleanArray_inv in Ha. simpl in Hnames. rewrite forallb_forall in Hnames.
    destruct (cleanArray_fixed rules a) as (c' & Hfixed).
    { revert IH Hnames. clear -Ha.
      induction Ha as [|x x' l l' (cx & Hx & _) _ IHl]; intros IH Hnames;
        [constructor|].
      apply Forall_cons in IH as [IHx IH]. constructor.
      - eapply IHx; [|exact Hx]. apply Hnames. by left.
      - apply IHl; [done|]. intros y Hy. apply Hnames. by right. }
    simpl. rewrite Hfixed. simpl. eauto.
  - simpl in Hnames. apply andb_true_iff in Hnames as [Hnd Hnames].
    apply bool_decide_eq_true in Hnd. rewrite forallb_forall in Hnames.
    change (cleanObject (deepSanitize sanitizeHTML) o rules = Some (out, c)) in H.
    destruct (cleanObject_inv _ _ _ _ _ Hnd H) as (cleaned & -> & Hall).
    assert (keys cleaned = keys o) as Hkeys.
    { clear -Hall. induction Hall as [|[??] [??] ?? [Hk _]]; simpl in *; congruence. }
    assert (Forall (fun kv => exists r c,
                      getProp rules kv.1 = Some r
                      /\ deepSanitize sanitizeHTML kv.2 (if isRule r then r else rules)
                         = Some (kv.2, c)) cleaned) as Hfix.
    { revert IH Hnames. clear -Hall.
      induction Hall as [|kv kv' l l' (Hk & r & cx & Hr & Hx & _) _ IHl];
        intros IH Hnames; [constructor|].
      apply Forall_cons in IH as [IHx IH]. constructor.
      - rewrite <- Hk. destruct (IHx _ _ _ (Hnames kv ltac:(by left)) Hx) as (c' & Hx').
        by exists r, c'.
      - apply IHl; [done|]. intros y Hy. apply Hnames. by right. }
    destruct (cleanFields_fixed rules cleaned Hfix []) as (c' & Hfixed).
    change (deepSanitize sanitizeHTML (VObject cleaned) rules)
      with (cleanObject (deepSanitize sanitizeHTML) cleaned rules).
    unfold cleanObject. rewrite Hfixed. simpl.
    rewrite setProp_all_fresh.
    + eauto.
    + by rewrite Hkeys.
    + intros k Hk. by apply elem_of_nil in Hk.
Qed.

End Idempotent.

(** X8.  A field whose entry in the rules is rule-shaped is cleaned under that
    entry, and the rules of the enclosing object play no part in it. *)
Theorem rule_entry_is_used_for_its_field
    (object : props) (rules : value) (fieldName : string) (item r out : value)
    (calls : list call) :
  NoDup (keys object) ->
  (fieldName, item) ∈ object ->
  getProp rules fieldName = Some r ->
  isRule r = true ->
  deepSanitize sanitizeHTML (VObject object) rules = Some (out, calls) ->
  exists item' c,
    deepSanitize sanitizeHTML item r = Some (item', c)
    /\ c ⊆ calls
    /\ getProp out fieldName = Some item'.
Proof.
  intros Hnd Hin Hr Hrule H.
  change (cleanObject (deepSanitize sanitizeHTML) object rules = Some (out, calls)) in H.
  destruct (cleanObject_field _ _ _ _ _ _ _ Hnd Hin H)
    as (r' & item' & cx & Hr' & Hds & Hsub & Hout).
  rewrite Hr in Hr'. injection Hr' as <-. rewrite Hrule in Hds.
  by exists item', cx.
Qed.

(** ** When [deepSanitize] throws *)

Lemma cleanFields_throws (DS : value -> value -> M value) (rules : value)
    (object : props) (k : string) (v : value) :
  In (k, v) object ->
  (forall r, getProp rules k = Some r -> DS v (if isRule r then r else rules) = None) ->
  forall cleanData, cleanFields DS rules object cleanData = None.
Proof.
  intros Hin Hthrows. induction object as [|[k0 v0] object IH]; intros cleanData;
    [done|]. simpl.
  destruct (getProp rules k0) as [r|] eqn:Hr; simpl; [|done].
  destruct (DS v0 (if isRule r then r else rules)) as [[v' c]|] eqn:Hv; simpl; [|done].
  destruct Hin as [[= -> ->]|Hin].
  - by rewrite (Hthrows r Hr) in Hv.
  - by rewrite IH.
Qed.

(** X7.  [deepSanitize] throws a [TypeError] when it has to look a field name up
    in a rule that is [null] or [undefined]: on a mapping with at least one
    field under such a rule, and on a mapping one of whose fields holds a
    mapping with at least one field while its entry in the rules is [null]. *)
Theorem deepSanitize_throws_without_rules :
  (forall (field : string * value) (object : props) (rules : value),
     rules = VNull \/ rules = VUndefined ->
     deepSanitize sanitizeHTML (VObject (field :: object)) rules = None)
  /\ (forall (object inner : props) (k : string) (field : string * value)
             (rules : value),
        In (k, VObject (field :: inner)) object ->
        getProp rules k = Some VNull ->
        deepSanitize sanitizeHTML (VObject object) rules = None).
Proof.
  assert (forall (field : string * value) (object : props) (rules : value),
            rules = VNull \/ rules = VUndefined ->
            deepSanitize sanitizeHTML (VObject (field :: object)) rules = None)
    as Hfirst.
  { intros [k v] object rules [-> | ->]; done. }
  split; [exact Hfirst|].
  intros object inner k field rules Hin Hr.
  change (cleanObject (deepSanitize sanitizeHTML) object rules = None).
  unfold cleanObject.
  rewrite (cleanFields_throws _ _ _ _ _ Hin); [done|].
  intros r Hr'. rewrite Hr in Hr'. injection Hr' as <-. simpl isRule. cbv iota.
  apply Hfirst. by left.
Qed.

End TreeMore.

Lemma dropBrackets_idempotent (s : string) :
  dropBrackets (dropBrackets s) = dropBrackets s.
Proof.
  induction s as [|c s IH]; [done|]. cbn [dropBrackets].
  destruct (String.eqb (String c EmptyString) "<" || String.eqb (String c EmptyString) ">")
    eqn:Hc; [exact IH|].
  cbn [dropBrackets]. by rewrite Hc, IH.
Qed.

(** The properties above on the example data. *)

Lemma deepSanitize_keeps_shape_witness :
  sameShape exampleData
    (VObject [("text", VString "cleaned:<i>Hello</i>");
              ("items", VArray [VString "cleaned:<b>one</b>"; VString "cleaned:two"]);
              ("level", VNumber 2);
              ("checked", VBool true)]).
Proof.
  eapply (deepSanitize_keeps_shape markCleaned exampleData (VObject [("b", VBool true)])).
  - vm_compute. reflexivity.
  - simpl. intros [H|[H|[H|[H|[]]]]]; discriminate H.
  - vm_compute. reflexivity.
Defined.

Lemma deepSanitize_returns_under_plain_rules_witness :
  exists out c,
    deepSanitize markCleaned exampleData
      (VObject [("text", VObject [("b", VBool true)]); ("level", VNumber 1)])
    = Some (out, c).
Proof.
  apply (deepSanitize_returns_under_plain_rules markCleaned exampleData
           (VObject [("text", VObject [("b", VBool true)]); ("level", VNumber 1)]));
    vm_compute; reflexivity.
Defined.

Lemma deepSanitize_with_flat_rule_set_witness :
  deepSanitize markCleaned exampleData (VObject [("b", VBool true)])
  = Some (mapLeaves (fun s => markCleaned s (VObject [("b", VBool true)])) exampleData,
          map (fun s => (s, VObject [("b", VBool true)])) (strings exampleData)).
Proof.
  apply (deepSanitize_with_flat_rule_set markCleaned exampleData [("b", VBool true)]).
  - vm_compute. reflexivity.
  - intros k Hk. simpl in Hk. by destruct Hk as [<-|[<-|[<-|[<-|[]]]]].
Defined.

Lemma deepSanitize_pass_through_witness :
  deepSanitize markCleaned exampleData (VBool true) = Some (exampleData, []).
Proof.
  apply (deepSanitize_pass_through markCleaned exampleData);
    vm_compute; reflexivity.
Defined.

Lemma deepSanitize_strip_all_witness :
  deepSanitize markCleaned (VArray [VNull; VString "<b>x</b>"]) (VBool false)
  = Some (mapLeaves (fun s => markCleaned s (VObject []))
            (VArray [VNull; VString "<b>x</b>"]),
          map (fun s => (s, VObject [])) (strings (VArray [VNull; VString "<b>x</b>"]))).
Proof.
  apply (deepSanitize_strip_all markCleaned (VArray [VNull; VString "<b>x</b>"])).
  - reflexivity.
  - reflexivity.
  - by left.
Defined.

Lemma deepSanitize_calls_are_leaves_witness :
  map fst [("<i>Hello</i>", VObject [])] `sublist_of` strings exampleData.
Proof.
  apply (deepSanitize_calls_are_leaves markCleaned exampleData
           (VObject [("text", VBool false); ("items", VBool true)])
           (VObject [("text", VString "cleaned:<i>Hello</i>");
                     ("items", VArray [VString "<b>one</b>"; VString "two"]);
                     ("level", VNumber 2);
                     ("checked", VBool true)])).
  vm_compute. reflexivity.
Defined.

Lemma deepSanitize_shape_witness :
  sameShape (mapLeaves (fun s => s) (VArray [VNull; VString "<b>x</b>"]))
            (VArray [VObject []; VString "cleaned:<b>x</b>"]).
Proof.
  eapply (deepSanitize_shape markCleaned (VArray [VNull; VString "<b>x</b>"])
            (fun H : False => H) (VObject [])).
  - reflexivity.
  - vm_compute. reflexivity.
Defined.

Lemma deepSanitize_idempotent_witness :
  exists c',
    deepSanitize dropMarkup
      (VObject [("text", VString "iHello/i");
                ("items", VArray [VString "bone/b"; VString "two"]);
                ("level", VNumber 2);
                ("checked", VBool true)])
      (VObject [("b", VBool true)])
    = Some (VObject [("text", VString "iHello/i");
                     ("items", VArray [VString "bone/b"; VString "two"]);
                     ("level", VNumber 2);
                     ("checked", VBool true)], c').
Proof.
  eapply (deepSanitize_idempotent dropMarkup
            (fun s _ => dropBrackets_idempotent s)
            exampleData (VObject [("b", VBool true)])).
  - vm_compute. reflexivity.
  - vm_compute. reflexivity.
Defined.

Lemma rule_entry_is_used_for_its_field_witness :
  exists item' c,
    deepSanitize markCleaned (VString "<i>Hello</i>") (VBool false) = Some (item', c)
    /\ c ⊆ [("<i>Hello</i>", VObject []); ("<b>one</b>", VObject [("text", VBool false)]);
            ("two", VObject [("text", VBool false)])]
    /\ getProp (VObject [("text", VString "cleaned:<i>Hello</i>");
                         ("items", VArray [VString "cleaned:<b>one</b>"; VString "cleaned:two"]);
                         ("level", VNumber 2);
                         ("checked", VBool true)]) "text" = Some item'.
Proof.
  apply (rule_entry_is_used_for_its_field markCleaned
           [("text", VString "<i>Hello</i>");
            ("items", VArray [VString "<b>one</b>"; VString "two"]);
            ("level", VNumber 2);
            ("checked", VBool true)]
           (VObject [("text", VBool false)]) "text" (VString "<i>Hello</i>") (VBool false)).
  - apply (bool_decide_unpack (NoDup _)). vm_compute. exact I.
  - apply elem_of_cons. by left.
  - reflexivity.
  - reflexivity.
  - vm_compute. reflexivity.
Defined.

Lemma deepSanitize_throws_without_rules_witness :
  deepSanitize markCleaned
    (VObject [("list", VObject [("style", VString "ordered")])])
    (VObject [("list", VNull)]) = None.
Proof.
  apply (proj2 (deepSanitize_throws_without_rules markCleaned)
           [("list", VObject [("style", VString "ordered")])] []
           "list" ("style", VString "ordered")).
  - by left.
  - reflexivity.
Defined.


(** * Further properties of the rule composer *)

Section ComposerMore.

Variable sanitizeHTML : string -> value -> string.
Variable Tools : ToolsRegistry.

(** X11.  The aggregate of the inline tools is computed once: whatever state
    [getAllInlineToolsConfig] is called in, it leaves the cache filled with
    the object it returns, and from then on every call returns that object
    without touching the state, whatever the module does in between. *)
Theorem getAllInlineToolsConfig_computed_once (st st' : state) (l : loc) :
  getAllInlineToolsConfig Tools st = Some (l, st') ->
  inlineToolsConfigCache st' = Some l
  /\ (inlineToolsConfigCache st = Some l -> st' = st)
  /\ (forall (os : list operation) (st'' : state),
        performAll sanitizeHTML Tools os st' = Some st'' ->
        getAllInlineToolsConfig Tools st'' = Some (l, st'')).
Proof.
  intros H.
  assert (inlineToolsConfigCache st' = Some l) as Hc.
  { rewrite getAllInlineToolsConfig_eq in H.
    destruct (inlineToolsConfigCache st) as [c|] eqn:Hc0.
    - by injection H as <- <-.
    - destruct (allInline Tools); [|done]. by injection H as <- <-. }
  split; [done|]. split.
  - intros Hc0. rewrite getAllInlineToolsConfig_eq, Hc0 in H. by injection H as <-.
  - intros os st'' Hos. apply performAll_evolves in Hos as (_ & Hkeep & _).
    by rewrite getAllInlineToolsConfig_eq, (Hkeep _ Hc).
Qed.

(** X12.  In the aggregate, the inline tool that the registry enumerates last
    has the last word: every entry of its rules is an entry of the
    aggregate. *)
Theorem aggregate_last_tool_wins
    (tools : props) (n : string) (inlineTool : value) (rules U : props)
    (k : string) (v : value) :
  inline Tools = tools ++ [(n, inlineTool)] ->
  getProp inlineTool (SANITIZE_CONFIG Tools) = Some (VObject rules) ->
  NoDup (keys rules) ->
  allInline Tools = Some U ->
  lookupProp k rules = Some v ->
  lookupProp k U = Some v.
Proof.
  intros Hinline Hrules Hnd HU Hk. unfold allInline in HU.
  rewrite Hinline, foldl_snoc in HU. simpl in HU.
  apply bind_Some in HU as (U0 & _ & HU).
  unfold mergeInline in HU. rewrite Hrules in HU. simpl in HU.
  injection HU as <-.
  rewrite lookupProp_assign. cbn [ownEntries].
  rewrite lookupProp_reverse by done. by rewrite Hk.
Qed.

Lemma namedInline_unknown (names : list value) (n : string) :
  In (VString n) names ->
  lookupProp n (inline Tools) = None ->
  forall config, namedInline Tools config names = None.
Proof.
  intros Hin Hunknown.
  induction names as [|name names IH]; intros config; [done|]. simpl.
  destruct name as [| | | |s| | |]; try done.
  destruct (mergeInline Tools config _) as [config'|] eqn:Hmerge; simpl; [|done].
  destruct Hin as [[= ->]|Hin]; [|by apply IH].
  by rewrite Hunknown in Hmerge.
Qed.

(** X13.  [getInlineToolsConfig] throws
    - when the registry has no settings object for the tool;
    - when the setting [inlineToolbar] is truthy and is neither [true] nor a
      list ([.map] is not a function);
    - when the list names an inline tool that is not registered. *)
Theorem getInlineToolsConfig_throws (name : string) (st : state) :
  (forall settings,
     getToolSettings Tools name = Some settings ->
     settings = VUndefined \/ settings = VNull ->
     getInlineToolsConfig Tools name st = None)
  /\ (forall settings inlineToolbar,
        getToolSettings Tools name = Some settings ->
        getProp settings "inlineToolbar" = Some inlineToolbar ->
        truthy inlineToolbar = true ->
        inlineToolbar <> VBool true ->
        isArray inlineToolbar = false ->
        getInlineToolsConfig Tools name st = None)
  /\ (forall settings names n,
        getToolSettings Tools name = Some settings ->
        getProp settings "inlineToolbar" = Some (VArray names) ->
        In (VString n) names ->
        lookupProp n (inline Tools) = None ->
        getInlineToolsConfig Tools name st = None).
Proof.
  split; [|split].
  - intros settings Hsettings Hbad. unfold getInlineToolsConfig.
    rewrite (bindS_eq _ _ _ _ tt eq_refl).
    rewrite (bindS_eq _ _ _ _ settings) by (unfold liftS; by rewrite Hsettings).
    by destruct Hbad as [-> | ->].
  - intros settings inlineToolbar Hsettings Htoolbar Htruthy Hnottrue Hnotarray.
    unfold getInlineToolsConfig.
    rewrite (bindS_eq _ _ _ _ tt eq_refl).
    rewrite (bindS_eq _ _ _ _ settings) by (unfold liftS; by rewrite Hsettings).
    rewrite (bindS_eq _ _ _ _ inlineToolbar) by (unfold liftS; by rewrite Htoolbar).
    rewrite (bindS_eq _ _ _ _ _ eq_refl). rewrite Htruthy.
    by destruct inlineToolbar as [| |[|]| | | | |].
  - intros settings names n Hsettings Htoolbar Hin Hunknown.
    unfold getInlineToolsConfig.
    rewrite (bindS_eq _ _ _ _ tt eq_refl).
    rewrite (bindS_eq _ _ _ _ settings) by (unfold liftS; by rewrite Hsettings).
    rewrite (bindS_eq _ _ _ _ (VArray names)) by (unfold liftS; by rewrite Htoolbar).
    rewrite (bindS_eq _ _ _ _ _ eq_refl).
    simpl. unfold bindS.
    rewrite (forEach_enableInline _ _ _ _ [])
      by (simpl; by apply list_lookup_middle).
    by rewrite (namedInline_unknown _ _ Hin Hunknown).
Qed.

Lemma composeToolConfig_unknown_tool_throws (toolName : string) (st : state) :
  configCache st !! toolName = None ->
  lookupProp toolName (available Tools) = None ->
  composeToolConfig Tools toolName st = None.
Proof.
  intros Hmiss Hunknown. unfold composeToolConfig.
  rewrite (bindS_eq _ _ _ _ _ eq_refl). rewrite Hmiss.
  rewrite (bindS_eq _ _ _ _ tt eq_refl).
  rewrite (bindS_eq _ _ _ _ VUndefined)
    by (unfold liftS; simpl; by rewrite Hunknown).
  simpl. unfold bindS.
  by destruct (getInlineToolsConfig Tools toolName _) as [[baseConfig stb]|].
Qed.

(** X14.  For a tool that is not registered, [composeToolConfig] throws,
    unless a configuration for that name is in the cache, which it then
    returns without a look at the registry. *)
Theorem composeToolConfig_unregistered_tool (toolName : string) (st : state) :
  lookupProp toolName (available Tools) = None ->
  composeToolConfig Tools toolName st =
    match configCache st !! toolName with
    | Some l => Some (l, st)
    | None => None
    end.
Proof.
  intros Hunknown. destruct (configCache st !! toolName) as [l|] eqn:Hc.
  - by apply composeToolConfig_hit.
  - by apply composeToolConfig_unknown_tool_throws.
Qed.

Lemma writes_all_fresh (step : props -> string * value -> props) (g : value -> value)
    (l : props) :
  (forall o kv, step o kv = setProp o kv.1 (g kv.2)) ->
  NoDup (keys l) ->
  forall acc,
    (forall k, k ∈ keys acc -> k ∉ keys l) ->
    foldl step acc l = acc ++ map (fun kv => (kv.1, g kv.2)) l.
Proof.
  intros Hstep. induction l as [|[k v] l IH]; intros Hnd acc Hdisj; simpl.
  - by rewrite app_nil_r.
  - apply NoDup_cons in Hnd as [Hk Hnd].
    rewrite Hstep. simpl. rewrite setProp_fresh.
    + rewrite IH; [by rewrite <- app_assoc|done|].
      intros k0 Hk0. unfold keys in Hk0. rewrite map_app in Hk0.
      apply elem_of_app in Hk0 as [Hk0|Hk0].
      * specialize (Hdisj k0 Hk0). simpl in Hdisj.
        by apply not_elem_of_cons in Hdisj as [_ ?].
      * simpl in Hk0. apply list_elem_of_singleton in Hk0 as ->. done.
    + intros Hin. apply (Hdisj k Hin). simpl. apply elem_of_cons; by left.
Qed.

(** The composed configuration has exactly the fields the tool declares,
    in the order of the declaration. *)
Lemma keys_composeRules (baseConfig : props) (toolRules : value) :
  NoDup (keys (ownEntries toolRules)) ->
  keys (composeRules baseConfig toolRules) = keys (ownEntries toolRules).
Proof.
  intros Hnd. unfold composeRules.
  rewrite (writes_all_fresh _ (mergeRule baseConfig)).
  - simpl. unfold keys. rewrite map_map. by apply map_ext.
  - intros. apply composeField_setProp.
  - done.
  - intros k Hk. by apply elem_of_nil in Hk.
Qed.

(** X15.  A declared field rule that is not an object ([true], [false], a
    function) is put into the composed configuration as it is. *)
Theorem declared_plain_rule_is_kept
    (toolName f : string) (st st' : state) (l : loc)
    (toolClass sanitize rule : value) :
  configCache st !! toolName = None ->
  getProp (VObject (available Tools)) toolName = Some toolClass ->
  getProp toolClass "sanitize" = Some sanitize ->
  declaresRules Tools toolClass = true ->
  NoDup (keys (ownEntries sanitize)) ->
  lookupProp f (ownEntries sanitize) = Some rule ->
  jstype_eqb (typeof rule) TObject = false ->
  composeToolConfig Tools toolName st = Some (l, st') ->
  exists toolConfig,
    heap st' !! l = Some toolConfig
    /\ keys toolConfig = keys (ownEntries sanitize)
    /\ lookupProp f toolConfig = Some rule
    /\ configCache st' !! toolName = Some l.
Proof.
  intros Hmiss Hclass Hsanitize Hdeclares Hnd Hf Hplain H.
  destruct (composeToolConfig_miss _ _ _ _ _ Hmiss H)
    as (toolClass' & sanitize' & declared & baseConfig & stb
        & Hclass' & Hsanitize' & Hdeclared & Hbase & Hres).
  rewrite Hclass in Hclass'. injection Hclass' as <-.
  rewrite Hsanitize in Hsanitize'. injection Hsanitize' as <-.
  unfold declaresRules in Hdeclares. rewrite Hsanitize, Hdeclared in Hdeclares.
  apply negb_true_iff in Hdeclares. rewrite Hdeclares in Hres.
  destruct Hres as (base & Hb & -> & ->).
  exists (composeRules base sanitize). simpl.
  split; [by apply list_lookup_middle|]. split; [|split].
  - by apply keys_composeRules.
  - rewrite (lookupProp_composeRules _ _ _ _ Hnd Hf). unfold mergeRule.
    by rewrite Hplain.
  - apply lookup_insert_eq.
Qed.

(** ** The cache of composed configurations *)

Lemma getInlineToolsConfig_configCache (name : string) (st st' : state) (l : loc) :
  getInlineToolsConfig Tools name st = Some (l, st') -> configCache st' = configCache st.
Proof.
  intros H. by apply getInlineToolsConfig_inv in H as (? & ? & _ & _ & -> & _).
Qed.

Lemma composeToolConfig_configCache (toolName : string) (st st' : state) (l : loc) :
  composeToolConfig Tools toolName st = Some (l, st') ->
  forall n c, configCache st !! n = Some c -> configCache st' !! n = Some c.
Proof.
  intros H n c Hn. destruct (configCache st !! toolName) as [c0|] eqn:Hc.
  - rewrite (composeToolConfig_hit _ _ _ _ Hc) in H. by injection H as _ <-.
  - destruct (composeToolConfig_miss _ _ _ _ _ Hc H)
      as (toolClass & sanitize & declared & baseConfig & stb & _ & _ & _ & Hbase & Hres).
    apply getInlineToolsConfig_configCache in Hbase. simpl in Hbase.
    destruct (negb (truthy sanitize) || truthy declared && isEmpty declared).
    + destruct Hres as [_ ->]. by rewrite Hbase.
    + destruct Hres as (base & _ & _ & ->). simpl. rewrite Hbase.
      rewrite lookup_insert_ne; [done|]. intros ->. congruence.
Qed.

Lemma sanitizeBlocks_configCache (blocksData out : list loc) :
  forall st st',
    sanitizeBlocks sanitizeHTML Tools blocksData st = Some (out, st') ->
    forall n c, configCache st !! n = Some c -> configCache st' !! n = Some c.
Proof.
  unfold sanitizeBlocks. revert out.
  induction blocksData as [|block rest IH]; intros out st st' H n c Hn.
  - by injection H as _ <-.
  - apply mapS_inv in H as (y & ys & st1 & Hy & Hys & _).
    eapply IH; [exact Hys|].
    apply sanitizeBlock_inv in Hy
      as (_ & b & toolConfig & st0 & rules & _ & Hcompose & _ & Hres).
    pose proof (composeToolConfig_configCache _ _ _ _ Hcompose n c Hn) as Hn0.
    destruct (isEmpty (VObject rules)); [by subst|].
    by destruct Hres as (cleaned & calls & _ & ->).
Qed.

Lemma performAll_configCache (os : list operation) :
  forall (st st' : state) (toolName : string) (l : loc),
    performAll sanitizeHTML Tools os st = Some st' ->
    configCache st !! toolName = Some l ->
    configCache st' !! toolName = Some l.
Proof.
  induction os as [|o os IH]; intros st st' toolName l; simpl.
  - by intros [= <-].
  - intros H Hl. apply bind_Some in H as (st1 & Ho & Hos).
    eapply IH; [exact Hos|].
    destruct o as [t|name| |blocksData]; simpl in Ho;
      apply fmap_Some in Ho as ([r st0] & Ho & ->); simpl.
    + by eapply composeToolConfig_configCache.
    + by rewrite (getInlineToolsConfig_configCache _ _ _ _ Ho).
    + rewrite getAllInlineToolsConfig_eq in Ho.
      destruct (inlineToolsConfigCache st); [by injection Ho as _ <-|].
      destruct (allInline Tools); [|done]. by injection Ho as _ <-.
    + by eapply sanitizeBlocks_configCache.
Qed.

(** X16.  An entry of [configCache] is never removed or replaced: whatever
    the module does, a tool that has a cached configuration keeps it, and
    [composeToolConfig] returns it without changing the state. *)
Theorem configCache_is_never_invalidated (os : list operation) :
  forall (st st' : state) (toolName : string) (l : loc),
    performAll sanitizeHTML Tools os st = Some st' ->
    configCache st !! toolName = Some l ->
    configCache st' !! toolName = Some l
    /\ composeToolConfig Tools toolName st' = Some (l, st').
Proof.
  intros st st' toolName l H Hl.
  pose proof (performAll_configCache _ _ _ _ _ H Hl) as Hl'.
  split; [done|]. by apply composeToolConfig_hit.
Qed.

Lemma getInlineToolsConfig_cachesSound (name : string) (st st' : state) (l : loc) :
  cachesSound st -> getInlineToolsConfig Tools name st = Some (l, st') ->
  cachesSound st'.
Proof.
  intros [Hcfg Hagg] H.
  apply getInlineToolsConfig_inv in H
    as (settings & inlineToolbar & _ & _ & Hcc & _ & H).
  unfold cachesSound. rewrite Hcc.
  destruct (jstype_eqb (typeof inlineToolbar) TBoolean && truthy inlineToolbar).
  - destruct (inlineToolsConfigCache st) as [cached|] eqn:Hcache.
    + destruct H as (-> & -> & _ & p & _ & ->).
      rewrite length_insert, length_app. simpl. split.
      * intros n c Hn. destruct (Hcfg n c Hn). split; [lia|done].
      * intros c [= <-]. specialize (Hagg _ eq_refl). lia.
    + destruct H as (U & _ & -> & -> & _ & ->).
      rewrite length_app. simpl. split.
      * intros n c Hn. destruct (Hcfg n c Hn). split; [lia|]. intros [= ?]. lia.
      * intros c [= <-]. lia.
  - destruct H as (names & config & _ & _ & _ & -> & _ & ->).
    rewrite length_app. simpl. split.
    + intros n c Hn. destruct (Hcfg n c Hn). split; [lia|done].
    + intros c Hc. specialize (Hagg _ Hc). lia.
Qed.

Lemma composeToolConfig_cachesSound (toolName : string) (st st' : state) (l : loc) :
  cachesSound st -> composeToolConfig Tools toolName st = Some (l, st') ->
  cachesSound st'.
Proof.
  intros Hsound H. destruct (configCache st !! toolName) as [c|] eqn:Hc.
  - rewrite (composeToolConfig_hit _ _ _ _ Hc) in H. by injection H as _ <-.
  - destruct (composeToolConfig_miss _ _ _ _ _ Hc H)
      as (toolClass & sanitize & declared & baseConfig & stb & _ & _ & _ & Hbase & Hres).
    apply getInlineToolsConfig_cachesSound in Hbase; [|done].
    destruct (negb (truthy sanitize) || truthy declared && isEmpty declared).
    + by destruct Hres as [_ ->].
    + destruct Hres as (base & _ & -> & ->). destruct Hbase as [Hcfg Hagg].
      split; simpl.
      * intros n c0 Hn. rewrite length_app. simpl.
        destruct (decide (toolName = n)) as [->|Hne].
        -- rewrite lookup_insert_eq in Hn. injection Hn as <-.
           split; [lia|]. intros Heq. specialize (Hagg _ Heq). lia.
        -- rewrite lookup_insert_ne in Hn by done.
           destruct (Hcfg n c0 Hn). split; [lia|done].
      * intros c0 Hc0. rewrite length_app. simpl. specialize (Hagg _ Hc0). lia.
Qed.

Lemma perform_cachesSound (o : operation) (st st' : state) :
  cachesSound st -> perform sanitizeHTML Tools o st = Some st' -> cachesSound st'.
Proof.
  intros Hsound. destruct o as [toolName|name| |blocksData]; simpl; intros H;
    apply fmap_Some in H as ([r st1] & H & ->); simpl.
  - by eapply composeToolConfig_cachesSound.
  - by eapply getInlineToolsConfig_cachesSound.
  - rewrite getAllInlineToolsConfig_eq in H.
    destruct (inlineToolsConfigCache st) as [c|] eqn:Hc.
    + by injection H as _ <-.
    + destruct Hsound as [Hcfg Hagg].
      destruct (allInline Tools); [|done]. injection H as _ <-.
      split; simpl.
      * intros n c Hn. rewrite length_app. simpl.
        destruct (Hcfg n c Hn). split; [lia|]. intros [= ?]. lia.
      * intros c [= <-]. rewrite length_app. simpl. lia.
  - revert r st st1 Hsound H. unfold sanitizeBlocks.
    induction blocksData as [|block rest IH]; intros r st st1 Hsound H.
    + by injection H as _ <-.
    + apply mapS_inv in H as (y & ys & st0 & Hy & Hys & _).
      eapply IH; [|exact Hys].
      apply sanitizeBlock_inv in Hy
        as (_ & b & toolConfig & st2 & rules & _ & Hcompose & _ & Hres).
      apply composeToolConfig_cachesSound in Hcompose; [|done].
      destruct (isEmpty (VObject rules)); [by subst|].
      by destruct Hres as (cleaned & calls & _ & ->).
Qed.

Lemma performAll_cachesSound (os : list operation) :
  forall st st',
    cachesSound st -> performAll sanitizeHTML Tools os st = Some st' -> cachesSound st'.
Proof.
  induction os as [|o os IH]; intros st st' Hsound; simpl.
  - by intros [= <-].
  - intros H. apply bind_Some in H as (st1 & Ho & Hos).
    eapply IH; [|exact Hos]. by eapply perform_cachesSound.
Qed.

Lemma cachesSound_init (bs : list Block) : cachesSound (init bs).
Proof. split; [intros n l Hn|intros c Hc]; done. Qed.

(** X17.  A composed configuration, once it is in [configCache], is never
    written again: in a session that started with empty caches, whatever
    the module does later, the cached object holds what it held. *)
Theorem composed_config_is_never_written
    (before after : list operation) (bs : list Block) (st st' : state)
    (toolName : string) (l : loc) (toolConfig : props) :
  performAll sanitizeHTML Tools before (init bs) = Some st ->
  configCache st !! toolName = Some l ->
  heap st !! l = Some toolConfig ->
  performAll sanitizeHTML Tools after st = Some st' ->
  configCache st' !! toolName = Some l /\ heap st' !! l = Some toolConfig.
Proof.
  intros Hbefore Hl Hconfig Hafter.
  pose proof (performAll_configCache _ _ _ _ _ Hafter Hl) as Hl'.
  split; [done|].
  pose proof (performAll_cachesSound _ _ _ (cachesSound_init bs) Hbefore) as Hsound.
  pose proof (performAll_cachesSound _ _ _ Hsound Hafter) as [Hcfg' _].
  apply performAll_evolves in Hafter as (Hobj & _ & _).
  destruct (Hobj _ _ Hconfig) as [?|[Hagg _]]; [done|].
  by destruct (Hcfg' _ _ Hl') as [_ ?].
Qed.

(** ** What the operations leave alone *)

(** X19.  In every state that the operations of the module reach from the
    initial one, the aggregate cache is either empty or points to an object
    that holds the union of the rule sets of all inline tools, taken in the
    order in which the registry enumerates them, as it was built or with
    the two line breaks forced in. *)
Theorem reachable_cache_holds_aggregate
    (os : list operation) (bs : list Block) (st : state) (l : loc) :
  inlineRulesDistinct Tools = true ->
  performAll sanitizeHTML Tools os (init bs) = Some st ->
  inlineToolsConfigCache st = Some l ->
  exists U ruleSets,
    (heap st !! l = Some U \/ heap st !! l = Some (forceLineBreaks U))
    /\ allInline Tools = Some U
    /\ Forall2 (fun tool ruleSet =>
                  getProp tool.2 (SANITIZE_CONFIG Tools) = Some ruleSet)
               (inline Tools) ruleSets
    /\ forall k, lookupProp k U = unionInOrder ruleSets k.
Proof.
  intros Hwf H Hl. apply performAll_evolves in H as (_ & _ & Hfilled).
  destruct (Hfilled eq_refl l Hl) as (U & HU & Hheap).
  destruct (allInline_union _ _ Hwf HU) as (ruleSets & Hsets & Hunion).
  by exists U, ruleSets.
Qed.

(** X18.  No operation of the module removes a rule-set object or empties
    the aggregate cache, and the only object that is ever written after its
    creation is the cached aggregate, to which nothing happens but the
    forcing in of the two line breaks. *)
Theorem rule_set_objects_persist (os : list operation) (st st' : state) :
  performAll sanitizeHTML Tools os st = Some st' ->
  (forall l p, heap st !! l = Some p ->
     exists p', heap st' !! l = Some p' /\ (p' = p \/ p' = forceLineBreaks p))
  /\ (forall l p, heap st !! l = Some p ->
        inlineToolsConfigCache st' <> Some l -> heap st' !! l = Some p)
  /\ (forall c, inlineToolsConfigCache st = Some c ->
        inlineToolsConfigCache st' = Some c).
Proof.
  intros H. apply performAll_evolves in H as (Hobj & Hkeep & _).
  split; [|split].
  - intros l p Hp. destruct (Hobj l p Hp) as [Hsame|[_ Hforced]]; eauto.
  - intros l p Hp Hnot. by destruct (Hobj l p Hp) as [Hsame|[Hc _]].
  - exact Hkeep.
Qed.

(** X20.  [getInlineToolsConfig] never writes [configCache] or a block.  Unless
    the setting is [true], it returns a new object every time and writes no
    other: the objects that exist stay as they are and the aggregate cache
    is not touched. *)
Theorem getInlineToolsConfig_frame
    (name : string) (st st' : state) (l : loc) (settings inlineToolbar : value) :
  getToolSettings Tools name = Some settings ->
  getProp settings "inlineToolbar" = Some inlineToolbar ->
  getInlineToolsConfig Tools name st = Some (l, st') ->
  configCache st' = configCache st
  /\ blocks st' = blocks st
  /\ (inlineToolbar <> VBool true ->
      l = length (heap st)
      /\ inlineToolsConfigCache st' = inlineToolsConfigCache st
      /\ exists config, heap st' = heap st ++ [forceLineBreaks config]).
Proof.
  intros Hsettings Htoolbar H.
  apply getInlineToolsConfig_inv in H
    as (settings' & inlineToolbar' & Hsettings' & Htoolbar' & Hcc & Hblocks & H).
  rewrite Hsettings in Hsettings'. injection Hsettings' as <-.
  rewrite Htoolbar in Htoolbar'. injection Htoolbar' as <-.
  split; [done|]. split; [done|]. intros Hnottrue.
  destruct (jstype_eqb (typeof inlineToolbar) TBoolean && truthy inlineToolbar) eqn:Hall.
  - by destruct inlineToolbar as [| |[|]| | | | |].
  - destruct H as (names & config & _ & _ & -> & -> & _ & ->). eauto.
Qed.

Lemma sanitizeBlock_frame (block out : loc) (st st' : state) :
  sanitizeBlock sanitizeHTML Tools block st = Some (out, st') ->
  (forall b, b <> block -> blocks st' !! b = blocks st !! b)
  /\ (forall b blk, blocks st !! b = Some blk ->
        exists blk', blocks st' !! b = Some blk' /\ tool blk' = tool blk).
Proof.
  intros H. apply sanitizeBlock_inv in H
    as (_ & b0 & toolConfig & st1 & rules & Hb0 & Hcompose & _ & Hres).
  apply composeToolConfig_blocks in Hcompose.
  destruct (isEmpty (VObject rules)).
  - subst. rewrite Hcompose. split; [done|]. eauto.
  - destruct Hres as (cleaned & calls & _ & ->). simpl. rewrite Hcompose. split.
    + intros b Hne. by rewrite list_lookup_insert_ne.
    + intros b blk Hb. destruct (decide (b = block)) as [->|Hne].
      * rewrite list_lookup_insert_eq by (by eapply lookup_lt_Some).
        rewrite Hb0 in Hb. injection Hb as <-. eauto.
      * rewrite list_lookup_insert_ne by done. eauto.
Qed.

(** X21.  [sanitizeBlocks] writes the data of the blocks of the batch and
    nothing else of the blocks: a block that is not in the batch stays as
    it is, and no block changes its tool. *)
Theorem sanitizeBlocks_frame (blocksData out : list loc) :
  forall st st',
    sanitizeBlocks sanitizeHTML Tools blocksData st = Some (out, st') ->
    (forall b, ~ In b blocksData -> blocks st' !! b = blocks st !! b)
    /\ (forall b blk, blocks st !! b = Some blk ->
          exists blk', blocks st' !! b = Some blk' /\ tool blk' = tool blk).
Proof.
  unfold sanitizeBlocks. revert out.
  induction blocksData as [|block rest IH]; intros out st st' H.
  - injection H as _ <-. split; [done|]. eauto.
  - apply mapS_inv in H as (y & ys & st1 & Hy & Hys & _).
    apply sanitizeBlock_frame in Hy as [Hother Htool].
    apply IH in Hys as [Hother' Htool']. split.
    + intros b Hb. rewrite Hother' by (intros ?; apply Hb; by right).
      apply Hother. intros ->. apply Hb. by left.
    + intros b blk Hb. destruct (Htool _ _ Hb) as (blk1 & Hb1 & Ht1).
      destruct (Htool' _ _ Hb1) as (blk2 & Hb2 & Ht2).
      exists blk2. split; [done|]. congruence.
Qed.

Lemma composeToolConfig_keeps_unknown (toolName t : string) (st st' : state) (l : loc) :
  composeToolConfig Tools toolName st = Some (l, st') ->
  lookupProp t (available Tools) = None ->
  configCache st !! t = None ->
  configCache st' !! t = None.
Proof.
  intros H Hunknown Ht. destruct (configCache st !! toolName) as [c|] eqn:Hc.
  - rewrite (composeToolConfig_hit _ _ _ _ Hc) in H. by injection H as _ <-.
  - destruct (decide (toolName = t)) as [->|Hne].
    + by rewrite (composeToolConfig_unknown_tool_throws _ _ Hc Hunknown) in H.
    + destruct (composeToolConfig_miss _ _ _ _ _ Hc H)
        as (toolClass & sanitize & declared & baseConfig & stb & _ & _ & _ & Hbase & Hres).
      apply getInlineToolsConfig_configCache in Hbase. simpl in Hbase.
      destruct (negb (truthy sanitize) || truthy declared && isEmpty declared).
      * destruct Hres as [_ ->]. by rewrite Hbase.
      * destruct Hres as (base & _ & _ & ->). simpl.
        by rewrite lookup_insert_ne, Hbase.
Qed.

(** X22.  One block of a tool that is not registered makes [sanitizeBlocks]
    throw for the whole batch, wherever the block stands in it; the name
    of the tool is not an inherited one. *)
Theorem sanitizeBlocks_unknown_tool_throws (blocksData : list loc) :
  forall (st : state) (block : loc) (b : Block),
    In block blocksData ->
    blocks st !! block = Some b ->
    ordinaryName (tool b) = true ->
    lookupProp (tool b) (available Tools) = None ->
    configCache st !! tool b = None ->
    sanitizeBlocks sanitizeHTML Tools blocksData st = None.
Proof.
  unfold sanitizeBlocks.
  induction blocksData as [|block0 rest IH];
    intros st block b Hin Hb Hname Hunknown Hmiss; [done|].
  simpl. unfold bindS.
  destruct (sanitizeBlock sanitizeHTML Tools block0 st) as [[out st1]|] eqn:H0;
    [|done].
  assert (mapS (sanitizeBlock sanitizeHTML Tools) rest st1 = None) as ->; [|done].
  destruct Hin as [->|Hin].
  - exfalso. apply sanitizeBlock_inv in H0
      as (_ & b0 & toolConfig & st0 & rules & Hb0 & Hcompose & _).
    rewrite Hb in Hb0. injection Hb0 as <-.
    by rewrite (composeToolConfig_unknown_tool_throws _ _ Hmiss Hunknown) in Hcompose.
  - destruct (proj2 (sanitizeBlock_frame _ _ _ _ H0) _ _ Hb) as (b' & Hb' & Htool).
    apply (IH st1 block b' Hin Hb'); rewrite Htool; [done|done|].
    apply sanitizeBlock_inv in H0
      as (_ & b0 & toolConfig & st0 & rules & _ & Hcompose & _ & Hres).
    pose proof (composeToolConfig_keeps_unknown _ _ _ _ _ Hcompose Hunknown Hmiss) as Hkeep.
    destruct (isEmpty (VObject rules)); [by subst|].
    by destruct Hres as (cleaned & calls & _ & ->).
Qed.

(** ** From the registry to the cleaned block *)

(** X23.  A block of a registered tool that declares no rules and enables no
    inline tool: every string leaf of its data is handed to the cleaner
    with the configuration [{br: true, wbr: true}], provided no field of
    the data is called [br] or [wbr] or bears an inherited name, and the
    name of the tool is not an inherited one. *)
Theorem sanitizeBlock_tool_without_rules
    (block : loc) (st : state) (b : Block) (toolClass settings inlineToolbar : value) :
  blocks st !! block = Some b ->
  ordinaryName (tool b) = true ->
  configCache st !! tool b = None ->
  getProp (VObject (available Tools)) (tool b) = Some toolClass ->
  jstype_eqb (typeof toolClass) TUndefined = false ->
  toolClass <> VNull ->
  declaresRules Tools toolClass = false ->
  getToolSettings Tools (tool b) = Some settings ->
  getProp settings "inlineToolbar" = Some inlineToolbar ->
  truthy inlineToolbar = false ->
  distinctNames (data b) = true ->
  ordinaryNames (data b) = true ->
  ~ In "br" (fieldNames (data b)) ->
  ~ In "wbr" (fieldNames (data b)) ->
  exists st',
    sanitizeBlock sanitizeHTML Tools block st = Some (block, st')
    /\ blocks st' !! block
       = Some {| tool := tool b;
                 data := mapLeaves
                           (fun s => sanitizeHTML s
                                       (VObject [("br", VBool true); ("wbr", VBool true)]))
                           (data b) |}.
Proof.
  intros Hb _ Hmiss Hclass Hdefined Hnotnull Hnorules Hsettings Htoolbar Hfalsy
    Hnames _ Hbr Hwbr.
  destruct (getInlineToolsConfig_returns Tools (tool b)
              (set_queries (queries st ++ [QAvailable (tool b)]) st)
              settings inlineToolbar Hsettings Htoolbar)
    as (baseConfig & stb & Hbase).
  { right. exists []. rewrite Hfalsy. split; [done|]. by eexists. }
  destruct (composeToolConfig_returns Tools (tool b) st toolClass Hclass Hdefined Hnotnull)
    as (l & st1 & Hcompose); [by eauto|].
  destruct (composeToolConfig_miss _ _ _ _ _ Hmiss Hcompose)
    as (toolClass' & sanitize & declared & baseConfig' & stb'
        & Hclass' & Hsanitize & Hdeclared & Hbase' & Hres).
  rewrite Hclass in Hclass'. injection Hclass' as <-.
  rewrite Hbase in Hbase'. injection Hbase' as <- <-.
  unfold declaresRules in Hnorules. rewrite Hsanitize, Hdeclared in Hnorules.
  apply negb_false_iff in Hnorules. rewrite Hnorules in Hres.
  destruct Hres as [-> ->].
  apply getInlineToolsConfig_inv in Hbase
    as (settings' & inlineToolbar' & Hsettings' & Htoolbar' & _ & Hblocks & Hbase).
  rewrite Hsettings in Hsettings'. injection Hsettings' as <-.
  rewrite Htoolbar in Htoolbar'. injection Htoolbar' as <-.
  rewrite Hfalsy, andb_false_r in Hbase.
  destruct Hbase as (names & config & Hnames' & Hnamed & -> & _ & _ & Hheap).
  injection Hnames' as <-. injection Hnamed as <-.
  assert (heap stb !! length (heap st) = Some (forceLineBreaks [])) as Hrules
    by (rewrite Hheap; by apply list_lookup_middle).
  rewrite (sanitizeBlock_eq _ _ _ _ _ _ _ _ Hb Hcompose Hrules).
  cbn [forceLineBreaks setProp String.eqb isEmpty]. simpl isEmpty.
  rewrite deepSanitize_uniform; [|done|].
  - eexists. split; [reflexivity|]. simpl.
    rewrite list_lookup_insert_eq
      by (rewrite Hblocks; simpl; by eapply lookup_lt_Some).
    reflexivity.
  - intros k Hk. exists VUndefined. split; [|done]. simpl.
    destruct (String.eqb_spec k "br") as [->|_]; [done|].
    by destruct (String.eqb_spec k "wbr") as [->|_].
Qed.

End ComposerMore.


(** The properties above on the example registries. *)

Lemma getAllInlineToolsConfig_computed_once_witness :
  exists (l : loc) (st' : state),
    getAllInlineToolsConfig exampleTools (init []) = Some (l, st')
    /\ inlineToolsConfigCache st' = Some l
    /\ (forall (os : list operation) (st'' : state),
          performAll markCleaned exampleTools os st' = Some st'' ->
          getAllInlineToolsConfig exampleTools st'' = Some (l, st'')).
Proof.
  assert (getAllInlineToolsConfig exampleTools (init []) = aggregateComputed)
    as Hrun by (vm_compute; reflexivity).
  destruct (getAllInlineToolsConfig_computed_once markCleaned exampleTools
              (init []) _ _ Hrun) as (Hc & _ & Hlater).
  eexists _, _. split; [exact Hrun|]. by split.
Defined.

Lemma aggregate_last_tool_wins_witness :
  lookupProp "b" [("b", VBool false); ("i", VBool true)] = Some (VBool false).
Proof.
  apply (aggregate_last_tool_wins otherTools
           [("bold", VObject [("sanitize", VObject [("b", VBool true)])])]
           "italic"
           (VObject [("sanitize", VObject [("i", VBool true); ("b", VBool false)])])
           [("i", VBool true); ("b", VBool false)]
           [("b", VBool false); ("i", VBool true)] "b" (VBool false)).
  - reflexivity.
  - reflexivity.
  - apply (bool_decide_unpack (NoDup _)). vm_compute. exact I.
  - reflexivity.
  - reflexivity.
Defined.

Lemma getInlineToolsConfig_throws_witness :
  getInlineToolsConfig otherTools "unheard" (init []) = None
  /\ getInlineToolsConfig otherTools "list" (init []) = None
  /\ getInlineToolsConfig otherTools "gallery" (init []) = None.
Proof.
  split; [|split].
  - apply (proj1 (getInlineToolsConfig_throws otherTools "unheard" (init []))
             VUndefined); [reflexivity|by left].
  - apply (proj1 (proj2 (getInlineToolsConfig_throws otherTools "list" (init [])))
             (VObject [("inlineToolbar", VString "bold")]) (VString "bold"));
      [reflexivity|reflexivity|reflexivity|discriminate|reflexivity].
  - apply (proj2 (proj2 (getInlineToolsConfig_throws otherTools "gallery" (init [])))
             (VObject [("inlineToolbar", VArray [VString "bold"; VString "ghost"])])
             [VString "bold"; VString "ghost"] "ghost");
      [reflexivity|reflexivity|by right; left|reflexivity].
Defined.

Lemma composeToolConfig_unregistered_tool_witness :
  composeToolConfig exampleTools "ghost" (init []) = None.
Proof.
  apply (composeToolConfig_unregistered_tool exampleTools "ghost" (init [])).
  reflexivity.
Defined.

Lemma declared_plain_rule_is_kept_witness :
  exists (l : loc) (st' : state) (toolConfig : props),
    composeToolConfig otherTools "quote" (init []) = Some (l, st')
    /\ heap st' !! l = Some toolConfig
    /\ keys toolConfig = ["text"; "caption"]
    /\ lookupProp "caption" toolConfig = Some (VBool true)
    /\ configCache st' !! "quote" = Some l.
Proof.
  assert (composeToolConfig otherTools "quote" (init []) = quoteComposed)
    as Hrun by (vm_compute; reflexivity).
  destruct (declared_plain_rule_is_kept otherTools "quote" "caption" (init []) _ _
              _ _ (VBool true) eq_refl eq_refl eq_refl eq_refl
              ltac:(apply (bool_decide_unpack (NoDup _)); vm_compute; exact I)
              eq_refl eq_refl Hrun)
    as (toolConfig & Hl & Hkeys & Hcaption & Hcached).
  eexists _, _, toolConfig. split; [exact Hrun|]. by repeat split.
Defined.

Lemma configCache_is_never_invalidated_witness :
  exists (st st' : state) (l : loc),
    performAll markCleaned exampleTools [OComposeToolConfig "paragraph"] (init [])
    = Some st
    /\ performAll markCleaned exampleTools
         [OGetInlineToolsConfig "paragraph"; OComposeToolConfig "header"] st
       = Some st'
    /\ configCache st !! "paragraph" = Some l
    /\ configCache st' !! "paragraph" = Some l
    /\ composeToolConfig exampleTools "paragraph" st' = Some (l, st').
Proof.
  assert (performAll markCleaned exampleTools [OComposeToolConfig "paragraph"] (init [])
          = sessionStart) as Hstart by (vm_compute; reflexivity).
  assert (performAll markCleaned exampleTools
            [OGetInlineToolsConfig "paragraph"; OComposeToolConfig "header"]
            (match sessionStart with Some st => st | None => init [] end)
          = sessionLater) as Hlater by (vm_compute; reflexivity).
  destruct (configCache_is_never_invalidated markCleaned exampleTools _ _ _
              "paragraph" 2 Hlater eq_refl) as [Hkept Hagain].
  eexists _, _, 2. split; [exact Hstart|]. split; [exact Hlater|]. by repeat split.
Defined.

Lemma composed_config_is_never_written_witness :
  exists (st st' : state) (l : loc) (toolConfig : props),
    performAll markCleaned exampleTools [OComposeToolConfig "paragraph"] (init [])
    = Some st
    /\ performAll markCleaned exampleTools
         [OGetInlineToolsConfig "paragraph"; OComposeToolConfig "header"] st
       = Some st'
    /\ heap st !! l = Some toolConfig
    /\ configCache st' !! "paragraph" = Some l
    /\ heap st' !! l = Some toolConfig.
Proof.
  assert (performAll markCleaned exampleTools [OComposeToolConfig "paragraph"] (init [])
          = sessionStart) as Hstart by (vm_compute; reflexivity).
  assert (performAll markCleaned exampleTools
            [OGetInlineToolsConfig "paragraph"; OComposeToolConfig "header"]
            (match sessionStart with Some st => st | None => init [] end)
          = sessionLater) as Hlater by (vm_compute; reflexivity).
  destruct (composed_config_is_never_written markCleaned exampleTools
              _ _ [] _ _ "paragraph" 2 _ Hstart eq_refl eq_refl Hlater)
    as [Hkept Hsame].
  eexists _, _, 2, _. split; [exact Hstart|]. split; [exact Hlater|].
  split; [reflexivity|]. by split.
Defined.

Lemma getInlineToolsConfig_frame_witness :
  exists (l : loc) (st' : state),
    getInlineToolsConfig exampleTools "header" (init exampleBlocks) = Some (l, st')
    /\ configCache st' = configCache (init exampleBlocks)
    /\ blocks st' = exampleBlocks
    /\ l = 0
    /\ inlineToolsConfigCache st' = None.
Proof.
  assert (exists r, getInlineToolsConfig exampleTools "header" (init exampleBlocks)
                    = Some r) as ([l st'] & Hrun) by (vm_compute; by eexists).
  destruct (getInlineToolsConfig_frame exampleTools "header" (init exampleBlocks)
              st' l _ _ eq_refl eq_refl Hrun) as (Hcc & Hblocks & Hfresh).
  destruct Hfresh as (Hl & Hagg & _); [discriminate|].
  by exists l, st'.
Defined.

Lemma sanitizeBlocks_frame_witness :
  exists (out : list loc) (st' : state),
    sanitizeBlocks markCleaned exampleTools [0] (init exampleBlocks) = Some (out, st')
    /\ blocks st' !! 1 = exampleBlocks !! 1
    /\ exists blk', blocks st' !! 0 = Some blk' /\ tool blk' = "paragraph".
Proof.
  assert (sanitizeBlocks markCleaned exampleTools [0] (init exampleBlocks)
          = firstOfBatch) as Hrun by (vm_compute; reflexivity).
  destruct (sanitizeBlocks_frame markCleaned exampleTools [0] _ (init exampleBlocks) _
              Hrun) as [Hother Htool].
  eexists _, _. split; [exact Hrun|]. split.
  - apply (Hother 1). by intros [?|[]].
  - apply (Htool 0 _ eq_refl).
Defined.

Lemma sanitizeBlocks_unknown_tool_throws_witness :
  sanitizeBlocks markCleaned exampleTools [0; 1] (init rawBlocks) = None.
Proof.
  apply (sanitizeBlocks_unknown_tool_throws markCleaned exampleTools [0; 1]
           (init rawBlocks) 1 {| tool := "ghost"; data := VString "x" |}).
  - right. by left.
  - reflexivity.
  - reflexivity.
  - reflexivity.
  - reflexivity.
Defined.

Lemma sanitizeBlock_tool_without_rules_witness :
  exists st',
    sanitizeBlock markCleaned exampleTools 0 (init rawBlocks) = Some (0, st')
    /\ blocks st' !! 0
       = Some {| tool := "raw";
                 data := mapLeaves
                           (fun s => markCleaned s
                                       (VObject [("br", VBool true); ("wbr", VBool true)]))
                           exampleData |}.
Proof.
  apply (sanitizeBlock_tool_without_rules markCleaned exampleTools 0 (init rawBlocks)
           {| tool := "raw"; data := exampleData |}
           (VObject []) (VObject []) VUndefined);
    try reflexivity.
  - discriminate.
  - simpl. intros [H|[H|[H|[H|[]]]]]; discriminate H.
  - simpl. intros [H|[H|[H|[H|[]]]]]; discriminate H.
Defined.

Lemma rule_set_objects_persist_witness :
  exists st st',
    performAll markCleaned exampleTools [OComposeToolConfig "paragraph"] (init [])
    = Some st
    /\ performAll markCleaned exampleTools
         [OGetInlineToolsConfig "paragraph"; OComposeToolConfig "header"] st
       = Some st'
    /\ heap st' !! 2 = heap st !! 2
    /\ inlineToolsConfigCache st' = inlineToolsConfigCache st.
Proof.
  assert (performAll markCleaned exampleTools [OComposeToolConfig "paragraph"] (init [])
          = sessionStart) as Hstart by (vm_compute; reflexivity).
  assert (performAll markCleaned exampleTools
            [OGetInlineToolsConfig "paragraph"; OComposeToolConfig "header"]
            (match sessionStart with Some st => st | None => init [] end)
          = sessionLater) as Hlater by (vm_compute; reflexivity).
  destruct (rule_set_objects_persist markCleaned exampleTools _ _ _ Hlater)
    as (_ & Hother & Hkeep).
  eexists _, _. split; [exact Hstart|]. split; [exact Hlater|]. split.
  - apply (Hother 2 _ eq_refl). discriminate.
  - apply (Hkeep 1 eq_refl).
Defined.

Lemma reachable_cache_holds_aggregate_witness :
  exists (st : state) (U : props) (ruleSets : list value),
    performAll markCleaned exampleTools
      [OComposeToolConfig "paragraph"; OGetInlineToolsConfig "paragraph";
       OComposeToolConfig "header"] (init [])
    = Some st
    /\ inlineToolsConfigCache st = Some 1
    /\ (heap st !! 1 = Some U \/ heap st !! 1 = Some (forceLineBreaks U))
    /\ allInline exampleTools = Some U
    /\ forall k, lookupProp k U = unionInOrder ruleSets k.
Proof.
  assert (performAll markCleaned exampleTools
            [OComposeToolConfig "paragraph"; OGetInlineToolsConfig "paragraph";
             OComposeToolConfig "header"] (init [])
          = sessionLater) as Hrun by (vm_compute; reflexivity).
  destruct (reachable_cache_holds_aggregate markCleaned exampleTools _ [] _ 1
              eq_refl Hrun eq_refl)
    as (U & ruleSets & Hheap & HU & _ & Hunion).
  by eexists _, U, ruleSets.
Defined.
